(** * create-m10n: a shallow embedding of [src/index.ts]

    The script is a Bun/TypeScript command-line tool.  Its pure parts (the
    dotenv parser, the manifest patch, the project-name test) are embedded
    as functions; its effectful parts (shell commands, file access, console
    output, process exit) are embedded as programs of a small free monad
    whose effects are answered by an arbitrary environment. *)

From Stdlib Require Import ZArith NArith String Ascii List Lia Bool.
From Stdlib Require Import DecimalString.
From stdpp Require Import gmap list fin_maps.

Local Open Scope Z_scope.

(** ** JavaScript strings

    A JavaScript string is a sequence of UTF-16 code units; a code unit is
    modelled as an [N].  [js] turns an ASCII literal into such a sequence. *)

Abbreviation jsstring := (list N).

Definition js (s : string) : jsstring :=
  map N_of_ascii (list_ascii_of_string s).

Arguments js : simpl never.

(** A string is truthy when it is not empty. *)
Definition truthy (s : jsstring) : bool :=
  match s with [] => false | _ :: _ => true end.

(** The code units [String.prototype.trim] removes: ECMAScript WhiteSpace
    (TAB, VT, FF, SP, NBSP, ZWNBSP and the category Zs) and LineTerminator
    (LF, CR, LS, PS). *)
Definition isWhiteSpace (c : N) : bool :=
  ((9 <=? c) && (c <=? 13) || (c =? 32) || (c =? 160) || (c =? 5760)
   || (8192 <=? c) && (c <=? 8202) || (c =? 8232) || (c =? 8233)
   || (c =? 8239) || (c =? 8287) || (c =? 12288) || (c =? 65279))%N.

Fixpoint trimStart (s : jsstring) : jsstring :=
  match s with
  | [] => []
  | c :: s' => if isWhiteSpace c then trimStart s' else s
  end.

Fixpoint trimEnd (s : jsstring) : jsstring :=
  match s with
  | [] => []
  | c :: s' =>
      match trimEnd s' with
      | [] => if isWhiteSpace c then [] else [c]
      | t => c :: t
      end
  end.

Definition trim (s : jsstring) : jsstring := trimEnd (trimStart s).

(** [s.split(sep)] for a separator of one code unit; the empty string
    splits into one empty piece. *)
Fixpoint split (sep : N) (s : jsstring) : list jsstring :=
  match s with
  | [] => [[]]
  | c :: s' =>
      if (c =? sep)%N then [] :: split sep s'
      else match split sep s' with
           | l :: ls => (c :: l) :: ls
           | [] => [[c]]
           end
  end.

(** [s.indexOf(c)] for one code unit: the first position, or -1. *)
Fixpoint indexOf (c : N) (s : jsstring) : Z :=
  match s with
  | [] => -1
  | d :: s' =>
      if (d =? c)%N then 0
      else let i := indexOf c s' in if i =? -1 then -1 else i + 1
  end.

(** [s.slice(start, end)], with the clamping of negative and large
    indices that ECMAScript prescribes. *)
Definition clampIndex (len i : Z) : Z :=
  if i <? 0 then Z.max (len + i) 0 else Z.min i len.

Definition slice (s : jsstring) (start stop : Z) : jsstring :=
  let len := Z.of_nat (length s) in
  let from := clampIndex len start in
  let to := clampIndex len stop in
  take (Z.to_nat (Z.max (to - from) 0)) (drop (Z.to_nat from) s).

(** [s.slice(start)]. *)
Definition sliceFrom (s : jsstring) (start : Z) : jsstring :=
  slice s start (Z.of_nat (length s)).

Fixpoint startsWith (p s : jsstring) : bool :=
  match p, s with
  | [], _ => true
  | _ :: _, [] => false
  | a :: p', b :: s' => (a =? b)%N && startsWith p' s'
  end.

Definition endsWith (p s : jsstring) : bool :=
  startsWith (reverse p) (reverse s).

Definition LF : N := 10.
Definition EQUALS : N := 61.
Definition DQUOTE : N := 34.
Definition SQUOTE : N := 39.
Definition HASH : N := 35.

(** ** The dotenv parser, [readEnvFile]

    [env] is a plain object used as a map.  Assigning [env[key] = value]
    creates or overwrites an own property, except for the key [__proto__]:
    on a plain object that assignment reaches the inherited setter, which
    ignores a string, so no own property appears. *)

Definition env_assign (key value : jsstring)
    (env : gmap (list N) (list N)) : gmap (list N) (list N) :=
  if decide (key = js "__proto__") then env else <[key := value]> env.

(** The quote removal of lines 64-69. *)
Definition stripQuotes (value : jsstring) : jsstring :=
  if (startsWith [DQUOTE] value && endsWith [DQUOTE] value)
     || (startsWith [SQUOTE] value && endsWith [SQUOTE] value)
  then slice value 1 (-1)
  else value.

(** The body of the [for] loop: [Some (key, value)] when the line reaches
    the assignment [env[key] = value], [None] when it is skipped. *)
Definition parseLine (line : jsstring) : option (jsstring * jsstring) :=
  let trimmed := trim line in
  if truthy trimmed && negb (startsWith (js "#") trimmed) then
    let eqIndex := indexOf EQUALS trimmed in
    if negb (eqIndex =? -1) then
      let key := trim (slice trimmed 0 eqIndex) in
      let value := trim (sliceFrom trimmed (eqIndex + 1)) in
      Some (key, stripQuotes value)
    else None
  else None.

Definition envStep (env : gmap (list N) (list N)) (line : jsstring)
    : gmap (list N) (list N) :=
  match parseLine line with
  | Some (key, value) => env_assign key value env
  | None => env
  end.

(** The loop over [content.split("\n")], starting from the empty object. *)
Definition parseEnv (content : jsstring) : gmap (list N) (list N) :=
  fold_left envStep (split LF content) ∅.

Definition unlines (ls : list jsstring) : jsstring :=
  match ls with
  | [] => []
  | l :: ls' => fold_left (fun acc x => acc ++ LF :: x) ls' l
  end.

(** The six lines of the specification's example. *)
Definition sampleEnvFile : jsstring :=
  unlines [js "FOO=bar"; js "# comment";
           js "BAZ=" ++ DQUOTE :: js "qux" ++ [DQUOTE]; [];
           js "BAD_LINE"; js "FOO=baz"].

(** ** Parsed JSON

    The value [Bun.file(p).json()] yields.  An object is the list of its own
    properties in enumeration order, with distinct keys.

    A number is a double, kept in the form [Number::toString] starts from:
    zero (of either sign), an infinity (what a literal too large for a
    double parses to), or a sign with the integers [s] and [n] of the
    shortest decimal that reads back as the number, its value being
    [s * 10 ^ (n - k)] for [k] the number of digits of [s]. *)

Inductive number : Type :=
| NumZero
| NumFinite (negative : bool) (s : positive) (n : Z)
| NumInfinite (negative : bool).

#[warnings="-register-all"]
Inductive json : Type :=
| JNull
| JBool (b : bool)
| JNumber (x : number)
| JString (s : jsstring)
| JArray (items : list json)
| JObject (fields : list (jsstring * json)).

(** Truthiness of a parsed value; [None] stands for [undefined]. *)
Definition jsonTruthy (v : option json) : bool :=
  match v with
  | None | Some JNull => false
  | Some (JBool b) => b
  | Some (JNumber NumZero) => false
  | Some (JNumber _) => true
  | Some (JString s) => truthy s
  | Some (JArray _) | Some (JObject _) => true
  end.

(** [o[k]] on the property list of an object. *)
Fixpoint getProp (k : jsstring) (fields : list (jsstring * json))
    : option json :=
  match fields with
  | [] => None
  | (k', v) :: rest => if decide (k' = k) then Some v else getProp k rest
  end.

(** [o[k] = v] for a key that is not an array index: an existing property
    keeps its place, a new one goes last. *)
Fixpoint setProp (k : jsstring) (v : json) (fields : list (jsstring * json))
    : list (jsstring * json) :=
  match fields with
  | [] => [(k, v)]
  | (k', v') :: rest =>
      if decide (k' = k) then (k, v) :: rest
      else (k', v') :: setProp k v rest
  end.

(** ** Effects

    Everything the script asks of its surroundings.  The index of [Eff] is
    the type of the answer.  An answer [None] or [false] of an operation
    that can fail stands for the rejection of its promise.  For
    [Question], the answer [None] stands for an input that ends before a
    line was read: the callback of [rl.question] is then never called. *)

Inductive shMode := Inherit | Quiet | Text.

(** A command line of Bun's shell: the argument vectors of the stages of a
    pipeline; an interpolated value is one argument. *)
Abbreviation pipeline := (list (list jsstring)).

Inductive Eff : Type -> Type :=
| ConsoleLog (msg : jsstring) : Eff unit
| ConsoleError (msg : jsstring) : Eff unit
| Shell (mode : shMode) (cmd : pipeline) : Eff (option jsstring)
| ExistsSync (path : jsstring) : Eff bool
| PathResolve (parts : list jsstring) : Eff jsstring
| ProcessCwd : Eff jsstring
| ProcessChdir (path : jsstring) : Eff bool
| ProcessEnv (name : jsstring) : Eff (option jsstring)
| ProcessArgv : Eff (list jsstring)
| FileText (path : jsstring) : Eff (option jsstring)
| FileJson (path : jsstring) : Eff (option json)
| BunWrite (path content : jsstring) : Eff bool
| Question (query : jsstring) : Eff (option jsstring).

(** An async function body: it returns, throws, ends the process with
    [process.exit], or performs an effect and goes on with the answer. *)
Inductive Prog (A : Type) : Type :=
| Ret (a : A)
| Throw
| Exit (code : Z)
| Vis (X : Type) (e : Eff X) (k : X -> Prog A).

Arguments Ret {A} a.
Arguments Throw {A}.
Arguments Exit {A} code.
Arguments Vis {A X} e k.

Fixpoint bind {A B} (p : Prog A) (f : A -> Prog B) : Prog B :=
  match p with
  | Ret a => f a
  | Throw => Throw
  | Exit c => Exit c
  | Vis e k => Vis e (fun x => bind (k x) f)
  end.

(** [try { p } catch { h }]: [process.exit] is not an exception. *)
Fixpoint tryCatch {A} (p h : Prog A) : Prog A :=
  match p with
  | Ret a => Ret a
  | Throw => h
  | Exit c => Exit c
  | Vis e k => Vis e (fun x => tryCatch (k x) h)
  end.

(** The monad structure, so that stdpp's [x ← p; k] and [p ;; k] apply. *)
#[export] Instance Prog_ret : MRet Prog := fun A a => Ret a.
#[export] Instance Prog_bind : MBind Prog := fun A B f p => bind p f.

Definition perform {X} (e : Eff X) : Prog X := Vis e Ret.

(** An operation whose promise may reject. *)
Definition orThrow {A} (p : Prog (option A)) : Prog A :=
  bind p (fun r => match r with Some a => Ret a | None => Throw end).

Definition orThrowB (p : Prog bool) : Prog unit :=
  bind p (fun r => if r then Ret tt else Throw).

Definition log (msg : jsstring) : Prog unit := perform (ConsoleLog msg).
Definition sh (mode : shMode) (cmd : pipeline) : Prog jsstring :=
  orThrow (perform (Shell mode cmd)).

(** [for (const x of l) body]. *)
Fixpoint forOf {A} (l : list A) (body : A -> Prog unit) : Prog unit :=
  match l with
  | [] => Ret tt
  | x :: l' => bind (body x) (fun _ => forOf l' body)
  end.

(** ** Running a program

    The surroundings are a state [W] and a [handler] that answers each
    effect and moves the state.  A run yields what was asked and answered,
    in order, and how the program ended. *)

Inductive call : Type :=
| Call (X : Type) (e : Eff X) (x : X).
Arguments Call {X} e x.

Inductive outcome (A : Type) : Type :=
| Returned (a : A)
| Thrown
| Exited (code : Z).
Arguments Returned {A} a.
Arguments Thrown {A}.
Arguments Exited {A} code.

Definition handler (W : Type) : Type := forall X, Eff X -> W -> X * W.

Fixpoint run {W A} (h : handler W) (p : Prog A) (w : W)
    : list call * outcome A * W :=
  match p with
  | Ret a => ([], Returned a, w)
  | Throw => ([], Thrown, w)
  | Exit c => ([], Exited c, w)
  | Vis e k =>
      let '(x, w1) := h _ e w in
      let '(t, o, w2) := run h (k x) w1 in
      (Call e x :: t, o, w2)
  end.

Definition traceOf {W A} (r : list call * outcome A * W) : list call :=
  fst (fst r).
Definition outcomeOf {W A} (r : list call * outcome A * W) : outcome A :=
  snd (fst r).
Definition worldOf {W A} (r : list call * outcome A * W) : W := snd r.

(** ** [JSON.stringify(value, null, 2)] *)

Definition hexDigit (d : N) : N :=
  (if d <? 10 then 48 + d else 87 + d)%N.

(** [\uXXXX], four lower-case hexadecimal digits. *)
Definition unicodeEscape (c : N) : jsstring :=
  [92; 117; hexDigit ((c / 4096) mod 16); hexDigit ((c / 256) mod 16);
   hexDigit ((c / 16) mod 16); hexDigit (c mod 16)]%N.

Definition isLeadSurrogate (c : N) : bool := ((55296 <=? c) && (c <=? 56319))%N.
Definition isTrailSurrogate (c : N) : bool := ((56320 <=? c) && (c <=? 57343))%N.

Definition escapeUnit (c : N) : jsstring :=
  (if c =? 8 then js "\b"
   else if c =? 9 then js "\t"
   else if c =? 10 then js "\n"
   else if c =? 12 then js "\f"
   else if c =? 13 then js "\r"
   else if c =? 34 then [92; 34]
   else if c =? 92 then [92; 92]
   else if (c <? 32) || isLeadSurrogate c || isTrailSurrogate c
        then unicodeEscape c
   else [c])%N.

(** QuoteJSONString without the surrounding quotes: a surrogate pair is
    kept, a lone surrogate is escaped. *)
Fixpoint quoteBody (s : jsstring) : jsstring :=
  match s with
  | [] => []
  | c :: s' =>
      if isLeadSurrogate c then
        match s' with
        | d :: s'' =>
            if isTrailSurrogate d then c :: d :: quoteBody s''
            else unicodeEscape c ++ quoteBody s'
        | [] => unicodeEscape c
        end
      else escapeUnit c ++ quoteBody s'
  end.

Definition quoteJSON (s : jsstring) : jsstring :=
  DQUOTE :: quoteBody s ++ [DQUOTE].

(** The decimal digits of a positive integer. *)
Definition digitsOf (s : positive) : jsstring :=
  js (NilZero.string_of_uint (Pos.to_uint s)).

Definition ZERO_DIGIT : N := 48.

(** Number::toString in radix 10, for a finite number that is not zero:
    plain digits, a decimal point, or the exponent form, by the place [n]
    of the point. *)
Definition finiteToString (negative : bool) (s : positive) (n : Z)
    : jsstring :=
  let digits := digitsOf s in
  let k := Z.of_nat (length digits) in
  (if negative then js "-" else [])
  ++ (if (-5 <=? n) && (n <=? 21) then
        if k <=? n then digits ++ replicate (Z.to_nat (n - k)) ZERO_DIGIT
        else if 0 <? n then
          take (Z.to_nat n) digits ++ js "." ++ drop (Z.to_nat n) digits
        else js "0." ++ replicate (Z.to_nat (- n)) ZERO_DIGIT ++ digits
      else
        let exponent :=
          (if n - 1 <? 0 then js "-" else js "+")
          ++ digitsOf (Z.to_pos (Z.abs (n - 1))) in
        if k =? 1 then digits ++ js "e" ++ exponent
        else take 1 digits ++ js "." ++ drop 1 digits ++ js "e" ++ exponent).

(** A number in [JSON.stringify]: [ToString] of a finite number, [null]
    for an infinity. *)
Definition numberToString (x : number) : jsstring :=
  match x with
  | NumZero => js "0"
  | NumFinite negative s n => finiteToString negative s n
  | NumInfinite _ => js "null"
  end.

Fixpoint joinWith (sep : jsstring) (parts : list jsstring) : jsstring :=
  match parts with
  | [] => []
  | [x] => x
  | x :: rest => x ++ sep ++ joinWith sep rest
  end.

Definition gap : jsstring := js "  ".

(** SerializeJSONProperty at the indentation [indent], with the gap of
    two spaces. *)
Fixpoint serialize (indent : jsstring) (v : json) {struct v} : jsstring :=
  let inner := indent ++ gap in
  match v with
  | JNull => js "null"
  | JBool b => if b then js "true" else js "false"
  | JNumber x => numberToString x
  | JString s => quoteJSON s
  | JArray items =>
      match items with
      | [] => js "[]"
      | _ :: _ =>
          js "[" ++ LF :: inner
          ++ joinWith (js "," ++ LF :: inner) (map (serialize inner) items)
          ++ LF :: indent ++ js "]"
      end
  | JObject fields =>
      match fields with
      | [] => js "{}"
      | _ :: _ =>
          js "{" ++ LF :: inner
          ++ joinWith (js "," ++ LF :: inner)
               (map (fun '(k, x) =>
                       quoteJSON k ++ js ": " ++ serialize inner x) fields)
          ++ LF :: indent ++ js "}"
      end
  end.

Definition stringify2 (v : json) : jsstring := serialize [] v.

(** ** The manifest patch (step 5 of [createProject])

    [pkg.scripts[k] = v].  Reading [scripts] of [null], or assigning to a
    property of [undefined], [null] or (the module is in strict mode) of a
    primitive throws a TypeError, here [None].  A property set on an array
    under a name that is not an index is not serialised, so the array is
    left as it is. *)
Definition assignScript (k v : jsstring) (pkg : json) : option json :=
  match pkg with
  | JObject fields =>
      match getProp (js "scripts") fields with
      | Some (JObject scripts) =>
          Some (JObject (setProp (js "scripts")
                           (JObject (setProp k (JString v) scripts)) fields))
      | Some (JArray _) => Some pkg
      | _ => None
      end
  | _ => None
  end.

Definition DEV_SCRIPT : jsstring :=
  js "bunx convex dev --once && concurrently -r bun:dev:web bun:dev:convex".
Definition DEV_CONVEX_SCRIPT : jsstring := js "bunx convex dev".
Definition START_SCRIPT : jsstring := js "bun .output/server/index.mjs".

Definition patchManifest (pkg : json) : option json :=
  pkg1 ← assignScript (js "dev") DEV_SCRIPT pkg;
  pkg2 ← assignScript (js "dev:convex") DEV_CONVEX_SCRIPT pkg1;
  assignScript (js "start") START_SCRIPT pkg2.

(** The text written back to [package.json]. *)
Definition manifestText (pkg : json) : jsstring := stringify2 pkg ++ [LF].

(** ** Terminal colours and message helpers ([colors], [c]) *)

Definition ESC : N := 27.
Definition colors_reset : jsstring := ESC :: js "[0m".
Definition colors_red : jsstring := ESC :: js "[31m".
Definition colors_green : jsstring := ESC :: js "[32m".
Definition colors_yellow : jsstring := ESC :: js "[33m".
Definition colors_blue : jsstring := ESC :: js "[34m".
Definition colors_bold : jsstring := ESC :: js "[1m".

(** The glyphs U+2717, U+2713, U+26A0, U+25B8, U+2501 and U+2192. *)
Definition BALLOT_X : N := 10007.
Definition CHECK_MARK : N := 10003.
Definition WARNING_SIGN : N := 9888.
Definition SMALL_TRIANGLE : N := 9656.
Definition HEAVY_LINE : N := 9473.
Definition ARROW : N := 8594.

Definition c_error (msg : jsstring) : jsstring :=
  colors_red ++ BALLOT_X :: colors_reset ++ js " " ++ msg.
Definition c_success (msg : jsstring) : jsstring :=
  colors_green ++ CHECK_MARK :: colors_reset ++ js " " ++ msg.
Definition c_warning (msg : jsstring) : jsstring :=
  colors_yellow ++ WARNING_SIGN :: colors_reset ++ js " " ++ msg.
Definition c_info (msg : jsstring) : jsstring :=
  colors_blue ++ SMALL_TRIANGLE :: colors_reset ++ js " " ++ msg.

Definition rule : jsstring := repeat HEAVY_LINE 60.

Arguments c_error : simpl never.
Arguments c_success : simpl never.
Arguments c_warning : simpl never.
Arguments c_info : simpl never.

Definition c_header (msg : jsstring) : jsstring :=
  LF :: colors_blue ++ rule ++ colors_reset
  ++ LF :: colors_blue ++ js "  " ++ msg ++ colors_reset
  ++ LF :: colors_blue ++ rule ++ colors_reset ++ [LF].

Arguments c_header : simpl never.

(** A template literal prints a missing optional field as [undefined]. *)
Definition interpolate (o : option jsstring) : jsstring :=
  default (js "undefined") o.

(** ** Utility functions *)

(** [prompt]: the answer of [rl.question], trimmed.  The promise is
    resolved in the callback only: when the input ends before a line was
    read it stays pending for ever, nothing is left for the process to
    wait for, and the process ends with status 0. *)
Definition prompt (question : jsstring) : Prog jsstring :=
  answer ← perform (Question question);
  match answer with
  | Some text => mret (trim text)
  | None => Exit 0
  end.

(** [readEnvFile]: [env] is filled only after the read has succeeded, so
    the [catch] path returns it empty. *)
Definition readEnvFile (filePath : jsstring)
    : Prog (gmap (list N) (list N)) :=
  tryCatch
    (content ← orThrow (perform (FileText filePath));
     mret (parseEnv content))
    (mret ∅).

(** The command of one push: [echo value | bunx vercel env add name env
    --force]. *)
Definition pushCommand (name value env : jsstring) : pipeline :=
  [[js "echo"; value];
   [js "bunx"; js "vercel"; js "env"; js "add"; name; env; js "--force"]].

Arguments pushCommand : simpl never.

(** The stage of that pipeline that talks to Vercel. *)
Definition pushStage (name env : jsstring) : list jsstring :=
  [js "bunx"; js "vercel"; js "env"; js "add"; name; env; js "--force"].

Definition addVercelEnvVar (name value : jsstring)
    (environments : list jsstring) : Prog bool :=
  tryCatch
    (forOf environments
       (fun env => sh Quiet (pushCommand name value env);; mret tt);;
     mret true)
    (mret false).

(** ** Prerequisite checks *)

Record checkResult : Type := mkCheck {
  ok : bool;
  detail : option jsstring
}.

Definition commandExists (cmd : jsstring) : Prog bool :=
  tryCatch (sh Quiet [[js "which"; cmd]];; mret true) (mret false).

Definition checkBun : Prog checkResult :=
  tryCatch
    (result ← sh Text [[js "bun"; js "--version"]];
     mret (mkCheck true (Some (trim result))))
    (mret (mkCheck false None)).

Definition checkGitHub : Prog checkResult :=
  tryCatch
    (sh Quiet [[js "gh"; js "auth"; js "status"]];;
     user ← sh Text [[js "gh"; js "api"; js "user"; js "--jq"; js ".login"]];
     mret (mkCheck true (Some (trim user))))
    (mret (mkCheck false None)).

(** [config.accessToken]: a TypeError on [null], the property of an
    object, [undefined] on anything else. *)
Definition accessToken (config : json) : Prog (option json) :=
  match config with
  | JNull => Throw
  | JObject fields => mret (getProp (js "accessToken") fields)
  | _ => mret None
  end.

(** [process.env.HOME || process.env.USERPROFILE || ""]: the second
    variable is read only when the first is missing or empty. *)
Definition homeDirectory : Prog jsstring :=
  home ← perform (ProcessEnv (js "HOME"));
  if truthy (default [] home) then mret (default [] home)
  else
    profile ← perform (ProcessEnv (js "USERPROFILE"));
    if truthy (default [] profile) then mret (default [] profile)
    else mret [].

Definition checkConvex : Prog checkResult :=
  tryCatch
    (homeDir ← homeDirectory;
     configPath ← perform
       (PathResolve [homeDir; js ".convex"; js "config.json"]);
     present ← perform (ExistsSync configPath);
     if negb present then mret (mkCheck false None)
     else
       config ← orThrow (perform (FileJson configPath));
       token ← accessToken config;
       if jsonTruthy token then mret (mkCheck true None)
       else mret (mkCheck false None))
    (mret (mkCheck false None)).

Definition checkVercel : Prog checkResult :=
  tryCatch
    (installed ← commandExists (js "vercel");
     if installed : bool then
       result ← sh Text [[js "vercel"; js "whoami"]];
       mret (mkCheck true (Some (trim result)))
     else
       result ← sh Text [[js "bunx"; js "vercel"; js "whoami"]];
       mret (mkCheck true (Some (trim result))))
    (mret (mkCheck false None)).

(** What one block of [checkAllPrerequisites] prints: the line before the
    check, the line after a success, the line and the hint after a
    failure. *)
Record checkTexts : Type := mkTexts {
  announce : jsstring;
  success : checkResult -> jsstring;
  failure : jsstring;
  hint : jsstring
}.

Definition bunTexts : checkTexts :=
  mkTexts (js "Checking bun...")
    (fun bun => js "bun is installed (v" ++ interpolate (detail bun) ++ js ")")
    (js "bun is not installed")
    (LF :: js "  Install bun:" ++ LF ::
       js "    curl -fsSL https://bun.sh/install | bash" ++ [LF]).

Definition githubTexts : checkTexts :=
  mkTexts (js "Checking GitHub CLI (gh)...")
    (fun gh => js "GitHub CLI authenticated as: " ++ interpolate (detail gh))
    (js "GitHub CLI not authenticated")
    (LF :: js "  To authenticate:" ++ LF :: js "    gh auth login" ++ [LF]).

Definition convexTexts : checkTexts :=
  mkTexts (js "Checking Convex CLI...")
    (fun _ => js "Convex CLI authenticated")
    (js "Convex CLI not authenticated")
    (LF :: js "  To authenticate:" ++ LF :: js "    bunx convex login"
       ++ [LF]).

Definition vercelTexts : checkTexts :=
  mkTexts (js "Checking Vercel CLI...")
    (fun vercel =>
       js "Vercel CLI authenticated as: " ++ interpolate (detail vercel))
    (js "Vercel CLI not authenticated")
    (LF :: js "  To authenticate:" ++ LF :: js "    bunx vercel login"
       ++ [LF]).

(** One block of [checkAllPrerequisites]: announce, check, report, and
    carry [allGood] on. *)
Definition reportCheck (texts : checkTexts) (check : Prog checkResult)
    (allGood : bool) : Prog bool :=
  log (c_info (announce texts));;
  r ← check;
  if ok r then log (c_success (success texts r));; mret allGood
  else log (c_error (failure texts));; log (hint texts);; mret false.

Definition prerequisitesMissing : jsstring :=
  c_error (js "Some prerequisites are missing. Please fix them and run again.").
Definition prerequisitesSatisfied : jsstring :=
  c_success (js "All prerequisites satisfied!").

Definition checkAllPrerequisites : Prog bool :=
  log (c_header (js "Checking Prerequisites"));;
  allGood ← reportCheck bunTexts checkBun true;
  allGood ← reportCheck githubTexts checkGitHub allGood;
  allGood ← reportCheck convexTexts checkConvex allGood;
  allGood ← reportCheck vercelTexts checkVercel allGood;
  log [];;
  (if negb allGood then log prerequisitesMissing
   else log prerequisitesSatisfied);;
  mret allGood.

(** ** Project setup *)

(** Each line of a template literal, ended by a line feed. *)
Definition textLines (ls : list jsstring) : jsstring :=
  concat (map (fun l => l ++ [LF]) ls).

Definition dq (s : jsstring) : jsstring := DQUOTE :: s ++ [DQUOTE].

Definition VITE_CONFIG : jsstring :=
  textLines
    [js "import { tanstackStart } from '@tanstack/react-start/plugin/vite'";
     js "import { defineConfig } from 'vite'";
     js "import tsConfigPaths from 'vite-tsconfig-paths'";
     js "import tailwindcss from '@tailwindcss/vite'";
     js "import viteReact from '@vitejs/plugin-react'";
     js "import { nitro } from 'nitro/vite'";
     [];
     js "export default defineConfig({";
     js "  server: {";
     js "    port: 3000,";
     js "  },";
     js "  plugins: [";
     js "    tailwindcss(),";
     js "    tsConfigPaths({";
     js "      projects: ['./tsconfig.json'],";
     js "    }),";
     js "    tanstackStart(),";
     js "    nitro(),";
     js "    viteReact(),";
     js "  ],";
     js "})"].

Definition VERCEL_JSON : jsstring :=
  textLines
    [js "{";
     js "  " ++ dq (js "$schema") ++ js ": "
       ++ dq (js "https://openapi.vercel.sh/vercel.json") ++ js ",";
     js "  " ++ dq (js "installCommand") ++ js ": "
       ++ dq (js "bun install") ++ js ",";
     js "  " ++ dq (js "buildCommand") ++ js ": "
       ++ dq (js "bunx convex deploy --cmd 'bun run build'");
     js "}"].

Definition envTargets : list jsstring :=
  [js "production"; js "preview"; js "development"].

Definition dashboardSteps (projectName : jsstring) : Prog unit :=
  log (LF :: js "  1. Go to: https://vercel.com/dashboard");;
  log (js "  2. Select: " ++ projectName ++ js " " ++ ARROW
         :: js " Settings " ++ ARROW :: js " Environment Variables").

(** The block of lines 384-398, which lines 408-422 repeat for the second
    variable: push, then report. *)
Definition pushVariable (name value : jsstring)
    (environments : list jsstring) : Prog unit :=
  log (c_info (js "Adding " ++ name ++ js "..."));;
  added ← addVercelEnvVar name value environments;
  if added : bool then
    log (c_success (name ++ js " added to Vercel"))
  else
    log (c_warning
      (js "Could not add " ++ name
       ++ js ". Add it manually in Vercel dashboard.")).

Definition VITE_CONVEX_URL : jsstring := js "VITE_CONVEX_URL".
Definition CONVEX_DEPLOY_KEY : jsstring := js "CONVEX_DEPLOY_KEY".

Definition urlNotFound : jsstring :=
  c_warning (js "VITE_CONVEX_URL not found. Add it manually in Vercel dashboard.").
Definition noDeployKey : jsstring :=
  c_warning
    (js "No deploy key provided. Add CONVEX_DEPLOY_KEY manually in Vercel dashboard.").

(** Step 12 of the source (lines 378-447): the environment variables. *)
Definition addEnvironmentVariables (projectName : jsstring)
    (vercelLinked : bool) (convexUrl deployKey : jsstring) : Prog unit :=
  if vercelLinked then
    log (c_header (js "Adding Environment Variables to Vercel"));;
    (if truthy convexUrl then
       pushVariable VITE_CONVEX_URL convexUrl envTargets
     else log urlNotFound);;
    (if truthy deployKey then
       pushVariable CONVEX_DEPLOY_KEY deployKey envTargets
     else
       log noDeployKey;;
       dashboardSteps projectName;;
       log (js "  3. Add CONVEX_DEPLOY_KEY" ++ [LF]))
  else
    log [];;
    log (c_warning (js "ACTION REQUIRED: Add Environment Variables in Vercel"));;
    dashboardSteps projectName;;
    log (js "  3. Add:");;
    log (js "     - CONVEX_DEPLOY_KEY (from Convex dashboard)");;
    log (js "     - VITE_CONVEX_URL (from .env.local)" ++ [LF]).

(** Step 9 of the source: the backend URL, empty when the command fails. *)
Definition setUpConvex : Prog jsstring :=
  log (c_header (js "Setting Up Convex"));;
  log (c_info (js "Creating Convex project..."));;
  tryCatch
    (sh Inherit [[js "bunx"; js "convex"; js "dev"; js "--once"]];;
     log (c_success (js "Convex project initialized"));;
     envVars ← readEnvFile (js ".env.local");
     let convexUrl :=
       let found := default [] (envVars !! VITE_CONVEX_URL) in
       if truthy found then found else [] in
     (if truthy convexUrl then
        log (c_success (js "Found VITE_CONVEX_URL: " ++ convexUrl))
      else mret tt);;
     mret convexUrl)
    (log (c_warning
       (js "Could not initialize Convex automatically. Run: bunx convex dev"
        ++ [LF]));;
     mret []).

(** Step 11 of the source: whether the link command succeeded. *)
Definition linkVercel : Prog bool :=
  log (c_header (js "Setting Up Vercel"));;
  log (c_info (js "Linking to Vercel..."));;
  tryCatch
    (sh Inherit [[js "bunx"; js "vercel"; js "link"; js "--yes"]];;
     log (c_success (js "Vercel project linked"));;
     mret true)
    (log (c_warning
       (js "Could not link Vercel automatically. Run: bunx vercel link"
        ++ [LF]));;
     mret false).

(** Step 5 of the source (lines 293-302): the manifest is read, patched
    and written back. *)
Definition updatePackageScripts : Prog unit :=
  log (c_header (js "Updating Scripts for Bun"));;
  log (c_info (js "Patching package.json scripts..."));;
  pkg ← orThrow (perform (FileJson (js "package.json")));
  patched ← match patchManifest pkg with
            | Some p => mret p
            | None => Throw
            end;
  orThrowB (perform (BunWrite (js "package.json") (manifestText patched)));;
  log (c_success (js "package.json updated")).

Definition repoCreateCommand (projectName : jsstring) : list jsstring :=
  [js "gh"; js "repo"; js "create"; projectName; js "--private";
   js "--source=."; js "--remote=origin"; js "--push"].

Definition createProject (projectName : jsstring) : Prog unit :=
  cwd ← perform ProcessCwd;
  projectPath ← perform (PathResolve [cwd; projectName]);
  present ← perform (ExistsSync projectPath);
  (if present : bool then
     log (c_error (js "Directory '" ++ projectName ++ js "' already exists."));;
     Exit 1
   else mret tt);;
  (* Step 1: Create from Convex template *)
  log (c_header (js "Creating Project from Template"));;
  log (c_info (js "Running create-convex with tanstack-start template..."));;
  sh Inherit [[js "bunx"; js "create-convex@latest"; projectName; js "-t";
               js "tanstack-start"]];;
  log (c_success (js "Project created"));;
  orThrowB (perform (ProcessChdir projectPath));;
  (* Step 2: Add Nitro *)
  log (c_header (js "Adding Nitro for Vercel"));;
  log (c_info (js "Installing nitro-nightly..."));;
  sh Inherit [[js "bun"; js "add"; js "nitro@npm:nitro-nightly@latest"]];;
  log (c_success (js "Nitro installed"));;
  (* Step 3: Configure vite.config.ts *)
  log (c_header (js "Configuring Vite"));;
  log (c_info (js "Adding Nitro plugin to vite.config.ts..."));;
  orThrowB (perform (BunWrite (js "vite.config.ts") VITE_CONFIG));;
  log (c_success (js "vite.config.ts configured"));;
  (* Step 4: Configure vercel.json *)
  log (c_header (js "Configuring Vercel"));;
  log (c_info (js "Creating vercel.json..."));;
  orThrowB (perform (BunWrite (js "vercel.json") VERCEL_JSON));;
  log (c_success (js "vercel.json created"));;
  (* Step 5: Update package.json scripts *)
  updatePackageScripts;;
  (* Step 6: Install dependencies *)
  log (c_header (js "Installing Dependencies"));;
  log (c_info (js "Running bun install..."));;
  sh Inherit [[js "bun"; js "install"]];;
  log (c_success (js "Dependencies installed"));;
  (* Step 7: Initialize Git *)
  log (c_header (js "Initializing Git"));;
  log (c_info (js "Initializing git repository..."));;
  sh Inherit [[js "git"; js "init"]];;
  sh Inherit [[js "git"; js "add"; js "."]];;
  sh Inherit [[js "git"; js "commit"; js "-m";
               js "Initial commit: Convex + TanStack Start + Vercel"]];;
  log (c_success (js "Git repository initialized"));;
  (* Step 8: Create GitHub repo *)
  log (c_header (js "Creating GitHub Repository"));;
  log (c_info (js "Creating GitHub repository..."));;
  tryCatch
    (sh Inherit [repoCreateCommand projectName];;
     log (c_success (js "GitHub repository created and pushed")))
    (log (c_warning (js "Could not create GitHub repository automatically."));;
     log (js "  Run manually: "
          ++ joinWith (js " ") (repoCreateCommand projectName) ++ [LF]));;
  (* Step 9: Initialize Convex *)
  convexUrl ← setUpConvex;
  (* Step 10: Get Convex Deploy Key *)
  log (c_header (js "Convex Deploy Key"));;
  log (c_info (js "A deploy key is required for Vercel deployments." ++ [LF]));;
  log (js "  1. Go to: https://dashboard.convex.dev");;
  log (js "  2. Select your project " ++ ARROW :: js " Settings " ++ ARROW
         :: js " Deploy Keys");;
  log (js "  3. Create a new deploy key and copy it" ++ [LF]);;
  deployKey ← prompt
    (colors_yellow ++ js "?" ++ colors_reset
     ++ js " Paste your Convex Deploy Key (or press Enter to skip): ");
  (* Step 11: Link to Vercel *)
  vercelLinked ← linkVercel;
  (* Step 12: Add environment variables to Vercel *)
  addEnvironmentVariables projectName vercelLinked convexUrl deployKey;;
  (* Complete! *)
  log (c_header (js "Setup Complete!"));;
  log (js "  Project: " ++ projectPath ++ [LF]);;
  log (js "  " ++ colors_green ++ js "Quick Start:" ++ colors_reset);;
  log (js "    cd " ++ projectName);;
  log (js "    bun run dev" ++ [LF]);;
  log (js "  " ++ colors_green ++ js "Deploy:" ++ colors_reset);;
  log (js "    bunx vercel --prod" ++ [LF]);;
  log (c_success (js "Happy coding!")).

(** ** Regular expressions

    What [/^[a-zA-Z][a-zA-Z0-9_-]*$/] needs: character classes given by
    ranges of code units, sequence, alternative and iteration.  [test] is
    the anchored match, decided with derivatives. *)

Inductive regex : Type :=
| RNone
| REmpty
| RClass (ranges : list (N * N))
| RSeq (r1 r2 : regex)
| RAlt (r1 r2 : regex)
| RStar (r : regex).

Definition inClass (ranges : list (N * N)) (c : N) : bool :=
  existsb (fun '(lo, hi) => (lo <=? c) && (c <=? hi))%N ranges.

Fixpoint nullable (r : regex) : bool :=
  match r with
  | RNone => false
  | REmpty => true
  | RClass _ => false
  | RSeq r1 r2 => nullable r1 && nullable r2
  | RAlt r1 r2 => nullable r1 || nullable r2
  | RStar _ => true
  end.

Fixpoint derive (c : N) (r : regex) : regex :=
  match r with
  | RNone => RNone
  | REmpty => RNone
  | RClass ranges => if inClass ranges c then REmpty else RNone
  | RSeq r1 r2 =>
      if nullable r1 then RAlt (RSeq (derive c r1) r2) (derive c r2)
      else RSeq (derive c r1) r2
  | RAlt r1 r2 => RAlt (derive c r1) (derive c r2)
  | RStar r1 => RSeq (derive c r1) (RStar r1)
  end.

(** [/^r$/.test(s)]. *)
Definition test (r : regex) (s : jsstring) : bool :=
  nullable (fold_left (fun r c => derive c r) s r).

(** [[a-zA-Z]] and [[a-zA-Z0-9_-]]. *)
Definition letterClass : list (N * N) := [(97, 122); (65, 90)]%N.
Definition nameClass : list (N * N) :=
  [(97, 122); (65, 90); (48, 57); (95, 95); (45, 45)]%N.

Definition projectNameRegex : regex :=
  RSeq (RClass letterClass) (RStar (RClass nameClass)).

(** ** [main] *)

Definition includes (x : jsstring) (l : list jsstring) : bool :=
  bool_decide (x ∈ l).

Definition helpText : jsstring :=
  LF :: textLines
    [colors_bold ++ js "create-m10n" ++ colors_reset;
     [];
     js "Create a Convex + TanStack Start project for Vercel.";
     [];
     colors_bold ++ js "Usage:" ++ colors_reset;
     js "  bunx create-m10n <project-name>";
     [];
     colors_bold ++ js "Options:" ++ colors_reset;
     js "  -s, --skip-checks    Skip prerequisite checks";
     js "  -h, --help           Show this help message";
     [];
     colors_bold ++ js "Prerequisites:" ++ colors_reset;
     js "  gh auth login        # GitHub CLI";
     js "  bunx convex login    # Convex CLI";
     js "  bunx vercel login    # Vercel CLI"].

(** What [main] derives from [process.argv.slice(2)]. *)
Definition skipChecksOf (args : list jsstring) : bool :=
  includes (js "--skip-checks") args || includes (js "-s") args.
Definition showHelpOf (args : list jsstring) : bool :=
  includes (js "--help") args || includes (js "-h") args.
Definition projectNameOf (args : list jsstring) : option jsstring :=
  find (fun arg => negb (startsWith (js "-") arg)) args.

Definition invalidNameMessage : jsstring :=
  c_error (js "Invalid project name. Use letters, numbers, hyphens, underscores. Start with a letter.").

(** [main] after the arguments are read; [bootstrap] is the rest of the
    function from line 500 on. *)
Definition bootstrap (skipChecks : bool) (projectName : jsstring)
    : Prog unit :=
  log (c_header (js "Bootstrap: Convex + TanStack Start + Vercel"));;
  log (js "  Project: " ++ projectName ++ [LF]);;
  (if negb skipChecks then
     passed ← checkAllPrerequisites;
     if passed : bool then mret tt else Exit 1
   else mret tt);;
  createProject projectName.

Definition mainWith (args : list jsstring) : Prog unit :=
  let skipChecks := skipChecksOf args in
  let showHelp := showHelpOf args in
  let projectName := projectNameOf args in
  let named := truthy (default [] projectName) in
  if showHelp || negb named then
    log helpText;;
    Exit (if named then 0 else 1)
  else
    let projectName := default [] projectName in
    if negb (test projectNameRegex projectName) then
      log invalidNameMessage;;
      Exit 1
    else bootstrap skipChecks projectName.

Definition main : Prog unit :=
  argv ← perform ProcessArgv;
  mainWith (drop 2 argv).

(** [main().catch(...)]: an error that escapes is reported and ends the
    process with status 1. *)
Definition entry : Prog unit :=
  tryCatch main
    (perform (ConsoleError (c_error (js "An error occurred:")));;
     Exit 1).

(** ** A simulated environment

    A concrete [handler], for running the programs on examples: files, the
    paths that exist, the command stages that fail, fixed answers for the
    rest.  Writing a file and changing directory succeed. *)

Module Simulated.
Record state : Type := mkState {
  files : gmap (list N) (list N);
  manifests : gmap (list N) json;
  existing : list jsstring;
  failing : list (list jsstring);
  stdout : jsstring;
  answer : jsstring;
  argv : list jsstring;
  variables : gmap (list N) (list N);
  cwd : jsstring
}.

Definition empty : state :=
  mkState ∅ ∅ [] [] [] [] [] ∅ (js "/work").

Definition fails (w : state) (cmd : pipeline) : bool :=
  existsb (fun stage => bool_decide (stage ∈ failing w)) cmd.

Definition handle : handler state :=
  fun X e =>
    match e in Eff X return state -> X * state with
    | ConsoleLog _ => fun w => (tt, w)
    | ConsoleError _ => fun w => (tt, w)
    | Shell _ cmd =>
        fun w => (if fails w cmd then None else Some (stdout w), w)
    | ExistsSync path => fun w => (bool_decide (path ∈ existing w), w)
    | PathResolve parts => fun w => (joinWith (js "/") parts, w)
    | ProcessCwd => fun w => (cwd w, w)
    | ProcessChdir path =>
        fun w => (true,
                  mkState (files w) (manifests w) (existing w) (failing w)
                    (stdout w) (answer w) (argv w) (variables w) path)
    | ProcessEnv name => fun w => (variables w !! name, w)
    | ProcessArgv => fun w => (argv w, w)
    | FileText path => fun w => (files w !! path, w)
    | FileJson path => fun w => (manifests w !! path, w)
    | BunWrite path content =>
        fun w => (true,
                  mkState (<[path := content]> (files w)) (manifests w)
                    (existing w) (failing w) (stdout w) (answer w)
                    (argv w) (variables w) (cwd w))
    | Question _ => fun w => (Some (answer w), w)
    end.

(** The same surroundings with the input closed: no question is
    answered. *)
Definition closedInput : handler state :=
  fun X e =>
    match e in Eff X return state -> X * state with
    | Question _ => fun w => (None, w)
    | e' => handle _ e'
    end.

Definition withFile (path content : jsstring) : state :=
  mkState {[path := content]} ∅ [] [] [] [] [] ∅ (js "/work").
Definition withFailing (stages : list (list jsstring)) : state :=
  mkState ∅ ∅ [] stages [] [] [] ∅ (js "/work").
Definition withExisting (paths : list jsstring) : state :=
  mkState ∅ ∅ paths [] [] [] [] ∅ (js "/work").
Definition withManifest (path : jsstring) (pkg : json) : state :=
  mkState ∅ {[path := pkg]} [] [] [] [] [] ∅ (js "/work").
End Simulated.

(** ** What a run did: projections of the trace *)

Definition logOf (c : call) : option jsstring :=
  match c with
  | Call e _ => match e with ConsoleLog msg => Some msg | _ => None end
  end.

(** A shell call with whether it succeeded. *)
Definition shellOf (c : call) : option (pipeline * bool) :=
  match c with
  | Call e x =>
      match e in Eff X return X -> option (pipeline * bool) with
      | Shell _ cmd => fun r => Some (cmd, bool_decide (is_Some r))
      | _ => fun _ => None
      end x
  end.

Definition writeOf (c : call) : option (jsstring * jsstring) :=
  match c with
  | Call e _ =>
      match e with BunWrite path content => Some (path, content) | _ => None end
  end.

Definition chdirOf (c : call) : option jsstring :=
  match c with
  | Call e _ => match e with ProcessChdir path => Some path | _ => None end
  end.

(** A read of a JSON file with what it gave. *)
Definition jsonReadOf (c : call) : option (jsstring * option json) :=
  match c with
  | Call e x =>
      match e in Eff X return X -> option (jsstring * option json) with
      | FileJson path => fun r => Some (path, r)
      | _ => fun _ => None
      end x
  end.



Definition logs (t : list call) : list jsstring := omap logOf t.
Definition jsonReads (t : list call) : list (jsstring * option json) :=
  omap jsonReadOf t.
Definition shells (t : list call) : list (pipeline * bool) := omap shellOf t.
Definition writes (t : list call) : list (jsstring * jsstring) :=
  omap writeOf t.
Definition chdirs (t : list call) : list jsstring := omap chdirOf t.

(** The pushes of one variable to [environments], all with the same
    result. *)
Definition pushed (name value : jsstring) (environments : list jsstring)
    (success : bool) : list (pipeline * bool) :=
  map (fun env => (pushCommand name value env, success)) environments.

(** Whether the surroundings report the target directory of [createProject]
    as existing: the answers to [process.cwd()], [resolve] and
    [existsSync] at its start. *)
Definition targetExists {W} (h : handler W) (projectName : jsstring) (w : W)
    : bool :=
  let '(cwd, w1) := h _ ProcessCwd w in
  let '(projectPath, w2) := h _ (PathResolve [cwd; projectName]) w1 in
  fst (h _ (ExistsSync projectPath) w2).

(** A line printed with [console.log]. *)
Definition said (msg : jsstring) : call := Call (ConsoleLog msg) tt.

(** The trace of one block of [checkAllPrerequisites], given the trace
    and the result of its check. *)
Definition reported (texts : checkTexts) (t : list call) (r : checkResult)
    : list call :=
  said (c_info (announce texts)) :: t
  ++ (if ok r then [said (c_success (success texts r))]
      else [said (c_error (failure texts)); said (hint texts)]).

(** The declarative meaning of a regular expression. *)
Inductive matches : regex -> jsstring -> Prop :=
| MEmpty : matches REmpty []
| MClass ranges c : inClass ranges c = true -> matches (RClass ranges) [c]
| MSeq r1 r2 s1 s2 :
    matches r1 s1 -> matches r2 s2 -> matches (RSeq r1 r2) (s1 ++ s2)
| MAltL r1 r2 s : matches r1 s -> matches (RAlt r1 r2) s
| MAltR r1 r2 s : matches r2 s -> matches (RAlt r1 r2) s
| MStarNil r : matches (RStar r) []
| MStarApp r s1 s2 :
    matches r s1 -> matches (RStar r) s2 -> matches (RStar r) (s1 ++ s2).

(** A program that neither throws nor ends the process, and one that does
    not end the process, whatever the answers. *)
Fixpoint returns {A} (p : Prog A) : Prop :=
  match p with
  | Ret _ => True
  | Throw => False
  | Exit _ => False
  | Vis e k => forall x, returns (k x)
  end.

Fixpoint exitFree {A} (p : Prog A) : Prop :=
  match p with
  | Ret _ => True
  | Throw => True
  | Exit _ => False
  | Vis e k => forall x, exitFree (k x)
  end.

(** The scripts the patch sets, and the manifest of the specification's
    example. *)
Definition patchedScripts : list (jsstring * json) :=
  [(js "dev", JString DEV_SCRIPT);
   (js "dev:convex", JString DEV_CONVEX_SCRIPT);
   (js "start", JString START_SCRIPT)].

Definition oldScripts : json := JObject [(js "dev", JString (js "old"))].

(** One property of an object as [JSON.stringify] prints it at the first
    level of indentation. *)
Definition topLevelEntry (field : jsstring * json) : jsstring :=
  quoteJSON (fst field) ++ js ": " ++ serialize gap (snd field).

(** The [scripts] property of a patched example as it stands in the file,
    spelled out code unit by code unit. *)
Definition scriptsText : jsstring :=
  dq (js "scripts") ++ js ": {" ++ LF
  :: js "    " ++ dq (js "dev") ++ js ": " ++ dq DEV_SCRIPT ++ js "," ++ LF
  :: js "    " ++ dq (js "dev:convex") ++ js ": " ++ dq DEV_CONVEX_SCRIPT
  ++ js "," ++ LF
  :: js "    " ++ dq (js "start") ++ js ": " ++ dq START_SCRIPT ++ LF
  :: js "  }".

(** ** Notions for stating further properties *)

(** What [line] binds [key] to, if it is an assignment to [key]. *)
Definition bindingOf (key line : jsstring) : option jsstring :=
  match parseLine line with
  | Some (k, v) => if decide (k = key) then Some v else None
  | None => None
  end.

Definition CR : N := 13.

(** The same text with Windows line ends: every line feed preceded by a
    carriage return. *)
Fixpoint toCRLF (s : jsstring) : jsstring :=
  match s with
  | [] => []
  | c :: s' => if (c =? LF)%N then CR :: LF :: toCRLF s' else c :: toCRLF s'
  end.

(** The lines of such a text: each but the last ends with a carriage
    return. *)
Fixpoint withCarriageReturns (ls : list jsstring) : list jsstring :=
  match ls with
  | [] => []
  | [l] => [l]
  | l :: rest => (l ++ [CR]) :: withCarriageReturns rest
  end.

(** Whether a manifest is an object whose [scripts] is an object or an
    array, that is, something a property can be assigned on. *)
Definition hasScripts (pkg : json) : bool :=
  match pkg with
  | JObject fields =>
      match getProp (js "scripts") fields with
      | Some (JObject _) | Some (JArray _) => true
      | _ => false
      end
  | _ => false
  end.

(** The names of the three scripts the patch assigns, in the order of the
    assignments. *)
Definition scriptNames : list jsstring :=
  [js "dev"; js "dev:convex"; js "start"].

(** A property of every effect a program can perform, whatever the
    answers. *)
Fixpoint always {A} (P : forall X, Eff X -> Prop) (p : Prog A) : Prop :=
  match p with
  | Vis e k => P _ e /\ forall x, always P (k x)
  | _ => True
  end.

Definition callSatisfies (P : forall X, Eff X -> Prop) (c : call) : Prop :=
  match c with Call e _ => P _ e end.

(** The commands of the prerequisite checks. *)
Definition probeCommands : list pipeline :=
  [[[js "bun"; js "--version"]];
   [[js "gh"; js "auth"; js "status"]];
   [[js "gh"; js "api"; js "user"; js "--jq"; js ".login"]];
   [[js "which"; js "vercel"]];
   [[js "vercel"; js "whoami"]];
   [[js "bunx"; js "vercel"; js "whoami"]]].

(** An effect that only looks: console output, one of the probe commands,
    the environment, a path, the presence of a file, the reading of a JSON
    file. *)
Definition probeEffect (X : Type) (e : Eff X) : Prop :=
  match e with
  | ConsoleLog _ | ProcessEnv _ | PathResolve _ | ExistsSync _
  | FileJson _ => True
  | Shell _ cmd => cmd ∈ probeCommands
  | _ => False
  end.


(** The shell calls of [addVercelEnvVar] for one variable: the three
    pushes, all successful, or the successful pushes up to a first failed
    one. *)
Definition pushRun (name value : jsstring) (calls : list (pipeline * bool))
    : Prop :=
  calls = pushed name value envTargets true
  \/ exists n env,
       envTargets !! n = Some env
       /\ calls = pushed name value (take n envTargets) true
                  ++ [(pushCommand name value env, false)].

(** The lines printed when the project could not be linked. *)
Definition notLinkedLines (projectName : jsstring) : list jsstring :=
  [[];
   c_warning (js "ACTION REQUIRED: Add Environment Variables in Vercel");
   LF :: js "  1. Go to: https://vercel.com/dashboard";
   js "  2. Select: " ++ projectName ++ js " " ++ ARROW
     :: js " Settings " ++ ARROW :: js " Environment Variables";
   js "  3. Add:";
   js "     - CONVEX_DEPLOY_KEY (from Convex dashboard)";
   js "     - VITE_CONVEX_URL (from .env.local)" ++ [LF]].

(** The code units of a project name, spelled out: an ASCII letter, and
    an ASCII letter, digit, underscore or hyphen. *)
Definition isAsciiLetter (c : N) : bool :=
  ((65 <=? c) && (c <=? 90) || (97 <=? c) && (c <=? 122))%N.
Definition isNameUnit (c : N) : bool :=
  (isAsciiLetter c || (48 <=? c) && (c <=? 57) || (c =? 95) || (c =? 45))%N.

(** [createProject] in two halves: the local part (lines 260-316 of the
    source, up to the first commit), which yields the project path, and
    the remote part (lines 318-458). *)
Definition localSetup (projectName : jsstring) : Prog jsstring :=
  cwd ← perform ProcessCwd;
  projectPath ← perform (PathResolve [cwd; projectName]);
  present ← perform (ExistsSync projectPath);
  (if present : bool then
     log (c_error (js "Directory '" ++ projectName ++ js "' already exists."));;
     Exit 1
   else mret tt);;
  log (c_header (js "Creating Project from Template"));;
  log (c_info (js "Running create-convex with tanstack-start template..."));;
  sh Inherit [[js "bunx"; js "create-convex@latest"; projectName; js "-t";
               js "tanstack-start"]];;
  log (c_success (js "Project created"));;
  orThrowB (perform (ProcessChdir projectPath));;
  log (c_header (js "Adding Nitro for Vercel"));;
  log (c_info (js "Installing nitro-nightly..."));;
  sh Inherit [[js "bun"; js "add"; js "nitro@npm:nitro-nightly@latest"]];;
  log (c_success (js "Nitro installed"));;
  log (c_header (js "Configuring Vite"));;
  log (c_info (js "Adding Nitro plugin to vite.config.ts..."));;
  orThrowB (perform (BunWrite (js "vite.config.ts") VITE_CONFIG));;
  log (c_success (js "vite.config.ts configured"));;
  log (c_header (js "Configuring Vercel"));;
  log (c_info (js "Creating vercel.json..."));;
  orThrowB (perform (BunWrite (js "vercel.json") VERCEL_JSON));;
  log (c_success (js "vercel.json created"));;
  updatePackageScripts;;
  log (c_header (js "Installing Dependencies"));;
  log (c_info (js "Running bun install..."));;
  sh Inherit [[js "bun"; js "install"]];;
  log (c_success (js "Dependencies installed"));;
  log (c_header (js "Initializing Git"));;
  log (c_info (js "Initializing git repository..."));;
  sh Inherit [[js "git"; js "init"]];;
  sh Inherit [[js "git"; js "add"; js "."]];;
  sh Inherit [[js "git"; js "commit"; js "-m";
               js "Initial commit: Convex + TanStack Start + Vercel"]];;
  log (c_success (js "Git repository initialized"));;
  mret projectPath.

Definition remoteSetup (projectName projectPath : jsstring) : Prog unit :=
  log (c_header (js "Creating GitHub Repository"));;
  log (c_info (js "Creating GitHub repository..."));;
  tryCatch
    (sh Inherit [repoCreateCommand projectName];;
     log (c_success (js "GitHub repository created and pushed")))
    (log (c_warning (js "Could not create GitHub repository automatically."));;
     log (js "  Run manually: "
          ++ joinWith (js " ") (repoCreateCommand projectName) ++ [LF]));;
  convexUrl ← setUpConvex;
  log (c_header (js "Convex Deploy Key"));;
  log (c_info (js "A deploy key is required for Vercel deployments." ++ [LF]));;
  log (js "  1. Go to: https://dashboard.convex.dev");;
  log (js "  2. Select your project " ++ ARROW :: js " Settings " ++ ARROW
         :: js " Deploy Keys");;
  log (js "  3. Create a new deploy key and copy it" ++ [LF]);;
  deployKey ← prompt
    (colors_yellow ++ js "?" ++ colors_reset
     ++ js " Paste your Convex Deploy Key (or press Enter to skip): ");
  vercelLinked ← linkVercel;
  addEnvironmentVariables projectName vercelLinked convexUrl deployKey;;
  log (c_header (js "Setup Complete!"));;
  log (js "  Project: " ++ projectPath ++ [LF]);;
  log (js "  " ++ colors_green ++ js "Quick Start:" ++ colors_reset);;
  log (js "    cd " ++ projectName);;
  log (js "    bun run dev" ++ [LF]);;
  log (js "  " ++ colors_green ++ js "Deploy:" ++ colors_reset);;
  log (js "    bunx vercel --prod" ++ [LF]);;
  log (c_success (js "Happy coding!")).

Definition generatorCommand (projectName : jsstring) : pipeline :=
  [[js "bunx"; js "create-convex@latest"; projectName; js "-t";
    js "tanstack-start"]].

(** The commands of the local part. *)
Definition localCommands (projectName : jsstring) : list pipeline :=
  [generatorCommand projectName;
   [[js "bun"; js "add"; js "nitro@npm:nitro-nightly@latest"]];
   [[js "bun"; js "install"]];
   [[js "git"; js "init"]];
   [[js "git"; js "add"; js "."]];
   [[js "git"; js "commit"; js "-m";
     js "Initial commit: Convex + TanStack Start + Vercel"]]].

(** What the local part may do: print, look at the target, run its six
    commands, enter the project, write the two configuration files with
    their fixed contents, read and write the manifest. *)
Definition localEffect (projectName : jsstring) (X : Type) (e : Eff X)
    : Prop :=
  match e with
  | ConsoleLog _ | ProcessCwd | PathResolve _ | ExistsSync _
  | ProcessChdir _ => True
  | Shell _ cmd => cmd ∈ localCommands projectName
  | BunWrite path content =>
      (path = js "vite.config.ts" /\ content = VITE_CONFIG)
      \/ (path = js "vercel.json" /\ content = VERCEL_JSON)
      \/ path = js "package.json"
  | FileJson path => path = js "package.json"
  | _ => False
  end.

(** What the remote part may do: print, ask the operator, read
    [.env.local], and run the repository, backend, link and push
    commands.  It writes no file. *)
Definition remoteEffect (projectName : jsstring) (X : Type) (e : Eff X)
    : Prop :=
  match e with
  | ConsoleLog _ | Question _ => True
  | FileText path => path = js ".env.local"
  | Shell _ cmd =>
      cmd = [repoCreateCommand projectName]
      \/ cmd = [[js "bunx"; js "convex"; js "dev"; js "--once"]]
      \/ cmd = [[js "bunx"; js "vercel"; js "link"; js "--yes"]]
      \/ exists name value env,
           cmd = pushCommand name value env
           /\ (name = VITE_CONVEX_URL \/ name = CONVEX_DEPLOY_KEY)
           /\ env ∈ envTargets
  | _ => False
  end.

(** The question of step 10. *)
Definition keyQuestion : jsstring :=
  colors_yellow ++ js "?" ++ colors_reset
  ++ js " Paste your Convex Deploy Key (or press Enter to skip): ".

(** A program each of whose runs either returns, or ends the process with
    status 0 right after the question [q] was left without an answer. *)
Fixpoint settles {A} (q : jsstring) (p : Prog A) : Prop :=
  match p with
  | Ret _ => True
  | Vis e k =>
      forall x,
        (Call e x = Call (Question q) None /\ k x = Exit 0)
        \/ settles q (k x)
  | _ => False
  end.

(** The same, the last line printed by a run that returns being [msg]. *)
Fixpoint closes {A} (msg q : jsstring) (p : Prog A) : Prop :=
  match p with
  | Vis e k =>
      forall x,
        (logOf (Call e x) = Some msg /\ exists a, k x = Ret a)
        \/ (Call e x = Call (Question q) None /\ k x = Exit 0)
        \/ closes msg q (k x)
  | _ => False
  end.

(** A program that ends the process with no other status than [code]. *)
Fixpoint exitsOnly {A} (code : Z) (p : Prog A) : Prop :=
  match p with
  | Exit c => c = code
  | Vis e k => forall x, exitsOnly code (k x)
  | _ => True
  end.

(** A read of a text file with what it gave. *)
Definition textReadOf (c : call) : option (jsstring * option jsstring) :=
  match c with
  | Call e x =>
      match e in Eff X return X -> option (jsstring * option jsstring) with
      | FileText path => fun r => Some (path, r)
      | _ => fun _ => None
      end x
  end.

Definition textReads (t : list call) : list (jsstring * option jsstring) :=
  omap textReadOf t.

(** The backend command of step 9, and the URL [createProject] takes
    from what the read of [.env.local] gave. *)
Definition convexDevCommand : pipeline :=
  [[js "bunx"; js "convex"; js "dev"; js "--once"]].

Definition convexUrlOf (content : option jsstring) : jsstring :=
  match content with
  | Some text => default [] (parseEnv text !! VITE_CONVEX_URL)
  | None => []
  end.

(** * Properties *)

(** ** Strings *)

Section StringFacts.
Implicit Types (s t ws : jsstring) (c : N).

Lemma trimStart_whitespace ws s :
  forallb isWhiteSpace ws = true -> trimStart (ws ++ s) = trimStart s.
Proof.
  induction ws as [|c ws IH]; simpl; [done|].
  intros [Hc Hws]%andb_true_iff. rewrite Hc. auto.
Qed.

Lemma trimEnd_cons_solid c s :
  isWhiteSpace c = false -> trimEnd (c :: s) = c :: trimEnd s.
Proof. intros Hc. simpl. rewrite Hc. by destruct (trimEnd s). Qed.

Lemma trimEnd_cons_kept c s :
  trimEnd s <> [] -> trimEnd (c :: s) = c :: trimEnd s.
Proof. intros H. simpl. by destruct (trimEnd s). Qed.

Lemma trimEnd_app_kept t s :
  trimEnd s <> [] -> trimEnd (t ++ s) = t ++ trimEnd s.
Proof.
  intros H. induction t as [|c t IH]; simpl app; [done|].
  rewrite trimEnd_cons_kept; rewrite IH; [done|].
  by destruct t.
Qed.

Lemma trimEnd_all_whitespace ws :
  forallb isWhiteSpace ws = true -> trimEnd ws = [].
Proof.
  induction ws as [|c ws IH]; simpl; [done|].
  intros [Hc Hws]%andb_true_iff. by rewrite IH, Hc.
Qed.

Lemma trimEnd_whitespace s ws :
  forallb isWhiteSpace ws = true -> trimEnd (s ++ ws) = trimEnd s.
Proof.
  intros Hws. induction s as [|c s IH]; simpl.
  - by apply trimEnd_all_whitespace.
  - by rewrite IH.
Qed.

Lemma trimStart_length s : (length (trimStart s) <= length s)%nat.
Proof.
  induction s as [|c s IH]; simpl; [lia|].
  destruct (isWhiteSpace c); simpl; lia.
Qed.

Lemma trimEnd_length s : (length (trimEnd s) <= length s)%nat.
Proof.
  induction s as [|c s IH]; simpl; [lia|].
  destruct (trimEnd s); [destruct (isWhiteSpace c)|]; simpl in *; lia.
Qed.

(** A string that [trim] leaves alone starts and ends with solid code
    units. *)
Lemma trim_fixed_inv c s :
  trim (c :: s) = c :: s ->
  isWhiteSpace c = false /\ trimEnd (c :: s) = c :: s.
Proof.
  unfold trim. simpl trimStart. destruct (isWhiteSpace c) eqn:Hc.
  - intros H. exfalso.
    pose proof (trimEnd_length (trimStart s)) as H1.
    pose proof (trimStart_length s) as H2.
    rewrite H in H1. simpl in H1. lia.
  - done.
Qed.

Lemma trimEnd_idempotent s : trimEnd (trimEnd s) = trimEnd s.
Proof.
  induction s as [|c s IH]; simpl; [done|].
  destruct (trimEnd s) as [|d t] eqn:E.
  - destruct (isWhiteSpace c) eqn:Hc; simpl; [done|]. by rewrite Hc.
  - by rewrite trimEnd_cons_kept; rewrite IH.
Qed.

Lemma indexOf_first c t s :
  c ∉ t -> indexOf c (t ++ c :: s) = Z.of_nat (length t).
Proof.
  induction t as [|d t IH]; simpl; intros Hnot.
  - by rewrite N.eqb_refl.
  - apply not_elem_of_cons in Hnot as [Hne Hnot].
    destruct (N.eqb_spec d c) as [->|_]; [done|].
    rewrite IH by done.
    destruct (Z.eqb_spec (Z.of_nat (length t)) (-1)); lia.
Qed.

Lemma indexOf_range c s : -1 <= indexOf c s < Z.of_nat (length s).
Proof.
  induction s as [|d s IH]; simpl; [lia|].
  destruct (d =? c)%N; [lia|].
  destruct (Z.eqb_spec (indexOf c s) (-1)); lia.
Qed.

(** Before the position [indexOf] reports, the code unit does not occur. *)
Lemma indexOf_prefix c s :
  indexOf c s <> -1 ->
  c ∉ take (Z.to_nat (indexOf c s)) s.
Proof.
  induction s as [|d s IH]; simpl; [done|].
  destruct (N.eqb_spec d c) as [->|Hne]; simpl.
  - intros _. apply not_elem_of_nil.
  - destruct (Z.eqb_spec (indexOf c s) (-1)) as [|Hi]; [done|].
    intros _. pose proof (indexOf_range c s).
    replace (Z.to_nat (indexOf c s + 1)) with (S (Z.to_nat (indexOf c s)))
      by lia.
    simpl. apply not_elem_of_cons. split; [congruence|by apply IH].
Qed.

Lemma clampIndex_inside len i : 0 <= i <= len -> clampIndex len i = i.
Proof.
  intros H. unfold clampIndex.
  destruct (Z.ltb_spec i 0); lia.
Qed.

Lemma clampIndex_beyond len i : 0 <= len <= i -> clampIndex len i = len.
Proof.
  intros H. unfold clampIndex.
  destruct (Z.ltb_spec i 0); lia.
Qed.

Lemma slice_prefix t s :
  slice (t ++ s) 0 (Z.of_nat (length t)) = t.
Proof.
  unfold slice.
  rewrite !clampIndex_inside by (rewrite length_app; lia).
  replace (Z.to_nat (Z.max (Z.of_nat (length t) - 0) 0)) with (length t)
    by lia.
  change (Z.to_nat 0) with 0%nat.
  by rewrite drop_0, take_app_length.
Qed.

Lemma sliceFrom_suffix t c s :
  sliceFrom (t ++ c :: s) (Z.of_nat (length t) + 1) = s.
Proof.
  unfold sliceFrom, slice.
  rewrite !clampIndex_inside by (rewrite length_app; simpl; lia).
  replace (Z.to_nat (Z.of_nat (length t) + 1)) with (length (t ++ [c]))
    by (rewrite length_app; simpl; lia).
  replace (t ++ c :: s) with ((t ++ [c]) ++ s) by by rewrite <- app_assoc.
  rewrite drop_app_length. apply take_ge.
  rewrite !length_app. simpl. lia.
Qed.

Lemma slice_is_take s i :
  0 <= i -> slice s 0 i = take (Z.to_nat i) s.
Proof.
  intros Hi. unfold slice.
  rewrite (clampIndex_inside _ 0) by lia.
  change (Z.to_nat 0) with 0%nat. rewrite drop_0.
  destruct (Z.le_gt_cases i (Z.of_nat (length s))).
  - rewrite clampIndex_inside by lia. f_equal. lia.
  - rewrite clampIndex_beyond by lia. rewrite !take_ge; [done|lia|lia].
Qed.

Lemma trimEnd_sublist c s : c ∈ trimEnd s -> c ∈ s.
Proof.
  induction s as [|d s IH]; simpl; [done|].
  destruct (trimEnd s) as [|e t] eqn:E.
  - destruct (isWhiteSpace d); [by intros ?%elem_of_nil|].
    intros ->%list_elem_of_singleton. left.
  - intros [->|H]%elem_of_cons; [left|right; auto].
Qed.

Lemma trimStart_sublist c s : c ∈ trimStart s -> c ∈ s.
Proof.
  induction s as [|d s IH]; simpl; [done|].
  destruct (isWhiteSpace d); [right; auto|done].
Qed.

Lemma trim_sublist c s : c ∈ trim s -> c ∈ s.
Proof. intros H. by apply trimStart_sublist, trimEnd_sublist. Qed.

Lemma trimStart_idempotent s : trimStart (trimStart s) = trimStart s.
Proof.
  induction s as [|c s IH]; simpl; [done|].
  destruct (isWhiteSpace c) eqn:Hc; [done|]. simpl. by rewrite Hc.
Qed.

(** Trimming the end keeps a solid first code unit in place. *)
Lemma trimStart_trimEnd s : trimStart (trimEnd s) = trimEnd (trimStart s).
Proof.
  induction s as [|c s IH]; simpl; [done|].
  destruct (isWhiteSpace c) eqn:Hc.
  - rewrite <- IH.
    destruct (trimEnd s) as [|d t]; simpl; by rewrite ?Hc.
  - rewrite (trimEnd_cons_solid c s Hc).
    destruct (trimEnd s); simpl; by rewrite Hc.
Qed.

Lemma trim_idempotent s : trim (trim s) = trim s.
Proof.
  unfold trim.
  by rewrite <- trimStart_trimEnd, trimEnd_idempotent, trimStart_trimEnd,
    trimStart_idempotent.
Qed.
End StringFacts.

(** ** Running composed programs *)

Section RunFacts.
Context {W : Type} (h : handler W).

Lemma run_bind {A B} (p : Prog A) (f : A -> Prog B) (w : W) :
  run h (bind p f) w =
  match run h p w with
  | (t, Returned a, w1) =>
      let '(t2, o, w2) := run h (f a) w1 in (t ++ t2, o, w2)
  | (t, Thrown, w1) => (t, Thrown, w1)
  | (t, Exited c, w1) => (t, Exited c, w1)
  end.
Proof.
  revert w. induction p as [a| |c|X e k IH]; intros w; simpl.
  - by destruct (run h (f a) w) as [[t o] w2].
  - done.
  - done.
  - destruct (h X e w) as [x w1]. rewrite IH.
    destruct (run h (k x) w1) as [[t [a| |c]] w2]; [|done..].
    by destruct (run h (f a) w2) as [[t2 o] w3].
Qed.

Lemma run_tryCatch {A} (p q : Prog A) (w : W) :
  run h (tryCatch p q) w =
  match run h p w with
  | (t, Thrown, w1) =>
      let '(t2, o, w2) := run h q w1 in (t ++ t2, o, w2)
  | r => r
  end.
Proof.
  revert w. induction p as [a| |c|X e k IH]; intros w; simpl.
  - done.
  - by destruct (run h q w) as [[t o] w2].
  - done.
  - destruct (h X e w) as [x w1]. rewrite IH.
    destruct (run h (k x) w1) as [[t [a| |c]] w2]; [done| |done].
    by destruct (run h q w2) as [[t2 o] w3].
Qed.

Lemma run_readEnvFile (path : jsstring) (w : W) :
  run h (readEnvFile path) w =
  let '(r, w1) := h _ (FileText path) w in
  ([Call (FileText path) r],
   Returned (match r with Some content => parseEnv content | None => ∅ end),
   w1).
Proof.
  unfold readEnvFile. simpl.
  by destruct (h _ (FileText path) w) as [[content|] w1].
Qed.
End RunFacts.

(** ** The dotenv parser *)

Lemma split_single sep s : sep ∉ s -> split sep s = [s].
Proof.
  induction s as [|c s IH]; simpl; [done|].
  intros [Hne Hnot]%not_elem_of_cons.
  destruct (N.eqb_spec c sep) as [->|_]; [done|].
  by rewrite IH.
Qed.

Lemma whitespace_not_equals ws :
  forallb isWhiteSpace ws = true -> EQUALS ∉ ws.
Proof.
  intros H Hin. rewrite forallb_forall in H.
  apply list_elem_of_In, H in Hin. discriminate Hin.
Qed.

(** The key of an assignment is what stands before the first [=],
    trimmed. *)
Lemma parseLine_key line key value :
  parseLine line = Some (key, value) ->
  (EQUALS ∉ key) /\ trim key = key.
Proof.
  unfold parseLine.
  destruct (truthy (trim line) && negb (startsWith (js "#") (trim line)));
    [|done].
  destruct (Z.eqb_spec (indexOf EQUALS (trim line)) (-1)) as [|Hfound];
    [done|].
  simpl. intros [= <- _]. split.
  - intros Hin%trim_sublist.
    pose proof (indexOf_range EQUALS (trim line)).
    rewrite slice_is_take in Hin by lia.
    by apply indexOf_prefix in Hin.
  - apply trim_idempotent.
Qed.

(** Where a binding of the parsed map comes from. *)
Lemma envStep_fold_lookup lines env key value :
  fold_left envStep lines env !! key = Some value ->
  env !! key = Some value \/
  (key <> js "__proto__" /\
   exists line, line ∈ lines /\ parseLine line = Some (key, value)).
Proof.
  revert env. induction lines as [|line lines IH]; intros env; simpl.
  - by left.
  - intros [H|(Hne & l & Hl & Hp)]%IH.
    + unfold envStep in H.
      destruct (parseLine line) as [[k v]|] eqn:Hline; [|by left].
      unfold env_assign in H. case_decide as Hproto; [by left|].
      destruct (decide (k = key)) as [->|Hk].
      * rewrite lookup_insert_eq in H. injection H as ->.
        right. split; [done|]. exists line. split; [left|done].
      * rewrite lookup_insert_ne in H by done. by left.
    + right. split; [done|]. exists l. split; [by right|done].
Qed.

Lemma parseEnv_lookup content key value :
  parseEnv content !! key = Some value ->
  key <> js "__proto__" /\
  exists line, line ∈ split LF content /\ parseLine line = Some (key, value).
Proof.
  intros [H|H]%envStep_fold_lookup; [|done].
  by rewrite lookup_empty in H.
Qed.

Lemma startsWith_single q s : startsWith [q] s = true -> head s = Some q.
Proof.
  destruct s as [|c s]; [done|]. cbn [startsWith].
  intros [Hq%N.eqb_eq _]%andb_true_iff. by subst.
Qed.

Lemma endsWith_single q s : endsWith [q] s = true -> last s = Some q.
Proof.
  unfold endsWith. change (reverse [q]) with [q].
  intros H%startsWith_single. by rewrite head_reverse in H.
Qed.

(** Quotes go only when the value starts and ends with the same one. *)
Lemma stripQuotes_changes value :
  stripQuotes value <> value ->
  exists q, (q = DQUOTE \/ q = SQUOTE) /\
            head value = Some q /\ last value = Some q.
Proof.
  unfold stripQuotes.
  destruct (startsWith [DQUOTE] value && endsWith [DQUOTE] value) eqn:Hd.
  - intros _. apply andb_true_iff in Hd as [H1 H2]. exists DQUOTE.
    auto using startsWith_single, endsWith_single.
  - destruct (startsWith [SQUOTE] value && endsWith [SQUOTE] value) eqn:Hs;
      [|done].
    intros _. apply andb_true_iff in Hs as [H1 H2]. exists SQUOTE.
    auto using startsWith_single, endsWith_single.
Qed.

(** A line [ws1 key ws2 = ws3 value ws4]: the whitespace around the line,
    the key and the value goes, then the quotes. *)
Lemma parseLine_trims ws1 key ws2 ws3 value ws4 :
  forallb isWhiteSpace ws1 = true ->
  forallb isWhiteSpace ws2 = true ->
  forallb isWhiteSpace ws3 = true ->
  forallb isWhiteSpace ws4 = true ->
  key <> [] -> trim key = key -> EQUALS ∉ key -> head key <> Some HASH ->
  trim value = value ->
  parseLine (ws1 ++ key ++ ws2 ++ EQUALS :: ws3 ++ value ++ ws4)
  = Some (key, stripQuotes value).
Proof.
  intros H1 H2 H3 H4 Hkey Hk Heq Hhash Hv.
  destruct key as [|c key]; [done|]. clear Hkey.
  apply trim_fixed_inv in Hk as [Hc Hk].
  assert (trimEnd (ws3 ++ value ++ ws4) = trimEnd (ws3 ++ value)) as Htail.
  { by rewrite app_assoc, trimEnd_whitespace. }
  assert (trimStart (trimEnd (ws3 ++ value)) = value) as Hvalue.
  { rewrite trimStart_trimEnd, trimStart_whitespace by done.
    by rewrite <- trimStart_trimEnd, trimStart_trimEnd. }
  assert (trim (ws1 ++ (c :: key) ++ ws2 ++ EQUALS :: ws3 ++ value ++ ws4)
          = ((c :: key) ++ ws2) ++ EQUALS :: trimEnd (ws3 ++ value))
    as Htrimmed.
  { unfold trim. rewrite trimStart_whitespace by done. simpl trimStart.
    rewrite Hc.
    replace (c :: key ++ ws2 ++ EQUALS :: ws3 ++ value ++ ws4)
      with (((c :: key) ++ ws2) ++ EQUALS :: ws3 ++ value ++ ws4)
      by (by rewrite <- app_assoc).
    rewrite trimEnd_app_kept.
    - by rewrite trimEnd_cons_solid, Htail.
    - by rewrite trimEnd_cons_solid. }
  unfold parseLine. rewrite Htrimmed.
  assert (EQUALS ∉ (c :: key) ++ ws2) as Hnone.
  { intros Hin. apply elem_of_app in Hin as [?|?]; [done|].
    by apply (whitespace_not_equals ws2). }
  rewrite indexOf_first by done.
  assert (startsWith (js "#")
            (((c :: key) ++ ws2) ++ EQUALS :: trimEnd (ws3 ++ value)) = false)
    as ->.
  { change (js "#") with [HASH]. cbn [startsWith app].
    destruct (N.eqb_spec HASH c) as [<-|]; [|done].
    by destruct Hhash. }
  simpl truthy. simpl andb.
  destruct (Z.eqb_spec (Z.of_nat (length ((c :: key) ++ ws2))) (-1)); [lia|].
  simpl negb. cbv iota.
  rewrite slice_prefix, sliceFrom_suffix.
  f_equal. f_equal.
  - unfold trim. cbn [trimStart app]. rewrite Hc.
    change (c :: key ++ ws2) with ((c :: key) ++ ws2).
    by rewrite trimEnd_whitespace.
  - f_equal. unfold trim.
    by rewrite <- trimStart_trimEnd, trimEnd_idempotent.
Qed.

Example sampleEnvFile_lines :
  split LF sampleEnvFile
  = [js "FOO=bar"; js "# comment"; js "BAZ=" ++ dq (js "qux"); [];
     js "BAD_LINE"; js "FOO=baz"].
Proof. reflexivity. Qed.

Example stripQuotes_mismatch :
  stripQuotes (DQUOTE :: js "qux'") = DQUOTE :: js "qux'"
  /\ stripQuotes (DQUOTE :: js "qux") = DQUOTE :: js "qux"
  /\ stripQuotes (dq (js "qux")) = js "qux"
  /\ stripQuotes (js "'qux'") = js "qux".
Proof. by vm_compute. Qed.

(** C4.  [readEnvFile] on the file of the six lines [FOO=bar],
    [# comment], [BAZ="qux"], an empty line, [BAD_LINE], [FOO=baz] returns
    exactly the map with [FOO] bound to [baz] and [BAZ] bound to [qux]: the
    later [FOO] wins, the comment and the line without [=] are skipped, and
    the quotes around [qux] are removed because they match. *)
Theorem readEnvFile_sample {W} (h : handler W) (w : W) (path : jsstring) :
  fst (h _ (FileText path) w) = Some sampleEnvFile ->
  outcomeOf (run h (readEnvFile path) w)
  = Returned (<[js "FOO" := js "baz"]> (<[js "BAZ" := js "qux"]> ∅))
  /\ parseLine (js "FOO=bar") = Some (js "FOO", js "bar")
  /\ parseLine (js "# comment") = None
  /\ parseLine (js "BAZ=" ++ dq (js "qux")) = Some (js "BAZ", js "qux")
  /\ parseLine [] = None
  /\ parseLine (js "BAD_LINE") = None
  /\ parseLine (js "FOO=baz") = Some (js "FOO", js "baz").
Proof.
  intros Hfile. rewrite run_readEnvFile.
  destruct (h _ (FileText path) w) as [r w1]. simpl in Hfile. subst r.
  split; [|by vm_compute].
  unfold outcomeOf. simpl. by vm_compute.
Qed.

Lemma readEnvFile_sample_witness :
  fst (Simulated.handle _ (FileText (js ".env.local"))
         (Simulated.withFile (js ".env.local") sampleEnvFile))
  = Some sampleEnvFile
  /\ outcomeOf (run Simulated.handle (readEnvFile (js ".env.local"))
                  (Simulated.withFile (js ".env.local") sampleEnvFile))
     = Returned (<[js "FOO" := js "baz"]> (<[js "BAZ" := js "qux"]> ∅)).
Proof.
  split; [by vm_compute|].
  apply (readEnvFile_sample Simulated.handle
           (Simulated.withFile (js ".env.local") sampleEnvFile)
           (js ".env.local")).
  by vm_compute.
Defined.

(** C3, as stated, fails: the line [=foo] is stored under the empty
    key. *)
Lemma readEnvFile_empty_key :
  parseEnv (js "=foo") !! [] = Some (js "foo")
  /\ outcomeOf (run Simulated.handle (readEnvFile (js ".env.local"))
                  (Simulated.withFile (js ".env.local") (js "=foo")))
     = Returned (<[ [] := js "foo" ]> ∅)
  /\ ~ (forall content key,
          is_Some (parseEnv content !! key) ->
          key <> [] /\ (EQUALS ∉ key)).
Proof.
  split; [by vm_compute|]. split; [by vm_compute|].
  intros H. destruct (H (js "=foo") []) as [Hne _]; [|done].
  exists (js "foo"). by vm_compute.
Qed.

(** C3, amended.  Every key of the map [readEnvFile] returns contains no
    [=] and has no whitespace at either end; it may be empty. *)
Theorem readEnvFile_keys {W} (h : handler W) (w : W) (path : jsstring)
    (env : gmap (list N) (list N)) (key : jsstring) :
  outcomeOf (run h (readEnvFile path) w) = Returned env ->
  is_Some (env !! key) ->
  (EQUALS ∉ key) /\ trim key = key.
Proof.
  rewrite run_readEnvFile.
  destruct (h _ (FileText path) w) as [[content|] w1]; unfold outcomeOf;
    simpl; intros [= <-] [value Hvalue].
  - apply parseEnv_lookup in Hvalue as (_ & line & _ & Hline).
    by eapply parseLine_key.
  - by rewrite lookup_empty in Hvalue.
Qed.

Lemma readEnvFile_keys_witness :
  outcomeOf (run Simulated.handle (readEnvFile (js ".env.local"))
               (Simulated.withFile (js ".env.local") (js " A B = 1")))
  = Returned (<[js "A B" := js "1"]> ∅)
  /\ is_Some ((<[js "A B" := js "1"]> (∅ : gmap (list N) (list N)))
              !! js "A B")
  /\ (EQUALS ∉ js "A B") /\ trim (js "A B") = js "A B".
Proof.
  assert (outcomeOf (run Simulated.handle (readEnvFile (js ".env.local"))
               (Simulated.withFile (js ".env.local") (js " A B = 1")))
          = Returned (<[js "A B" := js "1"]> ∅)) as Hrun by by vm_compute.
  assert (is_Some ((<[js "A B" := js "1"]> (∅ : gmap (list N) (list N)))
              !! js "A B")) as Hkey by (by eexists; vm_compute).
  split; [exact Hrun|]. split; [exact Hkey|].
  exact (readEnvFile_keys Simulated.handle _ _ _ _ Hrun Hkey).
Defined.

(** C9.  [readEnvFile] never throws and never ends the process; when the
    file cannot be read it returns the empty map. *)
Theorem readEnvFile_unreadable {W} (h : handler W) (w : W) (path : jsstring) :
  (exists env, outcomeOf (run h (readEnvFile path) w) = Returned env)
  /\ (fst (h _ (FileText path) w) = None ->
      outcomeOf (run h (readEnvFile path) w) = Returned ∅).
Proof.
  rewrite run_readEnvFile.
  destruct (h _ (FileText path) w) as [[content|] w1]; unfold outcomeOf;
    simpl; split; eauto; done.
Qed.

Lemma readEnvFile_unreadable_witness :
  fst (Simulated.handle _ (FileText (js "missing")) Simulated.empty) = None
  /\ outcomeOf (run Simulated.handle (readEnvFile (js "missing")) Simulated.empty)
     = Returned ∅.
Proof.
  split; [by vm_compute|].
  apply (readEnvFile_unreadable Simulated.handle Simulated.empty (js "missing")).
  by vm_compute.
Defined.

(** A line whose first solid code unit is [#] is a comment, however it
    is indented: the test is made on the trimmed line. *)
Lemma parseLine_comment ws rest :
  forallb isWhiteSpace ws = true -> parseLine (ws ++ HASH :: rest) = None.
Proof.
  intros Hws. unfold parseLine, trim.
  rewrite trimStart_whitespace by done.
  change (trimStart (HASH :: rest)) with (HASH :: rest).
  by rewrite trimEnd_cons_solid.
Qed.

(** C10, as stated, fails: the line [ __proto__ = x ] has the form of the
    claim, and nothing is stored for it. *)
Lemma readEnvFile_proto_not_stored :
  outcomeOf (run Simulated.handle (readEnvFile (js ".env.local"))
               (Simulated.withFile (js ".env.local") (js " __proto__ = x ")))
  = Returned ∅
  /\ parseLine (js " __proto__ = x ") = Some (js "__proto__", js "x")
  /\ ~ (forall ws1 key ws2 ws3 value ws4 : jsstring,
          forallb isWhiteSpace ws1 = true ->
          forallb isWhiteSpace ws2 = true ->
          forallb isWhiteSpace ws3 = true ->
          forallb isWhiteSpace ws4 = true ->
          key <> [] -> trim key = key -> (EQUALS ∉ key) ->
          head key <> Some HASH -> trim value = value ->
          parseEnv (ws1 ++ key ++ ws2 ++ EQUALS :: ws3 ++ value ++ ws4)
            !! key
          = Some (stripQuotes value)).
Proof.
  split; [by vm_compute|]. split; [by vm_compute|].
  intros H.
  specialize (H (js " ") (js "__proto__") (js " ") (js " ") (js "x")
                (js " ")).
  assert (parseEnv (js " __proto__ = x ") !! js "__proto__" = None)
    as Hnone by by vm_compute.
  change (js " " ++ js "__proto__" ++ js " " ++ EQUALS :: js " " ++ js "x"
          ++ js " ") with (js " __proto__ = x ") in H.
  rewrite Hnone in H. discriminate H; first [by vm_compute | compute_done].
Qed.

(** C10, amended.  For a line [ws1 KEY ws2 = ws3 VALUE ws4], the [ws]
    being runs of whitespace: the line is trimmed before it is tested, so
    a [KEY] that begins with [#] makes the line a comment, however it is
    indented, and nothing is stored; for every other [KEY] the
    assignment is [KEY] and [VALUE] without the whitespace, the quotes
    being removed from the trimmed value, so that whitespace inside the
    quotes stays; and the assignment is stored unless [KEY] is
    [__proto__]. *)
Theorem readEnvFile_trims {W} (h : handler W) (w : W) (path : jsstring)
    (ws1 key ws2 ws3 value ws4 : jsstring) :
  let line := ws1 ++ key ++ ws2 ++ EQUALS :: ws3 ++ value ++ ws4 in
  forallb isWhiteSpace ws1 = true ->
  forallb isWhiteSpace ws2 = true ->
  forallb isWhiteSpace ws3 = true ->
  forallb isWhiteSpace ws4 = true ->
  key <> [] -> trim key = key -> (EQUALS ∉ key) ->
  trim value = value ->
  (LF ∉ line) ->
  fst (h _ (FileText path) w) = Some line ->
  parseLine line
  = (if decide (head key = Some HASH) then None
     else Some (key, stripQuotes value))
  /\ outcomeOf (run h (readEnvFile path) w)
     = Returned (if decide (head key = Some HASH \/ key = js "__proto__")
                 then ∅
                 else <[key := stripQuotes value]> ∅).
Proof.
  intros line H1 H2 H3 H4 Hkey Hk Heq Hv Hline Hfile.
  assert (parseLine line
          = if decide (head key = Some HASH) then None
            else Some (key, stripQuotes value)) as Hparse.
  { case_decide as Hhash.
    - destruct key as [|c key']; [done|]. injection Hhash as ->.
      by apply parseLine_comment.
    - by apply parseLine_trims. }
  split; [done|].
  rewrite run_readEnvFile.
  destruct (h _ (FileText path) w) as [r w1]. simpl in Hfile. subst r.
  unfold outcomeOf, parseEnv. simpl. rewrite split_single by done.
  simpl. unfold envStep. rewrite Hparse. f_equal.
  destruct (decide (head key = Some HASH)) as [Hhash|Hhash].
  - rewrite decide_True by by left. done.
  - unfold env_assign. destruct (decide (key = js "__proto__")) as [Hp|Hp].
    + rewrite decide_True by by right. done.
    + rewrite decide_False by by intros [?|?]. done.
Qed.

Lemma readEnvFile_trims_witness :
  outcomeOf (run Simulated.handle (readEnvFile (js ".env.local"))
               (Simulated.withFile (js ".env.local")
                  ([32] ++ js "KEY" ++ [32] ++ EQUALS :: [9]
                   ++ js "' v w '" ++ [32; 13])%N))
  = Returned (<[js "KEY" := js " v w "]> ∅)
  /\ outcomeOf (run Simulated.handle (readEnvFile (js ".env.local"))
                  (Simulated.withFile (js ".env.local")
                     ([32; 9] ++ js "#KEY" ++ [] ++ EQUALS :: []
                      ++ js "1" ++ [])%N))
     = Returned ∅.
Proof.
  split.
  - destruct (readEnvFile_trims Simulated.handle
                (Simulated.withFile (js ".env.local")
                   ([32] ++ js "KEY" ++ [32] ++ EQUALS :: [9]
                    ++ js "' v w '" ++ [32; 13])%N)
                (js ".env.local") [32]%N (js "KEY") [32]%N [9]%N
                (js "' v w '") [32; 13]%N
                ltac:(by vm_compute) ltac:(by vm_compute)
                ltac:(by vm_compute) ltac:(by vm_compute)
                ltac:(by vm_compute) ltac:(by vm_compute)
                ltac:(compute_done) ltac:(by vm_compute)
                ltac:(compute_done) ltac:(by vm_compute)) as [_ ->].
    by vm_compute.
  - destruct (readEnvFile_trims Simulated.handle
                (Simulated.withFile (js ".env.local")
                   ([32; 9] ++ js "#KEY" ++ [] ++ EQUALS :: []
                    ++ js "1" ++ [])%N)
                (js ".env.local") [32; 9]%N (js "#KEY") [] []
                (js "1") []
                ltac:(by vm_compute) ltac:(by vm_compute)
                ltac:(by vm_compute) ltac:(by vm_compute)
                ltac:(by vm_compute) ltac:(by vm_compute)
                ltac:(compute_done) ltac:(by vm_compute)
                ltac:(compute_done) ltac:(by vm_compute)) as [_ ->].
    by vm_compute.
Defined.

(** ** Pushing variables to Vercel *)

Ltac prog_unfold := unfold mbind, Prog_bind, mret, Prog_ret in *.

Lemma omap_length_le {A B} (f : A -> option B) (l : list A) :
  (length (omap f l) <= length l)%nat.
Proof.
  induction l as [|x l IH]; cbn; [done|].
  destruct (f x); cbn; lia.
Qed.

(** A trace of shell calls only holds no console output. *)
Lemma only_shells_logs (t : list call) :
  length t = length (shells t) -> logs t = [].
Proof.
  unfold shells, logs.
  induction t as [|[X e x] t IH]; [done|].
  pose proof (omap_length_le shellOf t) as Hle.
  destruct e; cbn; intros Hlen; try lia.
  apply IH. lia.
Qed.

Section PushFacts.
Context {W : Type} (h : handler W).

Lemma run_log (msg : jsstring) (w : W) :
  run h (log msg) w
  = ([Call (ConsoleLog msg) tt], Returned tt, snd (h _ (ConsoleLog msg) w)).
Proof.
  unfold log, perform. simpl.
  by destruct (h _ (ConsoleLog msg) w) as [[] w1].
Qed.

(** The loop of [addVercelEnvVar]: it goes through the environments in
    order and the first push that fails ends it. *)
Lemma run_pushLoop (name value : jsstring) (environments : list jsstring)
    (w : W) :
  let r := run h (forOf environments
                    (fun env => sh Quiet (pushCommand name value env);;
                                mret tt)) w in
  length (traceOf r) = length (shells (traceOf r)) /\
  ((outcomeOf r = Returned tt /\
    shells (traceOf r) = pushed name value environments true)
   \/ (outcomeOf r = Thrown /\
       exists n env,
         environments !! n = Some env /\
         shells (traceOf r)
         = pushed name value (take n environments) true
           ++ [(pushCommand name value env, false)])).
Proof.
  revert w. induction environments as [|env envs IH]; intros w.
  - simpl. split; [done|]. by left.
  - prog_unfold. cbn [forOf]. rewrite !run_bind.
    unfold sh, orThrow, perform. cbn [bind run].
    destruct (h _ (Shell Quiet (pushCommand name value env)) w)
      as [[out|] w1]; cbn [bind run].
    + specialize (IH w1). prog_unfold.
      destruct (run h (forOf envs _) w1) as [[t o] w2].
      unfold traceOf, outcomeOf in *. cbn in IH |- *.
      destruct IH as [Hlen [[-> Hall]|(-> & n & e & Hn & Hprefix)]].
      * split; [by rewrite Hlen|]. left. split; [done|].
        by rewrite Hall.
      * split; [by rewrite Hlen|]. right. split; [done|].
        exists (S n), e. split; [done|]. by rewrite Hprefix.
    + unfold traceOf, outcomeOf. cbn. split; [done|]. right.
      split; [done|]. by exists 0%nat, env.
Qed.

Lemma run_addVercelEnvVar (name value : jsstring)
    (environments : list jsstring) (w : W) :
  let r := run h (addVercelEnvVar name value environments) w in
  length (traceOf r) = length (shells (traceOf r)) /\
  ((outcomeOf r = Returned true /\
    shells (traceOf r) = pushed name value environments true)
   \/ (outcomeOf r = Returned false /\
       exists n env,
         environments !! n = Some env /\
         shells (traceOf r)
         = pushed name value (take n environments) true
           ++ [(pushCommand name value env, false)])).
Proof.
  unfold addVercelEnvVar. prog_unfold.
  rewrite run_tryCatch, run_bind.
  pose proof (run_pushLoop name value environments w) as Hloop.
  prog_unfold. cbn zeta in Hloop.
  destruct (run h (forOf environments _) w) as [[t o] w1].
  unfold traceOf, outcomeOf in *. cbn in Hloop.
  destruct Hloop as [Hlen [[-> Hall]|(-> & Hstop)]]; cbn;
    rewrite app_nil_r; (split; [done|]); [left|right]; done.
Qed.

Lemma run_pushVariable (name value : jsstring)
    (environments : list jsstring) (w : W) :
  let r := run h (pushVariable name value environments) w in
  outcomeOf r = Returned tt /\
  ((shells (traceOf r) = pushed name value environments true /\
    logs (traceOf r)
    = [c_info (js "Adding " ++ name ++ js "...");
       c_success (name ++ js " added to Vercel")])
   \/ (exists n env,
         environments !! n = Some env /\
         shells (traceOf r)
         = pushed name value (take n environments) true
           ++ [(pushCommand name value env, false)] /\
         logs (traceOf r)
         = [c_info (js "Adding " ++ name ++ js "...");
            c_warning (js "Could not add " ++ name
                       ++ js ". Add it manually in Vercel dashboard.")])).
Proof.
  unfold pushVariable. prog_unfold.
  rewrite run_bind, run_log, run_bind.
  set (w1 := snd (h _ (ConsoleLog _) w)).
  pose proof (run_addVercelEnvVar name value environments w1) as Hadd.
  cbn zeta in Hadd.
  destruct (run h (addVercelEnvVar name value environments) w1)
    as [[t o] w2].
  unfold traceOf, outcomeOf in *. cbn in Hadd.
  destruct Hadd as [Hlogs%only_shells_logs Hadd].
  destruct Hadd as [[-> Hall]|(-> & n & env & Hn & Hprefix)];
    rewrite run_log; cbn.
  - split; [done|]. left. unfold logs, shells in *.
    rewrite !omap_app. cbn. rewrite Hall, Hlogs. by rewrite app_nil_r.
  - split; [done|]. right. exists n, env. unfold logs, shells in *.
    rewrite !omap_app. cbn. rewrite Hprefix, Hlogs.
    by rewrite app_nil_r.
Qed.
End PushFacts.

(** C1, as stated, fails: when the push to [preview] fails, the push to
    [development] is never attempted, and the warning is printed although
    the push to [production] succeeded. *)
Lemma addVercelEnvVar_abandons_rest :
  let w := Simulated.withFailing [pushStage CONVEX_DEPLOY_KEY (js "preview")] in
  let r := run Simulated.handle
             (addVercelEnvVar CONVEX_DEPLOY_KEY (js "secret") envTargets) w in
  shells (traceOf r)
  = [(pushCommand CONVEX_DEPLOY_KEY (js "secret") (js "production"), true);
     (pushCommand CONVEX_DEPLOY_KEY (js "secret") (js "preview"), false)]
  /\ outcomeOf r = Returned false
  /\ logs (traceOf (run Simulated.handle
                      (pushVariable CONVEX_DEPLOY_KEY (js "secret") envTargets)
                      w))
     = [c_info (js "Adding CONVEX_DEPLOY_KEY...");
        c_warning
          (js "Could not add CONVEX_DEPLOY_KEY. Add it manually in Vercel dashboard.")]
  /\ ~ (forall name value environments,
          map fst (shells (traceOf
                     (run Simulated.handle
                        (addVercelEnvVar name value environments) w)))
          = map (pushCommand name value) environments).
Proof.
  cbv zeta. split; [by vm_compute|]. split; [by vm_compute|].
  split; [by vm_compute|].
  intros H. specialize (H CONVEX_DEPLOY_KEY (js "secret") envTargets).
  by vm_compute in H.
Qed.

(** C1, amended.  [addVercelEnvVar] pushes to the environments in order
    and stops at the first push that fails: it returns [true] when every
    push succeeded, and [false] after the first failure, the remaining
    environments not being attempted.  Its caller prints the success line
    in the first case and the one warning for the variable in the
    second. *)
Theorem addVercelEnvVar_first_failure_stops {W} (h : handler W) (w : W)
    (name value : jsstring) (environments : list jsstring) :
  let r := run h (addVercelEnvVar name value environments) w in
  let r' := run h (pushVariable name value environments) w in
  ((outcomeOf r = Returned true /\
    shells (traceOf r) = pushed name value environments true)
   \/ (outcomeOf r = Returned false /\
       exists n env,
         environments !! n = Some env /\
         shells (traceOf r)
         = pushed name value (take n environments) true
           ++ [(pushCommand name value env, false)]))
  /\ outcomeOf r' = Returned tt
  /\ ((shells (traceOf r') = pushed name value environments true /\
       logs (traceOf r')
       = [c_info (js "Adding " ++ name ++ js "...");
          c_success (name ++ js " added to Vercel")])
      \/ (exists n env,
            environments !! n = Some env /\
            shells (traceOf r')
            = pushed name value (take n environments) true
              ++ [(pushCommand name value env, false)] /\
            logs (traceOf r')
            = [c_info (js "Adding " ++ name ++ js "...");
               c_warning (js "Could not add " ++ name
                          ++ js ". Add it manually in Vercel dashboard.")])).
Proof.
  cbv zeta. split.
  - apply run_addVercelEnvVar.
  - apply run_pushVariable.
Qed.

(** C5, as stated, fails: when the push to [production] fails, no push to
    [preview] or [development] is attempted, and the deploy key gets its
    own line telling to add it by hand. *)
Lemma addEnvironmentVariables_one_push :
  let w := Simulated.withFailing
             [pushStage CONVEX_DEPLOY_KEY (js "production")] in
  let r := run Simulated.handle
             (addEnvironmentVariables (js "myapp") true [] (js "secret")) w in
  shells (traceOf r)
  = [(pushCommand CONVEX_DEPLOY_KEY (js "secret") (js "production"), false)]
  /\ logs (traceOf r)
     = [c_header (js "Adding Environment Variables to Vercel");
        urlNotFound;
        c_info (js "Adding CONVEX_DEPLOY_KEY...");
        c_warning
          (js "Could not add CONVEX_DEPLOY_KEY. Add it manually in Vercel dashboard.")]
  /\ ~ (forall deployKey,
          truthy deployKey = true ->
          map fst (shells (traceOf
                     (run Simulated.handle
                        (addEnvironmentVariables (js "myapp") true []
                           deployKey) w)))
          = map (pushCommand CONVEX_DEPLOY_KEY deployKey) envTargets).
Proof.
  cbv zeta. split; [by vm_compute|]. split; [by vm_compute|].
  intros H. specialize (H (js "secret") eq_refl).
  by vm_compute in H.
Qed.

(** C5, amended.  With the project linked, no backend URL and a deploy
    key, the stage pushes only [CONVEX_DEPLOY_KEY]: to [production],
    [preview] and [development], in this order, up to the first push that
    fails.  It pushes nothing for [VITE_CONVEX_URL] and prints for it the
    line telling to add it by hand; the instructions for a missing deploy
    key are not printed.  When no push fails the three pushes are made and
    the success line closes the stage; otherwise the warning for the
    deploy key does. *)
Theorem addEnvironmentVariables_key_only {W} (h : handler W) (w : W)
    (projectName deployKey : jsstring) :
  truthy deployKey = true ->
  let r := run h (addEnvironmentVariables projectName true [] deployKey) w in
  outcomeOf r = Returned tt
  /\ Forall (fun c => exists env, env ∈ envTargets /\
                        fst c = pushCommand CONVEX_DEPLOY_KEY deployKey env)
       (shells (traceOf r))
  /\ (noDeployKey ∉ logs (traceOf r))
  /\ ((shells (traceOf r)
       = pushed CONVEX_DEPLOY_KEY deployKey envTargets true /\
       logs (traceOf r)
       = [c_header (js "Adding Environment Variables to Vercel");
          urlNotFound;
          c_info (js "Adding CONVEX_DEPLOY_KEY...");
          c_success (js "CONVEX_DEPLOY_KEY added to Vercel")])
      \/ (exists n env,
            envTargets !! n = Some env /\
            shells (traceOf r)
            = pushed CONVEX_DEPLOY_KEY deployKey (take n envTargets) true
              ++ [(pushCommand CONVEX_DEPLOY_KEY deployKey env, false)] /\
            logs (traceOf r)
            = [c_header (js "Adding Environment Variables to Vercel");
               urlNotFound;
               c_info (js "Adding CONVEX_DEPLOY_KEY...");
               c_warning
                 (js "Could not add CONVEX_DEPLOY_KEY. Add it manually in Vercel dashboard.")])).
Proof.
  intros Hkey. cbv zeta.
  unfold addEnvironmentVariables. cbn [truthy]. rewrite Hkey. prog_unfold.
  rewrite run_bind, run_log, run_bind, run_log.
  set (w2 := snd (h _ (ConsoleLog urlNotFound) _)).
  pose proof (run_pushVariable h CONVEX_DEPLOY_KEY deployKey envTargets w2)
    as Hpush.
  cbv zeta in Hpush.
  destruct (run h (pushVariable CONVEX_DEPLOY_KEY deployKey envTargets) w2)
    as [[t o] w3].
  unfold traceOf, outcomeOf in *. cbn in Hpush |- *.
  destruct Hpush as [-> Hpush]. split; [done|].
  assert (shells t = pushed CONVEX_DEPLOY_KEY deployKey envTargets true /\
          logs t = [c_info (js "Adding CONVEX_DEPLOY_KEY...");
                    c_success (js "CONVEX_DEPLOY_KEY added to Vercel")]
          \/ exists n env,
               envTargets !! n = Some env /\
               shells t
               = pushed CONVEX_DEPLOY_KEY deployKey (take n envTargets) true
                 ++ [(pushCommand CONVEX_DEPLOY_KEY deployKey env, false)] /\
               logs t = [c_info (js "Adding CONVEX_DEPLOY_KEY...");
                         c_warning
                           (js "Could not add CONVEX_DEPLOY_KEY. Add it manually in Vercel dashboard.")])
    as Hcases by exact Hpush.
  clear Hpush.
  change (omap shellOf t) with (shells t).
  change (omap logOf t) with (logs t).
  split; [|split].
  - destruct Hcases as [[-> _]|(n & env & Hn & -> & _)].
    + unfold pushed. apply Forall_fmap, Forall_forall.
      intros env Henv. by exists env.
    + apply Forall_app. split.
      * unfold pushed. apply Forall_fmap, Forall_forall.
        intros e He. exists e. split; [|done].
        by eapply subseteq_take.
      * apply Forall_singleton. exists env. split; [|done].
        by eapply list_elem_of_lookup_2.
  - destruct Hcases as [[_ ->]|(n & env & _ & _ & ->)]; compute_done.
  - destruct Hcases as [[-> ->]|(n & env & Hn & -> & ->)]; [by left|].
    right. by exists n, env.
Qed.

Lemma addEnvironmentVariables_key_only_witness :
  truthy (js "secret") = true
  /\ shells (traceOf (run Simulated.handle
                        (addEnvironmentVariables (js "myapp") true []
                           (js "secret")) Simulated.empty))
     = pushed CONVEX_DEPLOY_KEY (js "secret") envTargets true
  /\ Forall (fun c => exists env, env ∈ envTargets /\
                        fst c = pushCommand CONVEX_DEPLOY_KEY (js "secret") env)
       (shells (traceOf (run Simulated.handle
                           (addEnvironmentVariables (js "myapp") true []
                              (js "secret")) Simulated.empty))).
Proof.
  split; [reflexivity|]. split; [by vm_compute|].
  exact (proj1 (proj2 (addEnvironmentVariables_key_only Simulated.handle
                         Simulated.empty (js "myapp") (js "secret")
                         eq_refl))).
Defined.

(** ** The target directory *)

Section CreateProjectFacts.
Context {W : Type} (h : handler W).

Lemma run_perform {X} (e : Eff X) (w : W) :
  run h (perform e) w
  = ([Call e (fst (h _ e w))], Returned (fst (h _ e w)), snd (h _ e w)).
Proof. unfold perform. simpl. by destruct (h X e w). Qed.

Lemma run_createProject_existing (projectName : jsstring) (w : W) :
  targetExists h projectName w = true ->
  exists cwd projectPath w',
    run h (createProject projectName) w
    = ([Call ProcessCwd cwd;
        Call (PathResolve [cwd; projectName]) projectPath;
        Call (ExistsSync projectPath) true;
        said (c_error (js "Directory '" ++ projectName
                       ++ js "' already exists."))],
       Exited 1, w').
Proof.
  unfold targetExists, createProject. prog_unfold.
  rewrite run_bind, run_perform.
  destruct (h _ ProcessCwd w) as [cwd w1]. cbn [fst snd].
  rewrite run_bind, run_perform.
  destruct (h _ (PathResolve [cwd; projectName]) w1) as [path w2].
  cbn [fst snd].
  rewrite run_bind, run_perform.
  destruct (h _ (ExistsSync path) w2) as [present w3]. cbn [fst snd].
  intros ->. rewrite run_bind, run_bind, run_log. cbn [run app].
  by eexists _, _, _.
Qed.
End CreateProjectFacts.

(** C8.  When the target directory exists, [createProject] prints one
    line, the error that contains [already exists], and ends the process
    with status 1: no command is run, no file written, the working
    directory is not changed. *)
Theorem createProject_existing_directory {W} (h : handler W) (w : W)
    (projectName : jsstring) :
  targetExists h projectName w = true ->
  let r := run h (createProject projectName) w in
  outcomeOf r = Exited 1
  /\ logs (traceOf r)
     = [c_error (js "Directory '" ++ projectName ++ js "' already exists.")]
  /\ (exists before after,
        c_error (js "Directory '" ++ projectName ++ js "' already exists.")
        = before ++ js "already exists" ++ after)
  /\ shells (traceOf r) = []
  /\ writes (traceOf r) = []
  /\ chdirs (traceOf r) = []
  /\ length (traceOf r) = 4%nat.
Proof.
  intros Hexists. cbv zeta.
  destruct (run_createProject_existing h projectName w Hexists)
    as (cwd & path & w' & ->).
  unfold traceOf, outcomeOf. cbn [fst snd].
  repeat split; try done.
  exists (colors_red ++ BALLOT_X :: colors_reset ++ js " "
          ++ js "Directory '" ++ projectName ++ js "' "), (js ".").
  unfold c_error. rewrite <- !app_assoc. cbn [app].
  repeat (rewrite <- !app_assoc || f_equal).
Qed.

Lemma createProject_existing_directory_witness :
  targetExists Simulated.handle (js "myapp")
    (Simulated.withExisting [js "/work/myapp"]) = true
  /\ outcomeOf (run Simulated.handle (createProject (js "myapp"))
                  (Simulated.withExisting [js "/work/myapp"])) = Exited 1
  /\ shells (traceOf (run Simulated.handle (createProject (js "myapp"))
                        (Simulated.withExisting [js "/work/myapp"]))) = [].
Proof.
  pose proof (createProject_existing_directory Simulated.handle
                (Simulated.withExisting [js "/work/myapp"]) (js "myapp")
                ltac:(by vm_compute)) as (Hout & _ & _ & Hsh & _).
  split; [by vm_compute|]. by split.
Defined.

(** ** The project name *)

Section RegexFacts.
Implicit Types (r : regex) (s : jsstring) (c : N).

Lemma nullable_matches r : nullable r = true <-> matches r [].
Proof.
  split.
  - induction r; simpl; try done.
    + intros _. constructor.
    + intros [H1 H2]%andb_true_iff.
      change (@nil N) with (@nil N ++ []). constructor; auto.
    + intros [H|H]%orb_true_iff; [apply MAltL|apply MAltR]; auto.
    + intros _. constructor.
  - intros H. remember [] as s eqn:Hs.
    induction H as [|ranges c Hc|r1 r2 s1 s2 H1 IH1 H2 IH2|r1 r2 s H IH
                   |r1 r2 s H IH|r|r s1 s2 H1 IH1 H2 IH2]; simpl; try done.
    + apply app_eq_nil in Hs as [-> ->].
      by rewrite IH1, IH2.
    + by rewrite IH.
    + rewrite IH by done. apply orb_true_r.
Qed.

(** A non-empty match of an iteration starts with a non-empty match of
    its body. *)
Lemma matches_star_cons r c s :
  matches (RStar r) (c :: s) ->
  exists s1 s2, s = s1 ++ s2 /\ matches r (c :: s1) /\ matches (RStar r) s2.
Proof.
  intros H. remember (RStar r) as r' eqn:Hr. remember (c :: s) as s' eqn:Hs.
  revert s Hs.
  induction H as [| | | | | |r0 s1 s2 H1 _ H2 IH2]; try done.
  injection Hr as ->. intros s Hs.
  destruct s1 as [|d s1].
  - simpl in Hs. by apply IH2.
  - injection Hs as -> <-. by exists s1, s2.
Qed.

Lemma matches_none_inv s : ~ matches RNone s.
Proof. inversion 1. Qed.

Lemma matches_empty_inv s : matches REmpty s -> s = [].
Proof. by inversion 1. Qed.

Lemma matches_class_inv ranges s :
  matches (RClass ranges) s -> exists c, s = [c] /\ inClass ranges c = true.
Proof. inversion 1; subst; eauto. Qed.

Lemma matches_seq_inv r1 r2 s :
  matches (RSeq r1 r2) s ->
  exists s1 s2, s = s1 ++ s2 /\ matches r1 s1 /\ matches r2 s2.
Proof. inversion 1; subst; eauto. Qed.

Lemma matches_alt_inv r1 r2 s :
  matches (RAlt r1 r2) s -> matches r1 s \/ matches r2 s.
Proof. inversion 1; subst; eauto. Qed.

Lemma derive_matches c r s : matches (derive c r) s <-> matches r (c :: s).
Proof.
  revert s. induction r as [| |ranges|r1 IH1 r2 IH2|r1 IH1 r2 IH2|r IH];
    intros s; simpl.
  - split; intros H; by apply matches_none_inv in H.
  - split; intros H; [by apply matches_none_inv in H|].
    by apply matches_empty_inv in H.
  - destruct (inClass ranges c) eqn:Hc; split; intros H.
    + apply matches_empty_inv in H as ->. by constructor.
    + apply matches_class_inv in H as (d & [= -> ->] & _). constructor.
    + by apply matches_none_inv in H.
    + apply matches_class_inv in H as (d & [= -> ->] & Hd). congruence.
  - assert (matches (RSeq (derive c r1) r2) s ->
            matches (RSeq r1 r2) (c :: s)) as Hhead.
    { intros (s1 & s2 & -> & Ha & Hb)%matches_seq_inv.
      apply IH1 in Ha. by apply (MSeq _ _ (c :: s1) s2). }
    destruct (nullable r1) eqn:Hn; split.
    + intros [H|H]%matches_alt_inv; [by apply Hhead|].
      apply IH2 in H. apply nullable_matches in Hn.
      by apply (MSeq _ _ [] (c :: s)).
    + intros (s1 & s2 & Hs & Ha & Hb)%matches_seq_inv.
      destruct s1 as [|d s1]; simpl in Hs.
      * subst s2. apply MAltR. by apply IH2.
      * injection Hs as -> ->. apply MAltL. constructor; [|done].
        by apply IH1.
    + done.
    + intros (s1 & s2 & Hs & Ha & Hb)%matches_seq_inv.
      destruct s1 as [|d s1]; simpl in Hs.
      * apply nullable_matches in Ha. congruence.
      * injection Hs as -> ->. constructor; [|done]. by apply IH1.
  - split; (intros [H|H]%matches_alt_inv;
            [apply MAltL; by apply IH1|apply MAltR; by apply IH2]).
  - split.
    + intros (s1 & s2 & -> & Ha & Hb)%matches_seq_inv.
      apply IH in Ha. by apply (MStarApp _ (c :: s1) s2).
    + intros (s1 & s2 & -> & Ha & Hb)%matches_star_cons.
      constructor; [|done]. by apply IH.
Qed.

Lemma test_matches r s : test r s = true <-> matches r s.
Proof.
  unfold test. revert r. induction s as [|c s IH]; intros r; simpl.
  - apply nullable_matches.
  - rewrite IH. apply derive_matches.
Qed.

Lemma matches_star_class ranges s :
  matches (RStar (RClass ranges)) s <-> forallb (inClass ranges) s = true.
Proof.
  split.
  - intros H. remember (RStar (RClass ranges)) as r eqn:Hr.
    induction H as [| | | | | |r0 s1 s2 H1 _ H2 IH2]; try done.
    injection Hr as ->.
    apply matches_class_inv in H1 as (c & -> & Hc). simpl.
    rewrite IH2 by done. by rewrite Hc.
  - induction s as [|c s IH]; simpl.
    + intros _. constructor.
    + intros [Hc Hs]%andb_true_iff.
      apply (MStarApp _ [c] s); [by constructor|auto].
Qed.

(** The names [/^[a-zA-Z][a-zA-Z0-9_-]*$/] accepts: a letter, then
    letters, digits, [_] and [-]. *)
Lemma projectNameRegex_matches s :
  matches projectNameRegex s <->
  exists c rest, s = c :: rest /\ inClass letterClass c = true /\
                 forallb (inClass nameClass) rest = true.
Proof.
  unfold projectNameRegex. split.
  - intros (s1 & s2 & -> & Ha & Hb)%matches_seq_inv.
    apply matches_class_inv in Ha as (c & -> & Hc).
    apply matches_star_class in Hb. by exists c, s2.
  - intros (c & rest & -> & Hc & Hrest).
    apply (MSeq _ _ [c] rest); [by constructor|].
    by apply matches_star_class.
Qed.
End RegexFacts.

Example projectName_samples :
  test projectNameRegex (js "myapp") = true
  /\ test projectNameRegex (js "My_app-2") = true
  /\ test projectNameRegex [] = false
  /\ test projectNameRegex (js "9lives") = false
  /\ test projectNameRegex (js "-app") = false
  /\ test projectNameRegex (js "_app") = false
  /\ test projectNameRegex (js "my app") = false
  /\ test projectNameRegex (js "my/app") = false
  /\ test projectNameRegex (js "myapp" ++ [LF]) = false.
Proof. by vm_compute. Qed.

(** The validation in [main], for arguments without a help flag. *)
Lemma mainWith_validates {W} (h : handler W) (w : W) (args : list jsstring) :
  showHelpOf args = false ->
  let r := run h (mainWith args) w in
  (forall name,
     projectNameOf args = Some name -> matches projectNameRegex name ->
     r = run h (bootstrap (skipChecksOf args) name) w
     /\ exists rest,
          logs (traceOf r)
          = c_header (js "Bootstrap: Convex + TanStack Start + Vercel")
            :: (js "  Project: " ++ name ++ [LF]) :: rest)
  /\ (forall name,
        projectNameOf args = Some name -> ~ matches projectNameRegex name ->
        outcomeOf r = Exited 1
        /\ traceOf r
           = [said (if truthy name then invalidNameMessage else helpText)])
  /\ (projectNameOf args = None ->
      outcomeOf r = Exited 1 /\ traceOf r = [said helpText]).
Proof.
  intros Hhelp. cbv zeta. unfold mainWith. rewrite Hhelp. cbn [orb].
  split; [|split].
  - intros name -> Hmatch. cbn [default from_option id].
    assert (truthy name = true) as ->.
    { apply projectNameRegex_matches in Hmatch as (c & rest & -> & _).
      done. }
    apply test_matches in Hmatch. rewrite Hmatch. cbn [negb].
    split; [done|].
    unfold bootstrap. prog_unfold. rewrite run_bind, run_log, run_bind, run_log.
    destruct (run h _ _) as [[t o] w']. unfold traceOf. cbn.
    by eexists.
  - intros name -> Hmatch. cbn [default from_option id].
    destruct (truthy name) eqn:Hname; cbn [negb].
    + destruct (test projectNameRegex name) eqn:Htest.
      { by apply test_matches in Htest. }
      cbn [negb]. prog_unfold. by rewrite run_bind, run_log.
    + prog_unfold. by rewrite run_bind, run_log.
  - intros ->. cbn [default from_option id truthy negb]. prog_unfold.
    by rewrite run_bind, run_log.
Qed.

(** An argument that starts with [-] is an option, never the name. *)
Lemma projectNameOf_single name :
  projectNameOf [name]
  = if startsWith (js "-") name then None else Some name.
Proof.
  unfold projectNameOf. cbn [find]. by destruct (startsWith (js "-") name).
Qed.

Lemma help_single name :
  showHelpOf [name] = true -> projectNameOf [name] = None.
Proof.
  unfold showHelpOf, includes. rewrite projectNameOf_single.
  intros [H|H]%orb_true_iff; apply bool_decide_eq_true in H;
    apply list_elem_of_singleton in H; by subst name.
Qed.

Lemma matches_single name :
  matches projectNameRegex name ->
  showHelpOf [name] = false /\ skipChecksOf [name] = false
  /\ projectNameOf [name] = Some name.
Proof.
  intros (c & rest & -> & Hc & _)%projectNameRegex_matches.
  assert (c <> 45%N) as Hdash by (by intros ->).
  unfold showHelpOf, skipChecksOf, includes.
  rewrite projectNameOf_single.
  split; [|split].
  - apply orb_false_iff;
      split; apply bool_decide_eq_false; intros H%list_elem_of_singleton;
      by injection H.
  - apply orb_false_iff;
      split; apply bool_decide_eq_false; intros H%list_elem_of_singleton;
      by injection H.
  - change (js "-") with [45%N]. cbn [startsWith].
    by destruct (N.eqb_spec 45 c) as [<-|].
Qed.

(** C7.  Given a project name as its argument, [main] goes on to the
    bootstrap exactly when the name matches
    [/^[a-zA-Z][a-zA-Z0-9_-]*$/]; for every other name it prints one
    message and ends the process with status 1, nothing else having been
    done.  The same holds among further arguments as long as none of them
    asks for help, the name being the first argument that does not start
    with [-]. *)
Theorem main_validates_name {W} (h : handler W) (w : W) :
  (forall name,
     let r := run h (mainWith [name]) w in
     (matches projectNameRegex name ->
      r = run h (bootstrap false name) w
      /\ exists rest,
           logs (traceOf r)
           = c_header (js "Bootstrap: Convex + TanStack Start + Vercel")
             :: (js "  Project: " ++ name ++ [LF]) :: rest)
     /\ (~ matches projectNameRegex name ->
         outcomeOf r = Exited 1
         /\ exists msg, traceOf r = [said msg]))
  /\ (forall args,
        showHelpOf args = false ->
        let r := run h (mainWith args) w in
        (forall name,
           projectNameOf args = Some name -> matches projectNameRegex name ->
           r = run h (bootstrap (skipChecksOf args) name) w)
        /\ (forall name,
              projectNameOf args = Some name ->
              ~ matches projectNameRegex name ->
              outcomeOf r = Exited 1
              /\ traceOf r
                 = [said (if truthy name then invalidNameMessage
                          else helpText)])
        /\ (projectNameOf args = None ->
            outcomeOf r = Exited 1 /\ traceOf r = [said helpText])).
Proof.
  split.
  - intros name. cbv zeta. split.
    + intros Hmatch.
      destruct (matches_single name Hmatch) as (Hhelp & Hskip & Hname).
      destruct (mainWith_validates h w [name] Hhelp) as (Haccept & _).
      destruct (Haccept name Hname Hmatch) as [Hrun Hlogs].
      rewrite Hskip in Hrun. by split.
    + intros Hmatch. destruct (showHelpOf [name]) eqn:Hhelp.
      * apply help_single in Hhelp as Hname.
        unfold mainWith. rewrite Hhelp, Hname.
        cbn [orb default from_option id truthy]. prog_unfold.
        rewrite run_bind, run_log. cbn [run app]. split; [done|].
        by eexists.
      * destruct (mainWith_validates h w [name] Hhelp) as (_ & Hreject & Hnone).
        destruct (projectNameOf [name]) as [name'|] eqn:Hname.
        -- rewrite projectNameOf_single in Hname.
           destruct (startsWith (js "-") name); [done|].
           injection Hname as <-.
           destruct (Hreject name eq_refl Hmatch) as [Hout Htrace].
           split; [done|]. by eexists.
        -- destruct (Hnone eq_refl) as [Hout Htrace].
           split; [done|]. by eexists.
  - intros args Hhelp. cbv zeta.
    destruct (mainWith_validates h w args Hhelp) as (Haccept & Hreject & Hnone).
    split; [|by split].
    intros name Hname Hmatch. by apply Haccept.
Qed.

Lemma main_validates_name_witness :
  showHelpOf [js "--skip-checks"; js "9lives"] = false
  /\ projectNameOf [js "--skip-checks"; js "9lives"] = Some (js "9lives")
  /\ outcomeOf (run Simulated.handle
                  (mainWith [js "--skip-checks"; js "9lives"]) Simulated.empty)
     = Exited 1
  /\ traceOf (run Simulated.handle
                (mainWith [js "--skip-checks"; js "9lives"]) Simulated.empty)
     = [said invalidNameMessage].
Proof.
  split; [by vm_compute|]. split; [by vm_compute|].
  destruct (proj2 (main_validates_name Simulated.handle Simulated.empty)
              [js "--skip-checks"; js "9lives"] ltac:(by vm_compute))
    as (_ & Hreject & _).
  apply (Hreject (js "9lives")); [by vm_compute|].
  intros Hmatch%test_matches. by vm_compute in Hmatch.
Defined.

(** An accepted name reaches the bootstrap and, the checks skipped, the
    test of the target directory. *)
Example main_accepts_myapp :
  let r := run Simulated.handle (mainWith [js "--skip-checks"; js "myapp"])
             (Simulated.withExisting [js "/work/myapp"]) in
  outcomeOf r = Exited 1
  /\ logs (traceOf r)
     = [c_header (js "Bootstrap: Convex + TanStack Start + Vercel");
        js "  Project: myapp" ++ [LF];
        c_error (js "Directory 'myapp' already exists.")]
  /\ shells (traceOf r) = [].
Proof. by vm_compute. Qed.

(** ** The manifest patch *)

Section ManifestFacts.
Implicit Types (k : jsstring) (v : json) (fs : list (jsstring * json)).

Lemma getProp_setProp k v fs : getProp k (setProp k v fs) = Some v.
Proof.
  induction fs as [|[k' v'] fs IH]; simpl.
  - by rewrite decide_True.
  - destruct (decide (k' = k)) as [->|Hne]; simpl.
    + by rewrite decide_True.
    + by rewrite decide_False.
Qed.

Lemma getProp_setProp_ne k k' v fs :
  k <> k' -> getProp k' (setProp k v fs) = getProp k' fs.
Proof.
  intros Hne. induction fs as [|[k0 v0] fs IH]; simpl.
  - by rewrite decide_False.
  - destruct (decide (k0 = k)) as [->|Hk]; simpl.
    + by rewrite !decide_False.
    + by rewrite IH.
Qed.

Lemma setProp_keys k v fs :
  is_Some (getProp k fs) -> map fst (setProp k v fs) = map fst fs.
Proof.
  induction fs as [|[k0 v0] fs IH]; simpl.
  - by intros [? ?].
  - destruct (decide (k0 = k)) as [->|Hk]; simpl; [done|].
    intros H. by rewrite IH.
Qed.

Lemma setProp_setProp k v v' fs :
  setProp k v (setProp k v' fs) = setProp k v fs.
Proof.
  induction fs as [|[k0 v0] fs IH]; simpl.
  - by rewrite decide_True.
  - destruct (decide (k0 = k)) as [->|Hk]; simpl.
    + by rewrite decide_True.
    + by rewrite decide_False, IH.
Qed.

(** On a manifest whose [scripts] is an object the three assignments
    succeed and touch that object only. *)
Lemma patchManifest_object fs scripts :
  getProp (js "scripts") fs = Some (JObject scripts) ->
  patchManifest (JObject fs)
  = Some (JObject
            (setProp (js "scripts")
               (JObject
                  (setProp (js "start") (JString START_SCRIPT)
                     (setProp (js "dev:convex") (JString DEV_CONVEX_SCRIPT)
                        (setProp (js "dev") (JString DEV_SCRIPT) scripts))))
               fs)).
Proof.
  intros Hscripts. unfold patchManifest, assignScript.
  rewrite Hscripts. cbn [mbind option_bind].
  rewrite getProp_setProp. cbn [mbind option_bind].
  rewrite getProp_setProp. by rewrite !setProp_setProp.
Qed.

Lemma serialize_object_top f fs :
  stringify2 (JObject (f :: fs))
  = js "{" ++ LF :: gap
    ++ joinWith (js "," ++ LF :: gap) (map topLevelEntry (f :: fs))
    ++ LF :: js "}".
Proof.
  unfold stringify2. cbn [serialize app].
  erewrite (map_ext _ topLevelEntry); [done|]. by intros [k x].
Qed.
End ManifestFacts.

Lemma getProp_elem k v (fields : list (jsstring * json)) :
  getProp k fields = Some v -> (k, v) ∈ fields.
Proof.
  induction fields as [|[k' v'] fields IH]; simpl; [done|].
  case_decide as Hk.
  - intros [= ->]. subst. left.
  - intros H. right. by apply IH.
Qed.

(** Numbers as [JSON.stringify] prints them: plain digits up to 21 of
    them, a decimal point, the exponent form beyond, [null] for an
    infinity. *)
Example numberToString_samples :
  numberToString (NumFinite false 1 22) = js "1e+21"
  /\ numberToString (NumFinite false 1 21) = js "100000000000000000000"
  /\ numberToString (NumFinite false 12345678901234568 21)
     = js "123456789012345680000"
  /\ numberToString (NumFinite false 15 1) = js "1.5"
  /\ numberToString (NumFinite false 42 2) = js "42"
  /\ numberToString (NumFinite true 1 (-5)) = js "-0.000001"
  /\ numberToString (NumFinite false 1 (-6)) = js "1e-7"
  /\ numberToString (NumFinite false 12345 (-6)) = js "1.2345e-7"
  /\ numberToString (NumFinite true 625 25) = js "-6.25e+24"
  /\ numberToString NumZero = js "0"
  /\ numberToString (NumInfinite false) = js "null".
Proof. by vm_compute. Qed.

(** A manifest with numbers, patched and written. *)
Example manifestText_numbers :
  option_map manifestText
    (patchManifest
       (JObject [(js "n", JNumber (NumFinite false 1 22));
                 (js "ratio", JNumber (NumFinite false 15 1));
                 (js "scripts", JObject [])]))
  = Some (textLines
      [js "{";
       js "  " ++ dq (js "n") ++ js ": 1e+21,";
       js "  " ++ dq (js "ratio") ++ js ": 1.5,";
       js "  " ++ dq (js "scripts") ++ js ": {";
       js "    " ++ dq (js "dev") ++ js ": " ++ dq DEV_SCRIPT ++ js ",";
       js "    " ++ dq (js "dev:convex") ++ js ": " ++ dq DEV_CONVEX_SCRIPT
         ++ js ",";
       js "    " ++ dq (js "start") ++ js ": " ++ dq START_SCRIPT;
       js "  }";
       js "}"]).
Proof. by vm_compute. Qed.

Example manifestText_minimal :
  option_map manifestText
    (patchManifest (JObject [(js "scripts", oldScripts)]))
  = Some (textLines
      [js "{";
       js "  " ++ dq (js "scripts") ++ js ": {";
       js "    " ++ dq (js "dev") ++ js ": " ++ dq DEV_SCRIPT ++ js ",";
       js "    " ++ dq (js "dev:convex") ++ js ": " ++ dq DEV_CONVEX_SCRIPT
         ++ js ",";
       js "    " ++ dq (js "start") ++ js ": " ++ dq START_SCRIPT;
       js "  }";
       js "}"]).
Proof. by vm_compute. Qed.

(** C2, as stated, fails: after the patch the scripts of the example are
    three, not four. *)
Lemma patchManifest_three_scripts :
  patchManifest (JObject [(js "scripts", oldScripts)])
  = Some (JObject [(js "scripts", JObject patchedScripts)])
  /\ length patchedScripts = 3%nat
  /\ ~ (forall fields fields' scripts,
          getProp (js "scripts") fields = Some oldScripts ->
          patchManifest (JObject fields) = Some (JObject fields') ->
          getProp (js "scripts") fields' = Some (JObject scripts) ->
          length scripts = 4%nat).
Proof.
  split; [by vm_compute|]. split; [done|].
  intros H.
  specialize (H [(js "scripts", oldScripts)]
                [(js "scripts", JObject patchedScripts)] patchedScripts).
  assert (length patchedScripts = 4%nat) as Hlen; [|done].
  apply H; by vm_compute.
Qed.

(** What the manifest step reads and writes. *)
Lemma run_updatePackageScripts {W} (h : handler W) (w : W) :
  let r := run h updatePackageScripts w in
  exists read,
    jsonReads (traceOf r) = [(js "package.json", read)]
    /\ match read ≫= patchManifest with
       | Some patched =>
           writes (traceOf r) = [(js "package.json", manifestText patched)]
       | None => writes (traceOf r) = [] /\ outcomeOf r = Thrown
       end.
Proof.
  cbv zeta. unfold updatePackageScripts. prog_unfold.
  rewrite run_bind, run_log, run_bind, run_log.
  unfold orThrow, orThrowB. rewrite !run_bind, run_perform.
  destruct (h _ (FileJson (js "package.json")) _) as [[pkg|] w1];
    cbn [fst snd run app]; [|by exists None].
  exists (Some pkg). cbn [mbind option_bind].
  destruct (patchManifest pkg) as [patched|]; cbn [bind run]; [|done].
  rewrite !run_bind, run_perform.
  destruct (h _ (BunWrite _ _) w1) as [[] w2]; cbn [fst snd run app];
    [by rewrite run_log|done].
Qed.

(** C2, amended.  For a manifest whose [scripts] is [{"dev": "old"}], the
    manifest step writes [package.json] once; in what it writes, [scripts]
    holds exactly the three keys [dev], [dev:convex] and [start] with their
    fixed values, every other top-level field is as it was and where it
    was, and the text is the serialisation with an indentation of two
    spaces, closed by [}] and one line feed: each top-level property on
    lines of its own, the [scripts] property among them as spelled out in
    [scriptsText]. *)
Theorem updatePackageScripts_patch {W} (h : handler W) (w : W)
    (fields : list (jsstring * json)) :
  getProp (js "scripts") fields = Some oldScripts ->
  (js "package.json", Some (JObject fields))
    ∈ jsonReads (traceOf (run h updatePackageScripts w)) ->
  exists fields',
    patchManifest (JObject fields) = Some (JObject fields')
    /\ writes (traceOf (run h updatePackageScripts w))
       = [(js "package.json", manifestText (JObject fields'))]
    /\ getProp (js "scripts") fields' = Some (JObject patchedScripts)
    /\ (forall k, k <> js "scripts" -> getProp k fields' = getProp k fields)
    /\ map fst fields' = map fst fields
    /\ manifestText (JObject fields')
       = js "{" ++ LF :: gap
         ++ joinWith (js "," ++ LF :: gap) (map topLevelEntry fields')
         ++ LF :: js "}" ++ [LF]
    /\ scriptsText ∈ map topLevelEntry fields'.
Proof.
  intros Hscripts Hread.
  pose proof (patchManifest_object fields _ Hscripts) as Hpatch.
  change (setProp (js "start") _ _) with patchedScripts in Hpatch.
  exists (setProp (js "scripts") (JObject patchedScripts) fields).
  split; [done|]. split; [|split; [|split; [|split; [|split]]]].
  - destruct (run_updatePackageScripts h w) as (r & Hreads & Hwrites).
    rewrite Hreads in Hread. apply list_elem_of_singleton in Hread.
    injection Hread as <-. cbn [mbind option_bind] in Hwrites.
    by rewrite Hpatch in Hwrites.
  - apply getProp_setProp.
  - intros k Hk. by apply getProp_setProp_ne.
  - apply setProp_keys. by rewrite Hscripts.
  - unfold manifestText.
    destruct (setProp (js "scripts") (JObject patchedScripts) fields)
      as [|f fs] eqn:Hfs.
    + by destruct fields as [|[k v] fields]; simpl in Hfs;
        [|destruct (decide (k = js "scripts"))].
    + rewrite serialize_object_top.
      by repeat (rewrite <- app_assoc || rewrite <- app_comm_cons).
  - change scriptsText
      with (topLevelEntry (js "scripts", JObject patchedScripts)).
    apply list_elem_of_fmap_2, getProp_elem, getProp_setProp.
Qed.

Lemma updatePackageScripts_patch_witness :
  let pkg := [(js "name", JString (js "myapp")); (js "scripts", oldScripts);
              (js "private", JBool true)] in
  let w := Simulated.withManifest (js "package.json") (JObject pkg) in
  getProp (js "scripts") pkg = Some oldScripts
  /\ writes (traceOf (run Simulated.handle updatePackageScripts w))
     = [(js "package.json",
         manifestText
           (JObject [(js "name", JString (js "myapp"));
                     (js "scripts", JObject patchedScripts);
                     (js "private", JBool true)]))].
Proof.
  cbv zeta. split; [by vm_compute|].
  destruct (updatePackageScripts_patch Simulated.handle
              (Simulated.withManifest (js "package.json")
                 (JObject [(js "name", JString (js "myapp"));
                           (js "scripts", oldScripts);
                           (js "private", JBool true)]))
              [(js "name", JString (js "myapp")); (js "scripts", oldScripts);
               (js "private", JBool true)]
              ltac:(by vm_compute)
              ltac:(vm_compute; apply list_elem_of_singleton; reflexivity))
    as (fields' & Hpatch & Hwrites & _).
  rewrite Hwrites. vm_compute in Hpatch. injection Hpatch as <-.
  by vm_compute.
Defined.

(** ** The prerequisite checks *)

Section ReturnFacts.
Context {W : Type} (h : handler W).

Lemma exitFree_bind {A B} (p : Prog A) (f : A -> Prog B) :
  exitFree p -> (forall a, exitFree (f a)) -> exitFree (bind p f).
Proof. induction p; simpl; auto. Qed.

Lemma exitFree_tryCatch {A} (p q : Prog A) :
  exitFree p -> exitFree q -> exitFree (tryCatch p q).
Proof. induction p; simpl; auto. Qed.

(** A [try] whose body never ends the process and whose [catch]
    returns, returns. *)
Lemma returns_tryCatch {A} (p q : Prog A) :
  exitFree p -> returns q -> returns (tryCatch p q).
Proof. induction p; simpl; auto; done. Qed.

Lemma run_returns {A} (p : Prog A) (w : W) :
  returns p -> exists a, outcomeOf (run h p w) = Returned a.
Proof.
  revert w. induction p as [a| |c|X e k IH]; simpl; intros w Hp;
    try done.
  - by exists a.
  - destruct (h X e w) as [x w1].
    destruct (IH x w1 (Hp x)) as [a Ha]. exists a.
    by destruct (run h (k x) w1) as [[t o] w2].
Qed.
End ReturnFacts.

Lemma exitFree_sh mode cmd : exitFree (sh mode cmd).
Proof. unfold sh, orThrow, perform. simpl. by intros [out|]. Qed.

Lemma exitFree_perform {X} (e : Eff X) : exitFree (perform e).
Proof. by unfold perform. Qed.

Lemma checkBun_returns : returns checkBun.
Proof.
  unfold checkBun. prog_unfold.
  apply returns_tryCatch; [|done].
  apply exitFree_bind; [apply exitFree_sh|done].
Qed.

Lemma checkGitHub_returns : returns checkGitHub.
Proof.
  unfold checkGitHub. prog_unfold.
  apply returns_tryCatch; [|done].
  apply exitFree_bind; [apply exitFree_sh|]. intros _.
  apply exitFree_bind; [apply exitFree_sh|done].
Qed.

Lemma exitFree_homeDirectory : exitFree homeDirectory.
Proof.
  unfold homeDirectory. prog_unfold.
  apply exitFree_bind; [apply exitFree_perform|]. intros home.
  destruct (truthy (default [] home)); [done|].
  apply exitFree_bind; [apply exitFree_perform|]. intros profile.
  by destruct (truthy (default [] profile)).
Qed.

Lemma checkConvex_returns : returns checkConvex.
Proof.
  unfold checkConvex. prog_unfold.
  apply returns_tryCatch; [|done].
  apply exitFree_bind; [apply exitFree_homeDirectory|]. intros homeDir.
  apply exitFree_bind; [apply exitFree_perform|]. intros configPath.
  apply exitFree_bind; [apply exitFree_perform|]. intros [|]; [|done].
  cbn [negb]. unfold orThrow.
  apply exitFree_bind.
  { apply exitFree_bind; [apply exitFree_perform|]. by intros [config|]. }
  intros config.
  apply exitFree_bind; [by destruct config|]. intros token.
  by destruct (jsonTruthy token).
Qed.

Lemma checkVercel_returns : returns checkVercel.
Proof.
  unfold checkVercel, commandExists. prog_unfold.
  apply returns_tryCatch; [|done].
  apply exitFree_bind.
  { apply exitFree_tryCatch; [|done].
    apply exitFree_bind; [apply exitFree_sh|done]. }
  intros [|]; (apply exitFree_bind; [apply exitFree_sh|done]).
Qed.

Section CheckFacts.
Context {W : Type} (h : handler W).

Lemma run_reportCheck (texts : checkTexts) (check : Prog checkResult)
    (allGood : bool) (w : W) :
  returns check ->
  exists wc r w',
    outcomeOf (run h check wc) = Returned r
    /\ run h (reportCheck texts check allGood) w
       = (reported texts (traceOf (run h check wc)) r,
          Returned (if ok r then allGood else false), w').
Proof.
  intros Hcheck. unfold reportCheck. prog_unfold.
  rewrite run_bind, run_log, run_bind.
  set (wc := snd (h _ (ConsoleLog _) w)).
  destruct (run_returns h check wc Hcheck) as [r Hr].
  exists wc, r. unfold reported.
  destruct (run h check wc) as [[t o] w1].
  unfold outcomeOf, traceOf in *. cbn [fst snd] in *. subst o.
  destruct (ok r).
  - rewrite run_bind, run_log. cbn [run app]. by eexists.
  - rewrite run_bind, run_log, run_bind, run_log. cbn [run app].
    by eexists.
Qed.
End CheckFacts.

(** Each check begins with its probe, whatever the surroundings. *)
Lemma checks_probe {W} (h : handler W) (w : W) :
  (exists x t, traceOf (run h checkBun w)
               = Call (Shell Text [[js "bun"; js "--version"]]) x :: t)
  /\ (exists x t, traceOf (run h checkGitHub w)
                  = Call (Shell Quiet [[js "gh"; js "auth"; js "status"]]) x
                    :: t)
  /\ (exists x t, traceOf (run h checkConvex w)
                  = Call (ProcessEnv (js "HOME")) x :: t)
  /\ (exists x t, traceOf (run h checkVercel w)
                  = Call (Shell Quiet [[js "which"; js "vercel"]]) x :: t).
Proof.
  repeat split.
  - unfold checkBun, sh, orThrow, perform. prog_unfold. cbn [bind tryCatch run].
    destruct (h _ _ w) as [x w1]. destruct (run h _ w1) as [[t o] w2].
    by eexists _, _.
  - unfold checkGitHub, sh, orThrow, perform. prog_unfold.
    cbn [bind tryCatch run].
    destruct (h _ _ w) as [x w1]. destruct (run h _ w1) as [[t o] w2].
    by eexists _, _.
  - unfold checkConvex, homeDirectory, perform. prog_unfold.
    cbn [bind tryCatch run].
    destruct (h _ _ w) as [x w1]. destruct (run h _ w1) as [[t o] w2].
    by eexists _, _.
  - unfold checkVercel, commandExists, sh, orThrow, perform. prog_unfold.
    cbn [bind tryCatch run].
    destruct (h _ _ w) as [x w1]. destruct (run h _ w1) as [[t o] w2].
    by eexists _, _.
Qed.

(** C6.  [checkAllPrerequisites] runs the four checks, in order and each
    of them whatever the earlier ones gave, and returns [true] exactly
    when all four report [ok].  Its trace is the heading, then for each
    check the line that announces it, the calls of the check and its
    verdict, then the closing lines; none of the checks throws. *)
Theorem checkAllPrerequisites_runs_all {W} (h : handler W) (w : W) :
  exists (wb wg wc wv : W) (b g c v : checkResult),
    outcomeOf (run h checkBun wb) = Returned b
    /\ outcomeOf (run h checkGitHub wg) = Returned g
    /\ outcomeOf (run h checkConvex wc) = Returned c
    /\ outcomeOf (run h checkVercel wv) = Returned v
    /\ outcomeOf (run h checkAllPrerequisites w)
       = Returned (ok b && ok g && ok c && ok v)
    /\ traceOf (run h checkAllPrerequisites w)
       = said (c_header (js "Checking Prerequisites"))
         :: reported bunTexts (traceOf (run h checkBun wb)) b
         ++ reported githubTexts (traceOf (run h checkGitHub wg)) g
         ++ reported convexTexts (traceOf (run h checkConvex wc)) c
         ++ reported vercelTexts (traceOf (run h checkVercel wv)) v
         ++ [said [];
             said (if ok b && ok g && ok c && ok v
                   then prerequisitesSatisfied else prerequisitesMissing)]
    /\ (exists x t, traceOf (run h checkBun wb)
                    = Call (Shell Text [[js "bun"; js "--version"]]) x :: t)
    /\ (exists x t, traceOf (run h checkGitHub wg)
                    = Call (Shell Quiet [[js "gh"; js "auth"; js "status"]]) x
                      :: t)
    /\ (exists x t, traceOf (run h checkConvex wc)
                    = Call (ProcessEnv (js "HOME")) x :: t)
    /\ (exists x t, traceOf (run h checkVercel wv)
                    = Call (Shell Quiet [[js "which"; js "vercel"]]) x :: t).
Proof.
  unfold checkAllPrerequisites. prog_unfold.
  rewrite run_bind, run_log.
  set (w0 := snd (h _ (ConsoleLog _) w)).
  rewrite run_bind.
  destruct (run_reportCheck h bunTexts checkBun true w0 checkBun_returns)
    as (wb & b & w1 & Hb & ->).
  rewrite run_bind.
  destruct (run_reportCheck h githubTexts checkGitHub
              (if ok b then true else false) w1 checkGitHub_returns)
    as (wg & g & w2 & Hg & ->).
  rewrite run_bind.
  destruct (run_reportCheck h convexTexts checkConvex
              (if ok g then if ok b then true else false else false) w2
              checkConvex_returns)
    as (wc & c & w3 & Hc & ->).
  rewrite run_bind.
  destruct (run_reportCheck h vercelTexts checkVercel
              (if ok c
               then if ok g then if ok b then true else false else false
               else false) w3 checkVercel_returns)
    as (wv & v & w4 & Hv & ->).
  exists wb, wg, wc, wv, b, g, c, v.
  do 4 (split; [done|]).
  rewrite run_bind, run_log, run_bind.
  match goal with
  | |- ?verdict /\ ?trace /\ _ => assert (verdict /\ trace) as [Hout Htrace]
  end.
  { unfold outcomeOf, traceOf.
    destruct (ok b), (ok g), (ok c), (ok v); cbn [negb andb];
      rewrite run_log; cbn [run fst snd app];
      (split; [done|]); f_equal; rewrite <- !app_assoc;
      repeat f_equal. }
  split; [exact Hout|]. split; [exact Htrace|].
  split; [apply (checks_probe h wb)|].
  split; [apply (checks_probe h wg)|].
  split; [apply (checks_probe h wc)|apply (checks_probe h wv)].
Qed.

(** With every tool answering, the verdict is [true]; with [gh auth
    status] failing it is [false], and the later checks are still
    announced. *)
Example checkAllPrerequisites_samples :
  let ready :=
    Simulated.mkState ∅
      {[js "/home/u/.convex/config.json"
        := JObject [(js "accessToken", JString (js "token"))]]}
      [js "/home/u/.convex/config.json"] [] (js "1.2.3") [] []
      {[js "HOME" := js "/home/u"]} (js "/work") in
  let loggedOut :=
    Simulated.mkState ∅
      {[js "/home/u/.convex/config.json"
        := JObject [(js "accessToken", JString (js "token"))]]}
      [js "/home/u/.convex/config.json"] [[js "gh"; js "auth"; js "status"]]
      (js "1.2.3") [] [] {[js "HOME" := js "/home/u"]} (js "/work") in
  outcomeOf (run Simulated.handle checkAllPrerequisites ready) = Returned true
  /\ outcomeOf (run Simulated.handle checkAllPrerequisites loggedOut)
     = Returned false
  /\ logs (traceOf (run Simulated.handle checkAllPrerequisites loggedOut))
     = [c_header (js "Checking Prerequisites");
        c_info (js "Checking bun...");
        c_success (js "bun is installed (v1.2.3)");
        c_info (js "Checking GitHub CLI (gh)...");
        c_error (js "GitHub CLI not authenticated");
        hint githubTexts;
        c_info (js "Checking Convex CLI...");
        c_success (js "Convex CLI authenticated");
        c_info (js "Checking Vercel CLI...");
        c_success (js "Vercel CLI authenticated as: 1.2.3");
        [];
        prerequisitesMissing].
Proof. by vm_compute. Qed.

(** ** A whole run

    [createProject] in a simulated environment where every command
    succeeds, the backend leaves no [.env.local] and the operator pastes a
    deploy key: the commands in order, the three files written, and the pushes
    of the deploy key alone. *)
Example createProject_scenario :
  let w :=
    Simulated.mkState ∅
      {[js "package.json"
        := JObject [(js "name", JString (js "myapp"));
                    (js "scripts", oldScripts)]]}
      [] [] [] (js " secret ") [] ∅ (js "/work") in
  let r := run Simulated.handle (createProject (js "myapp")) w in
  outcomeOf r = Returned tt
  /\ map fst (shells (traceOf r))
     = [[[js "bunx"; js "create-convex@latest"; js "myapp"; js "-t";
          js "tanstack-start"]];
        [[js "bun"; js "add"; js "nitro@npm:nitro-nightly@latest"]];
        [[js "bun"; js "install"]];
        [[js "git"; js "init"]];
        [[js "git"; js "add"; js "."]];
        [[js "git"; js "commit"; js "-m";
          js "Initial commit: Convex + TanStack Start + Vercel"]];
        [repoCreateCommand (js "myapp")];
        [[js "bunx"; js "convex"; js "dev"; js "--once"]];
        [[js "bunx"; js "vercel"; js "link"; js "--yes"]];
        pushCommand CONVEX_DEPLOY_KEY (js "secret") (js "production");
        pushCommand CONVEX_DEPLOY_KEY (js "secret") (js "preview");
        pushCommand CONVEX_DEPLOY_KEY (js "secret") (js "development")]
  /\ writes (traceOf r)
     = [(js "vite.config.ts", VITE_CONFIG);
        (js "vercel.json", VERCEL_JSON);
        (js "package.json",
         manifestText
           (JObject [(js "name", JString (js "myapp"));
                     (js "scripts", JObject patchedScripts)]))]
  /\ chdirs (traceOf r) = [js "/work/myapp"].
Proof. by vm_compute. Qed.


(** * Further properties *)

(** ** The dotenv parser, line by line *)

Lemma indexOf_absent c s : c ∉ s -> indexOf c s = -1.
Proof.
  induction s as [|d s IH]; simpl; [done|].
  intros [Hne Hnot]%not_elem_of_cons.
  destruct (N.eqb_spec d c) as [->|_]; [done|].
  by rewrite IH.
Qed.

Lemma indexOf_present c s : c ∈ s -> indexOf c s <> -1.
Proof.
  induction s as [|d s IH]; simpl; [by intros ?%elem_of_nil|].
  intros Hin. destruct (N.eqb_spec d c) as [->|Hne]; [done|].
  apply elem_of_cons in Hin as [->|Hin]; [done|].
  pose proof (indexOf_range c s). specialize (IH Hin).
  destruct (Z.eqb_spec (indexOf c s) (-1)); lia.
Qed.

Lemma trimStart_keeps c s :
  isWhiteSpace c = false -> c ∈ s -> c ∈ trimStart s.
Proof.
  intros Hc. induction s as [|d s IH]; simpl; [done|].
  destruct (isWhiteSpace d) eqn:Hd; [|done].
  intros [->|Hin]%elem_of_cons; [congruence|auto].
Qed.

Lemma trimEnd_keeps c s :
  isWhiteSpace c = false -> c ∈ s -> c ∈ trimEnd s.
Proof.
  intros Hc. induction s as [|d s IH]; [done|].
  intros [->|Hin]%elem_of_cons.
  - rewrite trimEnd_cons_solid by done. left.
  - specialize (IH Hin). rewrite trimEnd_cons_kept.
    + by right.
    + intros Hnil. rewrite Hnil in IH. by apply elem_of_nil in IH.
Qed.

Lemma trim_surrounded ws1 s ws2 :
  forallb isWhiteSpace ws1 = true -> forallb isWhiteSpace ws2 = true ->
  trim (ws1 ++ s ++ ws2) = trim s.
Proof.
  intros H1 H2. unfold trim. rewrite trimStart_whitespace by done.
  by rewrite <- !trimStart_trimEnd, trimEnd_whitespace.
Qed.

Lemma startsWith_head q s : startsWith [q] s = true <-> head s = Some q.
Proof.
  split; [apply startsWith_single|].
  destruct s as [|c s]; [done|]. intros [= ->]. cbn [startsWith].
  by rewrite N.eqb_refl.
Qed.

(** X1.  Which lines [readEnvFile] skips: a line gives no assignment
    exactly when it is blank, or its first solid code unit is [#], or it
    holds no [=]. *)
Theorem parseLine_skipped_iff (line : jsstring) :
  parseLine line = None <->
  trim line = [] \/ head (trim line) = Some HASH \/ (EQUALS ∉ line).
Proof.
  unfold parseLine. change (js "#") with [HASH].
  destruct (trim line) as [|c t] eqn:Htrim; cbn [truthy andb].
  { split; [by left|done]. }
  destruct (startsWith [HASH] (c :: t)) eqn:Hhash; cbn [negb].
  { apply startsWith_head in Hhash. split; [by right; left|done]. }
  assert (head (c :: t) <> Some HASH) as Hnot.
  { intros H%startsWith_head. congruence. }
  destruct (Z.eqb_spec (indexOf EQUALS (c :: t)) (-1)) as [Hidx|Hidx];
    cbn [negb].
  - split; [|done]. intros _. right. right. intros Hin.
    apply (indexOf_present EQUALS (c :: t)); [|done].
    rewrite <- Htrim. by apply trimEnd_keeps, trimStart_keeps.
  - split; [done|]. intros [H|[H|H]]; [done..|].
    exfalso. apply Hidx, indexOf_absent. rewrite <- Htrim.
    intros Hin%trim_sublist. done.
Qed.

Lemma parseLine_trimmed_only line line' :
  trim line = trim line' -> parseLine line = parseLine line'.
Proof. unfold parseLine. by intros ->. Qed.

(** X2.  Whitespace around a line never matters to [readEnvFile]:
    indentation and a trailing carriage return leave the assignment as it
    is. *)
Theorem parseLine_ignores_surroundings (ws1 line ws2 : jsstring) :
  forallb isWhiteSpace ws1 = true ->
  forallb isWhiteSpace ws2 = true ->
  parseLine (ws1 ++ line ++ ws2) = parseLine line.
Proof.
  intros H1 H2. by apply parseLine_trimmed_only, trim_surrounded.
Qed.

Lemma parseLine_ignores_surroundings_witness :
  parseLine ([9; 32] ++ js "A=1" ++ [32; 13])%N = parseLine (js "A=1").
Proof.
  apply (parseLine_ignores_surroundings [9; 32]%N (js "A=1") [32; 13]%N);
    reflexivity.
Defined.

Lemma envStep_other env line key :
  bindingOf key line = None -> envStep env line !! key = env !! key.
Proof.
  unfold bindingOf, envStep, env_assign.
  destruct (parseLine line) as [[k v]|]; [|done].
  destruct (decide (k = key)) as [->|Hk]; [done|]. intros _.
  case_decide; [done|]. by rewrite lookup_insert_ne.
Qed.

Lemma envStep_bound env line key v :
  key <> js "__proto__" -> bindingOf key line = Some v ->
  envStep env line !! key = Some v.
Proof.
  unfold bindingOf, envStep, env_assign. intros Hproto.
  destruct (parseLine line) as [[k v']|]; [|done].
  destruct (decide (k = key)) as [->|Hk]; [|done]. intros [= ->].
  rewrite decide_False by done. by rewrite lookup_insert_eq.
Qed.

Lemma envStep_proto env line :
  envStep env line !! js "__proto__" = env !! js "__proto__".
Proof.
  unfold envStep, env_assign.
  destruct (parseLine line) as [[k v]|]; [|done].
  case_decide; [done|]. by rewrite lookup_insert_ne.
Qed.

Lemma envStep_fold_last lines env key :
  key <> js "__proto__" ->
  fold_left envStep lines env !! key
  = match last (omap (bindingOf key) lines) with
    | Some v => Some v
    | None => env !! key
    end.
Proof.
  intros Hproto. revert env.
  induction lines as [|line lines IH]; intros env; [done|].
  cbn [fold_left]. rewrite IH.
  change (omap (bindingOf key) (line :: lines))
    with (match bindingOf key line with
          | Some v => v :: omap (bindingOf key) lines
          | None => omap (bindingOf key) lines
          end).
  destruct (bindingOf key line) as [v|] eqn:Hline.
  - rewrite last_cons.
    destruct (last (omap (bindingOf key) lines)); [done|].
    by apply envStep_bound.
  - destruct (last (omap (bindingOf key) lines)); [done|].
    by apply envStep_other.
Qed.

(** X3.  What [readEnvFile] binds a name to: the value of the last line
    that assigns to it, and nothing when no line does; [__proto__] is
    never bound. *)
Theorem parseEnv_last_binding (content key : jsstring) :
  parseEnv content !! key
  = if decide (key = js "__proto__") then None
    else last (omap (bindingOf key) (split LF content)).
Proof.
  unfold parseEnv. case_decide as Hproto.
  - subst key. generalize (split LF content). intros lines.
    assert (forall env : gmap (list N) (list N),
              fold_left envStep lines env !! js "__proto__"
              = env !! js "__proto__") as Hfold.
    { induction lines as [|line lines IH]; intros env; [done|].
      cbn [fold_left]. by rewrite IH, envStep_proto. }
    by rewrite Hfold.
  - rewrite envStep_fold_last by done.
    by destruct (last (omap (bindingOf key) (split LF content))).
Qed.

Lemma split_nonempty sep s : split sep s <> [].
Proof.
  destruct s as [|c s]; simpl; [done|].
  destruct (c =? sep)%N; [done|]. by destruct (split sep s).
Qed.

Lemma split_toCRLF s :
  split LF (toCRLF s) = withCarriageReturns (split LF s).
Proof.
  induction s as [|c s IH]; [done|]. cbn [toCRLF split].
  pose proof (split_nonempty LF s) as Hne.
  destruct (N.eqb_spec c LF) as [->|Hc].
  - cbn [split]. change (CR =? LF)%N with false.
    rewrite N.eqb_refl. rewrite IH.
    destruct (split LF s) as [|l ls]; done.
  - cbn [split]. destruct (N.eqb_spec c LF) as [|_]; [done|].
    rewrite IH. destruct (split LF s) as [|l ls]; [done|].
    by destruct ls.
Qed.

Lemma envStep_carriage_return env l : envStep env (l ++ [CR]) = envStep env l.
Proof.
  unfold envStep.
  by rewrite (parseLine_trimmed_only (l ++ [CR]) l
                (trim_surrounded [] l [CR] eq_refl eq_refl)).
Qed.

(** X4.  A file with Windows line ends is read as the same file with
    plain line feeds. *)
Theorem parseEnv_crlf (content : jsstring) :
  parseEnv (toCRLF content) = parseEnv content.
Proof.
  unfold parseEnv. rewrite split_toCRLF.
  generalize (∅ : gmap (list N) (list N)).
  induction (split LF content) as [|l ls IH]; intros env; [done|].
  destruct ls as [|l' ls]; [done|].
  change (withCarriageReturns (l :: l' :: ls))
    with ((l ++ [CR]) :: withCarriageReturns (l' :: ls)).
  cbn [fold_left]. rewrite IH. by rewrite envStep_carriage_return.
Qed.

(** X5.  The quotes of a value: a value between two double quotes or
    between two single quotes loses exactly that pair; a value that is one
    quote alone becomes empty; any other value is kept as it is. *)
Theorem stripQuotes_cases :
  (forall q inner,
     q = DQUOTE \/ q = SQUOTE -> stripQuotes (q :: inner ++ [q]) = inner)
  /\ (forall q, q = DQUOTE \/ q = SQUOTE -> stripQuotes [q] = [])
  /\ (forall value,
        ~ (exists q, (q = DQUOTE \/ q = SQUOTE) /\
                     head value = Some q /\ last value = Some q) ->
        stripQuotes value = value).
Proof.
  split; [|split].
  - intros q inner Hq.
    assert (slice (q :: inner ++ [q]) 1 (-1) = inner) as Hslice.
    { unfold slice. cbn [length]. rewrite length_app. cbn [length].
      rewrite (clampIndex_inside _ 1) by lia.
      assert (clampIndex (Z.of_nat (S (length inner + 1))) (-1)
              = Z.of_nat (S (length inner))) as ->.
      { unfold clampIndex. destruct (Z.ltb_spec (-1) 0); lia. }
      replace (Z.to_nat 1) with 1%nat by done. cbn [drop].
      replace (Z.to_nat (Z.max (Z.of_nat (S (length inner)) - 1) 0))
        with (length inner) by lia.
      by rewrite drop_0, take_app_length. }
    unfold stripQuotes, endsWith.
    change (q :: inner ++ [q]) with ((q :: inner) ++ [q]).
    rewrite reverse_snoc. change ((q :: inner) ++ [q]) with (q :: inner ++ [q]).
    rewrite Hslice. cbn [startsWith reverse rev_append].
    destruct Hq as [-> | ->]; cbn; by rewrite ?orb_true_r.
  - by intros q [-> | ->].
  - intros value Hnone.
    destruct (decide (stripQuotes value = value)) as [|Hne]; [done|].
    by apply stripQuotes_changes in Hne.
Qed.

(** ** The manifest patch on any manifest *)

Lemma assignScript_hasScripts k v pkg :
  is_Some (assignScript k v pkg) <-> hasScripts pkg = true.
Proof.
  unfold assignScript, hasScripts.
  destruct pkg as [| | | | |fields]; try (split; [by intros [? ?]|done]).
  destruct (getProp (js "scripts") fields) as [[| | | | |]|];
    split; try done; by intros [? ?].
Qed.

Lemma assignScript_keeps k v pkg pkg' :
  assignScript k v pkg = Some pkg' -> hasScripts pkg' = true.
Proof.
  unfold assignScript, hasScripts.
  destruct pkg as [| | | | |fields]; try done.
  destruct (getProp (js "scripts") fields) as [[| | | |items|scripts]|] eqn:Hs;
    try done; intros [= <-].
  - by rewrite Hs.
  - by rewrite getProp_setProp.
Qed.

Lemma patchManifest_hasScripts pkg :
  is_Some (patchManifest pkg) <-> hasScripts pkg = true.
Proof.
  unfold patchManifest. split.
  - intros [p Hp].
    destruct (assignScript (js "dev") DEV_SCRIPT pkg) as [pkg1|] eqn:H1;
      [|done].
    apply assignScript_hasScripts with (js "dev") DEV_SCRIPT. by rewrite H1.
  - intros H.
    destruct (proj2 (assignScript_hasScripts (js "dev") DEV_SCRIPT pkg) H)
      as [pkg1 H1].
    rewrite H1. cbn [mbind option_bind].
    apply assignScript_keeps in H1 as H1'.
    destruct (proj2 (assignScript_hasScripts (js "dev:convex")
                       DEV_CONVEX_SCRIPT pkg1) H1') as [pkg2 H2].
    rewrite H2. cbn [mbind option_bind].
    apply assignScript_keeps in H2 as H2'.
    by apply assignScript_hasScripts.
Qed.

(** X6.  The manifest step needs a manifest that is an object with a
    [scripts] object: on any other manifest the assignment throws after the
    read and nothing is written; on such a manifest the file is written
    once.  A manifest that cannot be read throws the same way. *)
Theorem updatePackageScripts_needs_scripts {W} (h : handler W) (w : W) :
  let r := run h updatePackageScripts w in
  exists read,
    jsonReads (traceOf r) = [(js "package.json", read)]
    /\ match read with
       | Some pkg =>
           if hasScripts pkg then
             exists patched,
               patchManifest pkg = Some patched
               /\ writes (traceOf r)
                  = [(js "package.json", manifestText patched)]
           else writes (traceOf r) = [] /\ outcomeOf r = Thrown
       | None => writes (traceOf r) = [] /\ outcomeOf r = Thrown
       end.
Proof.
  cbv zeta.
  destruct (run_updatePackageScripts h w) as (read & Hreads & Hwrites).
  exists read. split; [done|].
  destruct read as [pkg|]; cbn [mbind option_bind] in Hwrites; [|done].
  destruct (hasScripts pkg) eqn:Hhas.
  - apply patchManifest_hasScripts in Hhas as [patched Hpatch].
    rewrite Hpatch in Hwrites. by exists patched.
  - destruct (patchManifest pkg) as [patched|] eqn:Hpatch; [|done].
    assert (hasScripts pkg = true) as Hyes; [|congruence].
    apply patchManifest_hasScripts. by rewrite Hpatch.
Qed.

Lemma patchManifest_array fields items :
  getProp (js "scripts") fields = Some (JArray items) ->
  patchManifest (JObject fields) = Some (JObject fields).
Proof.
  intros Hs. unfold patchManifest, assignScript.
  by repeat (rewrite Hs; cbn [mbind option_bind]).
Qed.

(** X7.  Patching twice is patching once: a patched manifest is a fixed
    point of the patch. *)
Theorem patchManifest_idempotent (pkg patched : json) :
  patchManifest pkg = Some patched -> patchManifest patched = Some patched.
Proof.
  destruct pkg as [| | | | |fields]; try done.
  destruct (getProp (js "scripts") fields) as [[| | | |items|scripts]|] eqn:Hs;
    try (unfold patchManifest, assignScript; by rewrite Hs).
  - rewrite (patchManifest_array fields items Hs). intros [= <-].
    by apply patchManifest_array with items.
  - rewrite (patchManifest_object fields scripts Hs). intros [= <-].
    rewrite (patchManifest_object _ _ (getProp_setProp _ _ _)).
    rewrite setProp_setProp. do 3 f_equal.
    set (s0 := setProp (js "dev") (JString DEV_SCRIPT) scripts).
    set (s1 := setProp (js "dev:convex") (JString DEV_CONVEX_SCRIPT) s0).
    set (s2 := setProp (js "start") (JString START_SCRIPT) s1).
    assert (forall k v fs, getProp k fs = Some v -> setProp k v fs = fs)
      as Hsame.
    { intros k v fs. induction fs as [|[k0 v0] fs IH]; simpl; [done|].
      destruct (decide (k0 = k)) as [->|Hk]; [by intros [= ->]|].
      intros H. by rewrite IH. }
    rewrite (Hsame (js "dev") (JString DEV_SCRIPT) s2).
    2:{ unfold s2, s1. rewrite !getProp_setProp_ne by done.
        apply getProp_setProp. }
    rewrite (Hsame (js "dev:convex") (JString DEV_CONVEX_SCRIPT) s2).
    2:{ unfold s2. rewrite getProp_setProp_ne by done.
        apply getProp_setProp. }
    rewrite (Hsame (js "start") (JString START_SCRIPT) s2); [done|].
    apply getProp_setProp.
Qed.

Lemma patchManifest_idempotent_witness :
  patchManifest (JObject [(js "scripts", oldScripts)])
  = Some (JObject [(js "scripts", JObject patchedScripts)])
  /\ patchManifest (JObject [(js "scripts", JObject patchedScripts)])
     = Some (JObject [(js "scripts", JObject patchedScripts)]).
Proof.
  assert (patchManifest (JObject [(js "scripts", oldScripts)])
          = Some (JObject [(js "scripts", JObject patchedScripts)])) as H
    by by vm_compute.
  split; [exact H|]. exact (patchManifest_idempotent _ _ H).
Defined.

Lemma getProp_keys k fs : is_Some (getProp k fs) <-> k ∈ map fst fs.
Proof.
  induction fs as [|[k0 v0] fs IH]; simpl.
  - split; [by intros [? ?]|by intros ?%elem_of_nil].
  - destruct (decide (k0 = k)) as [->|Hk].
    + split; [intros _; left|by eexists].
    + rewrite IH. split; [by right|].
      by intros [->|?]%elem_of_cons.
Qed.

Lemma setProp_keys_fresh k v fs :
  map fst (setProp k v fs)
  = map fst fs ++ (if decide (k ∈ map fst fs) then [] else [k]).
Proof.
  induction fs as [|[k0 v0] fs IH]; simpl.
  - done.
  - destruct (decide (k0 = k)) as [->|Hk]; simpl.
    + rewrite decide_True by left. by rewrite app_nil_r.
    + rewrite IH. f_equal. f_equal.
      destruct (decide (k ∈ map fst fs)) as [Hin|Hin].
      * rewrite decide_True; [done|by right].
      * rewrite decide_False; [done|].
        by intros [->|?]%elem_of_cons.
Qed.

Lemma filter_ext_in {A} (P Q : A -> Prop)
    `{!forall x, Decision (P x), !forall x, Decision (Q x)} (l : list A) :
  (forall x, x ∈ l -> P x <-> Q x) -> filter P l = filter Q l.
Proof.
  induction l as [|a l IH]; intros Hiff; [done|].
  rewrite !filter_cons.
  rewrite IH by (intros x Hx; apply Hiff; by right).
  destruct (decide (P a)) as [Hp|Hp].
  - rewrite decide_True; [done|]. apply Hiff; [left|done].
  - rewrite decide_False; [done|]. intros Hq. apply Hp, Hiff; [left|done].
Qed.

(** Appending, one after the other, the names that are not there yet. *)
Lemma append_fresh (K ks : list jsstring) :
  NoDup ks ->
  fold_left (fun acc k => acc ++ (if decide (k ∈ acc) then [] else [k])) ks K
  = K ++ filter (fun k => k ∉ K) ks.
Proof.
  revert K. induction ks as [|k ks IH]; intros K Hnodup.
  - by rewrite filter_nil, app_nil_r.
  - apply NoDup_cons in Hnodup as [Hk Hnodup]. cbn [fold_left].
    rewrite IH by done. rewrite <- app_assoc. f_equal.
    rewrite filter_cons.
    assert (filter (fun k0 => k0 ∉ K ++ (if decide (k ∈ K) then [] else [k]))
              ks
            = filter (fun k0 => k0 ∉ K) ks) as ->.
    { apply filter_ext_in. intros k0 Hk0.
      assert (k0 <> k) as Hne by (by intros ->).
      destruct (decide (k ∈ K)); rewrite ?app_nil_r; [done|].
      rewrite elem_of_app, list_elem_of_singleton. tauto. }
    destruct (decide (k ∈ K)) as [Hin|Hin].
    + rewrite decide_False; [done|]. by intros Hn.
    + by rewrite decide_True.
Qed.

(** X8.  The patch on any [scripts] object: [dev], [dev:convex] and
    [start] get their fixed values, every other script keeps its value,
    the scripts that were there keep their places and the new ones follow
    in the order of the assignments; outside [scripts] the manifest is
    unchanged. *)
Theorem patchManifest_keeps_other_scripts
    (fields scripts : list (jsstring * json)) :
  getProp (js "scripts") fields = Some (JObject scripts) ->
  exists fields' scripts',
    patchManifest (JObject fields) = Some (JObject fields')
    /\ getProp (js "scripts") fields' = Some (JObject scripts')
    /\ getProp (js "dev") scripts' = Some (JString DEV_SCRIPT)
    /\ getProp (js "dev:convex") scripts' = Some (JString DEV_CONVEX_SCRIPT)
    /\ getProp (js "start") scripts' = Some (JString START_SCRIPT)
    /\ (forall k, k ∉ scriptNames -> getProp k scripts' = getProp k scripts)
    /\ map fst scripts'
       = map fst scripts
         ++ filter (fun k => k ∉ map fst scripts) scriptNames
    /\ (forall k, k <> js "scripts" -> getProp k fields' = getProp k fields)
    /\ map fst fields' = map fst fields.
Proof.
  intros Hs. eexists _, _. split; [by apply patchManifest_object|].
  split; [apply getProp_setProp|].
  split; [by rewrite !getProp_setProp_ne, getProp_setProp by done|].
  split; [by rewrite getProp_setProp_ne, getProp_setProp by done|].
  split; [apply getProp_setProp|].
  split.
  { intros k Hk. unfold scriptNames in Hk.
    rewrite !getProp_setProp_ne; [done|..]; intros <-; apply Hk;
      set_solver. }
  split.
  { rewrite !setProp_keys_fresh. unfold scriptNames.
    set (K := map fst scripts).
    apply (append_fresh K [js "dev"; js "dev:convex"; js "start"]).
    repeat (apply NoDup_cons; split; [compute_done|]). apply NoDup_nil_2. }
  split; [intros k Hk; by apply getProp_setProp_ne|].
  apply setProp_keys. by rewrite Hs.
Qed.

Lemma patchManifest_keeps_other_scripts_witness :
  exists fields' scripts',
    patchManifest
      (JObject [(js "scripts",
                 JObject [(js "start", JString (js "old"));
                          (js "lint", JString (js "eslint"))])])
    = Some (JObject fields')
    /\ getProp (js "scripts") fields' = Some (JObject scripts')
    /\ getProp (js "lint") scripts' = Some (JString (js "eslint"))
    /\ map fst scripts' = [js "start"; js "lint"; js "dev"; js "dev:convex"].
Proof.
  destruct (patchManifest_keeps_other_scripts
              [(js "scripts",
                JObject [(js "start", JString (js "old"));
                         (js "lint", JString (js "eslint"))])]
              [(js "start", JString (js "old"));
               (js "lint", JString (js "eslint"))] eq_refl)
    as (fields' & scripts' & Hp & Hs & _ & _ & _ & Hother & Hkeys & _).
  exists fields', scripts'. split; [done|]. split; [done|].
  split.
  - rewrite Hother; [done|]. compute_done.
  - rewrite Hkeys. by vm_compute.
Defined.

(** ** The prerequisite checks, one by one *)

Section AlwaysFacts.
Context {W : Type} (h : handler W).

Lemma always_bind {A B} (P : forall X, Eff X -> Prop) (p : Prog A) (f : A -> Prog B) :
  always P p -> (forall a, always P (f a)) -> always P (bind p f).
Proof.
  induction p as [a| |c|X e k IH]; simpl; auto.
  intros [He Hk] Hf. split; [done|]. intros x. by apply IH.
Qed.

Lemma always_tryCatch {A} (P : forall X, Eff X -> Prop) (p q : Prog A) :
  always P p -> always P q -> always P (tryCatch p q).
Proof.
  induction p as [a| |c|X e k IH]; simpl; auto.
  intros [He Hk] Hq. split; [done|]. intros x. by apply IH.
Qed.

Lemma always_run {A} (P : forall X, Eff X -> Prop) (p : Prog A) (w : W) :
  always P p -> Forall (callSatisfies P) (traceOf (run h p w)).
Proof.
  revert w. induction p as [a| |c|X e k IH]; simpl; intros w Hp;
    try by constructor.
  destruct Hp as [He Hk]. destruct (h X e w) as [x w1].
  specialize (IH x w1 (Hk x)).
  destruct (run h (k x) w1) as [[t o] w2]. by constructor.
Qed.
End AlwaysFacts.

Lemma always_log (P : forall X, Eff X -> Prop) msg : P _ (ConsoleLog msg) -> always P (log msg).
Proof. by unfold log, perform. Qed.

Lemma always_perform {X} (P : forall X, Eff X -> Prop) (e : Eff X) : P _ e -> always P (perform e).
Proof. by unfold perform. Qed.

Lemma always_sh (P : forall X, Eff X -> Prop) mode cmd : P _ (Shell mode cmd) -> always P (sh mode cmd).
Proof.
  intros H. unfold sh, orThrow, perform. simpl. split; [done|].
  by intros [out|].
Qed.

Lemma probe_sh mode cmd :
  cmd ∈ probeCommands -> always probeEffect (sh mode cmd).
Proof. intros H. by apply always_sh. Qed.

Lemma checkBun_probes : always probeEffect checkBun.
Proof.
  unfold checkBun. prog_unfold. apply always_tryCatch; [|done].
  apply always_bind; [apply probe_sh; compute_done|done].
Qed.

Lemma checkGitHub_probes : always probeEffect checkGitHub.
Proof.
  unfold checkGitHub. prog_unfold. apply always_tryCatch; [|done].
  apply always_bind; [apply probe_sh; compute_done|]. intros _.
  apply always_bind; [apply probe_sh; compute_done|done].
Qed.

Lemma checkConvex_probes : always probeEffect checkConvex.
Proof.
  unfold checkConvex, homeDirectory. prog_unfold.
  apply always_tryCatch; [|done].
  apply always_bind.
  { apply always_bind; [by apply always_perform|]. intros home.
    destruct (truthy (default [] home)); [done|].
    apply always_bind; [by apply always_perform|]. intros profile.
    by destruct (truthy (default [] profile)). }
  intros homeDir.
  apply always_bind; [by apply always_perform|]. intros configPath.
  apply always_bind; [by apply always_perform|]. intros [|]; [|done].
  cbn [negb]. unfold orThrow.
  apply always_bind.
  { apply always_bind; [by apply always_perform|]. by intros [config|]. }
  intros config.
  apply always_bind; [by destruct config|]. intros token.
  by destruct (jsonTruthy token).
Qed.

Lemma checkVercel_probes : always probeEffect checkVercel.
Proof.
  unfold checkVercel, commandExists. prog_unfold.
  apply always_tryCatch; [|done].
  apply always_bind.
  { apply always_tryCatch; [|done].
    apply always_bind; [apply probe_sh; compute_done|done]. }
  intros [|]; (apply always_bind; [apply probe_sh; compute_done|done]).
Qed.

Lemma reportCheck_probes texts check allGood :
  always probeEffect check ->
  always probeEffect (reportCheck texts check allGood).
Proof.
  intros Hcheck. unfold reportCheck. prog_unfold.
  apply always_bind; [by apply always_log|]. intros _.
  apply always_bind; [done|]. intros r.
  destruct (ok r).
  - apply always_bind; [by apply always_log|done].
  - apply always_bind; [by apply always_log|]. intros _.
    apply always_bind; [by apply always_log|done].
Qed.

Lemma probes_change_nothing (t : list call) :
  Forall (callSatisfies probeEffect) t ->
  writes t = [] /\ chdirs t = []
  /\ Forall (fun c => fst c ∈ probeCommands) (shells t).
Proof.
  unfold writes, chdirs, shells.
  induction 1 as [|[X e x] t He _ IH]; [done|].
  destruct IH as (Hw & Hc & Hs).
  destruct e; cbn in He |- *; try done.
  split; [done|]. split; [done|]. by constructor.
Qed.

Lemma checkAllPrerequisites_probes : always probeEffect checkAllPrerequisites.
Proof.
  unfold checkAllPrerequisites. prog_unfold.
  apply always_bind; [by apply always_log|]. intros _.
  apply always_bind; [apply reportCheck_probes, checkBun_probes|]. intros b1.
  apply always_bind; [apply reportCheck_probes, checkGitHub_probes|].
  intros b2.
  apply always_bind; [apply reportCheck_probes, checkConvex_probes|].
  intros b3.
  apply always_bind; [apply reportCheck_probes, checkVercel_probes|].
  intros b4.
  apply always_bind; [by apply always_log|]. intros _.
  apply always_bind; [|done].
  destruct (negb b4); by apply always_log.
Qed.

(** X9.  The prerequisite checks only look: in every run of
    [checkAllPrerequisites] each effect is console output, one of the six
    probe commands, a read of the environment, a path computation, a test
    for a file or the reading of a JSON file.  No file is written, the
    working directory is not changed, nothing is asked of the operator. *)
Theorem checkAllPrerequisites_only_probes {W} (h : handler W) (w : W) :
  let t := traceOf (run h checkAllPrerequisites w) in
  Forall (callSatisfies probeEffect) t
  /\ writes t = [] /\ chdirs t = []
  /\ Forall (fun c => fst c ∈ probeCommands) (shells t).
Proof.
  cbv zeta.
  pose proof checkAllPrerequisites_probes as Hall.
  pose proof (always_run h probeEffect _ w Hall) as Htrace.
  split; [done|]. by apply probes_change_nothing.
Qed.

(** X10.  [checkGitHub] asks for the login only after [gh auth status]
    succeeded, and reports [ok] exactly when both commands succeed, with
    the trimmed login as the user; it never throws. *)
Theorem checkGitHub_cases {W} (h : handler W) (w : W) :
  let r := run h checkGitHub w in
  let status := Shell Quiet [[js "gh"; js "auth"; js "status"]] in
  let login :=
    Shell Text [[js "gh"; js "api"; js "user"; js "--jq"; js ".login"]] in
  (traceOf r = [Call status None]
   /\ outcomeOf r = Returned (mkCheck false None))
  \/ (exists out,
        traceOf r = [Call status (Some out); Call login None]
        /\ outcomeOf r = Returned (mkCheck false None))
  \/ (exists out user,
        traceOf r = [Call status (Some out); Call login (Some user)]
        /\ outcomeOf r = Returned (mkCheck true (Some (trim user)))).
Proof.
  cbv zeta. unfold checkGitHub, sh, orThrow, perform. prog_unfold.
  cbn [bind tryCatch run].
  destruct (h _ _ w) as [[out|] w1]; cbn [bind tryCatch run].
  - destruct (h _ _ w1) as [[user|] w2]; cbn [bind tryCatch run].
    + right. right. by exists out, user.
    + right. left. by exists out.
  - by left.
Qed.

(** X11.  [checkVercel] runs [which vercel] and then exactly one
    [whoami]: that of the installed binary when [which] succeeded, that of
    [bunx vercel] otherwise.  A failing [whoami] of the installed binary is
    not retried through [bunx].  The check reports [ok] exactly when the
    [whoami] succeeded, with its trimmed output as the user. *)
Theorem checkVercel_cases {W} (h : handler W) (w : W) :
  let r := run h checkVercel w in
  exists (found answer : option jsstring),
    traceOf r
    = [Call (Shell Quiet [[js "which"; js "vercel"]]) found;
       Call (Shell Text
               (match found with
                | Some _ => [[js "vercel"; js "whoami"]]
                | None => [[js "bunx"; js "vercel"; js "whoami"]]
                end)) answer]
    /\ outcomeOf r
       = Returned (match answer with
                   | Some user => mkCheck true (Some (trim user))
                   | None => mkCheck false None
                   end).
Proof.
  cbv zeta. unfold checkVercel, commandExists, sh, orThrow, perform.
  prog_unfold. cbn [bind tryCatch run].
  destruct (h _ _ w) as [[path|] w1]; cbn [bind tryCatch run].
  - destruct (h _ _ w1) as [[user|] w2]; cbn [bind tryCatch run];
      by eexists (Some path), _.
  - destruct (h _ _ w1) as [[user|] w2]; cbn [bind tryCatch run];
      by eexists None, _.
Qed.



(** ** The environment variables, in every case *)

Lemma run_dashboardSteps {W} (h : handler W) (projectName : jsstring) (w : W) :
  exists w',
    run h (dashboardSteps projectName) w
    = ([said (LF :: js "  1. Go to: https://vercel.com/dashboard");
        said (js "  2. Select: " ++ projectName ++ js " " ++ ARROW
               :: js " Settings " ++ ARROW :: js " Environment Variables")],
       Returned tt, w').
Proof.
  unfold dashboardSteps. prog_unfold. rewrite run_bind, !run_log.
  cbn [app]. by eexists.
Qed.

(** X13.  When the project could not be linked, the stage of the
    environment variables runs no command at all, whatever the URL and the
    deploy key: it prints the manual instructions and returns. *)
Theorem addEnvironmentVariables_not_linked {W} (h : handler W) (w : W)
    (projectName convexUrl deployKey : jsstring) :
  let r := run h (addEnvironmentVariables projectName false convexUrl
                    deployKey) w in
  outcomeOf r = Returned tt
  /\ traceOf r = map said (notLinkedLines projectName).
Proof.
  cbv zeta. unfold addEnvironmentVariables. prog_unfold.
  rewrite run_bind, run_log, run_bind, run_log, run_bind.
  destruct (run_dashboardSteps h projectName
              (snd (h _ (ConsoleLog (c_warning
                 (js "ACTION REQUIRED: Add Environment Variables in Vercel")))
                 (snd (h _ (ConsoleLog []) w))))) as [w1 ->].
  by rewrite run_bind, run_log, run_bind, !run_log.
Qed.

(** X14.  When the project is linked, the stage handles the two
    variables one after the other and independently of each other: first
    the pushes of [VITE_CONVEX_URL] when there is a URL, then those of
    [CONVEX_DEPLOY_KEY] when there is a key, each series ending at its
    first failure; a failure for the URL does not keep the deploy key from
    being pushed.  A missing value is told on the console, and the stage
    always returns. *)
Theorem addEnvironmentVariables_linked {W} (h : handler W) (w : W)
    (projectName convexUrl deployKey : jsstring) :
  let r := run h (addEnvironmentVariables projectName true convexUrl
                    deployKey) w in
  outcomeOf r = Returned tt
  /\ exists urlCalls keyCalls,
       shells (traceOf r) = urlCalls ++ keyCalls
       /\ (if truthy convexUrl
           then pushRun VITE_CONVEX_URL convexUrl urlCalls
           else urlCalls = [] /\ urlNotFound ∈ logs (traceOf r))
       /\ (if truthy deployKey
           then pushRun CONVEX_DEPLOY_KEY deployKey keyCalls
           else keyCalls = [] /\ noDeployKey ∈ logs (traceOf r)).
Proof.
  cbv zeta. unfold addEnvironmentVariables. prog_unfold.
  rewrite run_bind, run_log, run_bind.
  set (w0 := snd (h _ (ConsoleLog _) w)).
  assert (exists t1 w1 urlCalls,
            run h (if truthy convexUrl
                   then pushVariable VITE_CONVEX_URL convexUrl envTargets
                   else log urlNotFound) w0 = (t1, Returned tt, w1)
            /\ shells t1 = urlCalls
            /\ (if truthy convexUrl
                then pushRun VITE_CONVEX_URL convexUrl urlCalls
                else urlCalls = [] /\ urlNotFound ∈ logs t1))
    as (t1 & w1 & urlCalls & -> & Hs1 & Hurl).
  { destruct (truthy convexUrl).
    - pose proof (run_pushVariable h VITE_CONVEX_URL convexUrl envTargets w0)
        as Hpush. cbv zeta in Hpush.
      destruct (run h (pushVariable _ _ _) w0) as [[t o] w1].
      unfold outcomeOf, traceOf in Hpush. cbn [fst snd] in Hpush.
      destruct Hpush as [-> Hcases]. exists t, w1, (shells t).
      split; [done|]. split; [done|]. unfold pushRun.
      destruct Hcases as [[-> _]|(n & env & Hn & -> & _)]; [by left|].
      right. by exists n, env.
    - rewrite run_log. eexists _, _, []. split; [done|].
      split; [done|]. split; [done|]. cbn. left. }
  assert (exists t2 w2 keyCalls,
            run h (if truthy deployKey
                   then pushVariable CONVEX_DEPLOY_KEY deployKey envTargets
                   else bind (log noDeployKey)
                          (fun _ => bind (dashboardSteps projectName)
                             (fun _ => log (js "  3. Add CONVEX_DEPLOY_KEY"
                                            ++ [LF])))) w1
            = (t2, Returned tt, w2)
            /\ shells t2 = keyCalls
            /\ (if truthy deployKey
                then pushRun CONVEX_DEPLOY_KEY deployKey keyCalls
                else keyCalls = [] /\ noDeployKey ∈ logs t2))
    as (t2 & w2 & keyCalls & -> & Hs2 & Hkey).
  { destruct (truthy deployKey).
    - pose proof (run_pushVariable h CONVEX_DEPLOY_KEY deployKey envTargets w1)
        as Hpush. cbv zeta in Hpush.
      destruct (run h (pushVariable _ _ _) w1) as [[t o] w2].
      unfold outcomeOf, traceOf in Hpush. cbn [fst snd] in Hpush.
      destruct Hpush as [-> Hcases]. exists t, w2, (shells t).
      split; [done|]. split; [done|]. unfold pushRun.
      destruct Hcases as [[-> _]|(n & env & Hn & -> & _)]; [by left|].
      right. by exists n, env.
    - rewrite run_bind, run_log, run_bind.
      destruct (run_dashboardSteps h projectName
                  (snd (h _ (ConsoleLog noDeployKey) w1))) as [w' ->].
      rewrite run_log. eexists _, _, []. split; [done|].
      split; [done|]. split; [done|]. cbn. left. }
  unfold outcomeOf, traceOf. cbn [fst snd]. split; [done|].
  exists urlCalls, keyCalls.
  unfold shells, logs in *. cbn [omap list_omap app].
  rewrite !omap_app, Hs1, Hs2. cbn. split; [done|].
  split.
  - destruct (truthy convexUrl); [done|]. destruct Hurl as [-> Hin].
    split; [done|]. right. apply elem_of_app. by left.
  - destruct (truthy deployKey); [done|]. destruct Hkey as [-> Hin].
    split; [done|]. right. apply elem_of_app. by right.
Qed.

(** ** [main], [bootstrap] and the entry point *)

Lemma letterClass_spelled c : inClass letterClass c = isAsciiLetter c.
Proof.
  unfold inClass, letterClass, isAsciiLetter. cbn [existsb].
  rewrite orb_false_r. apply orb_comm.
Qed.

Lemma nameClass_spelled c : inClass nameClass c = isNameUnit c.
Proof.
  unfold inClass, nameClass, isNameUnit, isAsciiLetter. cbn [existsb].
  rewrite orb_false_r.
  replace ((95 <=? c) && (c <=? 95))%N with (c =? 95)%N
    by (destruct (N.eqb_spec c 95), (N.leb_spec 95 c), (N.leb_spec c 95);
        cbn; lia || done).
  replace ((45 <=? c) && (c <=? 45))%N with (c =? 45)%N
    by (destruct (N.eqb_spec c 45), (N.leb_spec 45 c), (N.leb_spec c 45);
        cbn; lia || done).
  destruct ((97 <=? c) && (c <=? 122))%N, ((65 <=? c) && (c <=? 90))%N,
    ((48 <=? c) && (c <=? 57))%N, (c =? 95)%N, (c =? 45)%N; done.
Qed.

Lemma forallb_same {A} (f g : A -> bool) (l : list A) :
  (forall x, f x = g x) -> forallb f l = forallb g l.
Proof. intros H. induction l as [|x l IH]; simpl; [done|]. by rewrite H, IH. Qed.

(** X15.  The names [main] accepts, spelled out: the test of the regular
    expression succeeds exactly on a name that starts with an ASCII letter
    and goes on with ASCII letters, digits, underscores and hyphens.  So an
    accepted name is never empty and holds no slash, dot, space or line
    end. *)
Theorem projectName_accepted_iff (name : jsstring) :
  test projectNameRegex name = true <->
  exists c rest,
    name = c :: rest /\ isAsciiLetter c = true
    /\ forallb isNameUnit rest = true.
Proof.
  rewrite test_matches, projectNameRegex_matches.
  split; intros (c & rest & -> & Hc & Hrest); exists c, rest;
    (split; [done|]).
  - rewrite <- letterClass_spelled. split; [done|].
    by rewrite <- (forallb_same _ _ rest nameClass_spelled).
  - rewrite letterClass_spelled. split; [done|].
    by rewrite (forallb_same _ _ rest nameClass_spelled).
Qed.

(** X16.  A help flag wins over everything else: [main] prints the usage
    text and ends the process, with status 0 when the first argument
    that does not start with [-] exists and is not empty, and 1
    otherwise.  The name is not validated, no check is run and nothing is
    created. *)
Theorem mainWith_help {W} (h : handler W) (w : W) (args : list jsstring) :
  showHelpOf args = true ->
  let r := run h (mainWith args) w in
  traceOf r = [said helpText]
  /\ outcomeOf r
     = Exited (if truthy (default [] (projectNameOf args)) then 0 else 1).
Proof.
  intros Hhelp. cbv zeta. unfold mainWith. rewrite Hhelp. cbn [orb].
  prog_unfold. by rewrite run_bind, run_log.
Qed.

Lemma mainWith_help_witness :
  showHelpOf [js "9lives"; js "--help"] = true
  /\ traceOf (run Simulated.handle (mainWith [js "9lives"; js "--help"])
                Simulated.empty) = [said helpText]
  /\ outcomeOf (run Simulated.handle (mainWith [js "9lives"; js "--help"])
                  Simulated.empty) = Exited 0.
Proof.
  split; [by vm_compute|].
  exact (mainWith_help Simulated.handle Simulated.empty
           [js "9lives"; js "--help"] eq_refl).
Defined.

(** X17.  When a prerequisite is missing, [bootstrap] ends the process
    with status 1 right after the checks: nothing of [createProject] is
    run, so no file is written, the working directory is not changed and
    the only commands are the probes of the checks. *)
Theorem bootstrap_stops_on_failed_checks {W} (h : handler W) (w : W)
    (projectName : jsstring) :
  let heading := c_header (js "Bootstrap: Convex + TanStack Start + Vercel") in
  let project := js "  Project: " ++ projectName ++ [LF] in
  let w1 := snd (h _ (ConsoleLog project) (snd (h _ (ConsoleLog heading) w))) in
  let checks := run h checkAllPrerequisites w1 in
  let r := run h (bootstrap false projectName) w in
  outcomeOf checks = Returned false ->
  outcomeOf r = Exited 1
  /\ traceOf r = said heading :: said project :: traceOf checks
  /\ writes (traceOf r) = [] /\ chdirs (traceOf r) = []
  /\ Forall (fun c => fst c ∈ probeCommands) (shells (traceOf r)).
Proof.
  cbv zeta. intros Hchecks. unfold bootstrap. cbn [negb]. prog_unfold.
  rewrite run_bind, run_log, run_bind, run_log, run_bind, run_bind.
  pose proof (always_run h probeEffect checkAllPrerequisites
                (snd (h _ (ConsoleLog (js "  Project: " ++ projectName ++ [LF]))
                        (snd (h _ (ConsoleLog (c_header
                           (js "Bootstrap: Convex + TanStack Start + Vercel")))
                           w))))) as Hprobe.
  destruct (run h checkAllPrerequisites _) as [[t o] w2].
  unfold outcomeOf, traceOf in *. cbn [fst snd] in *. subst o.
  cbn [run app]. rewrite app_nil_r. split; [done|]. split; [done|].
  apply (probes_change_nothing (_ :: _ :: t)).
  repeat constructor. apply Hprobe, checkAllPrerequisites_probes.
Qed.

Section EntryFacts.
Context {W : Type} (h : handler W).

(** X18.  No error escapes the entry point: when [main] throws, the error
    is reported on the console and the process ends with status 1; in
    every other case the run is that of [main]. *)
Theorem entry_reports_errors (w : W) :
  let r := run h entry w in
  let m := run h main w in
  outcomeOf r <> Thrown
  /\ (outcomeOf m = Thrown ->
      outcomeOf r = Exited 1
      /\ traceOf r
         = traceOf m ++ [Call (ConsoleError (c_error (js "An error occurred:")))
                           tt])
  /\ (outcomeOf m <> Thrown -> r = m).
Proof.
  cbv zeta. unfold entry. rewrite run_tryCatch.
  destruct (run h main w) as [[t [[]| |c]] w1]; unfold outcomeOf, traceOf;
    cbn [fst snd]; try done.
  unfold perform. prog_unfold. cbn [bind run].
  destruct (h _ _ w1) as [[] w2]. cbn [run]. by repeat split.
Qed.
End EntryFacts.

(** ** [createProject] as a whole *)

Section SplitFacts.
Context {W : Type} (h : handler W).

Lemma run_bind_assoc {A B C} (p : Prog A) (f : A -> Prog B) (g : B -> Prog C)
    (w : W) :
  run h (bind (bind p f) g) w = run h (bind p (fun x => bind (f x) g)) w.
Proof.
  rewrite !run_bind.
  destruct (run h p w) as [[t [a| |c]] w1]; [|done..].
  rewrite run_bind.
  destruct (run h (f a) w1) as [[t1 [b| |c]] w2]; [|done..].
  destruct (run h (g b) w2) as [[t2 o] w3]. by rewrite app_assoc.
Qed.

Lemma run_bind_cong {A B} (p : Prog A) (f g : A -> Prog B) :
  (forall a w, run h (f a) w = run h (g a) w) ->
  forall w, run h (bind p f) w = run h (bind p g) w.
Proof.
  intros Hfg w. rewrite !run_bind.
  destruct (run h p w) as [[t [a| |c]] w1]; [|done..]. by rewrite Hfg.
Qed.

(** [createProject] is its local part followed by its remote part. *)
Lemma run_createProject_split (projectName : jsstring) (w : W) :
  run h (createProject projectName) w
  = run h (bind (localSetup projectName) (remoteSetup projectName)) w.
Proof.
  unfold createProject, localSetup. prog_unfold. revert w.
  repeat (intros w; etransitivity; [|symmetry; apply run_bind_assoc];
          revert w; apply run_bind_cong; intros ?).
  intros w. reflexivity.
Qed.
End SplitFacts.

Lemma always_orThrow {A} (P : forall X, Eff X -> Prop) (p : Prog (option A)) :
  always P p -> always P (orThrow p).
Proof. intros H. apply always_bind; [done|]. by intros [a|]. Qed.

Lemma always_orThrowB (P : forall X, Eff X -> Prop) (p : Prog bool) :
  always P p -> always P (orThrowB p).
Proof. intros H. apply always_bind; [done|]. by intros []. Qed.

Lemma always_forOf {A} (P : forall X, Eff X -> Prop) (l : list A)
    (body : A -> Prog unit) :
  (forall x, x ∈ l -> always P (body x)) -> always P (forOf l body).
Proof.
  induction l as [|x l IH]; intros H; simpl; [done|].
  apply always_bind; [apply H; left|].
  intros _. apply IH. intros y Hy. apply H. by right.
Qed.

Lemma always_weaken {A} (P Q : forall X, Eff X -> Prop) (p : Prog A) :
  (forall X e, P X e -> Q X e) -> always P p -> always Q p.
Proof.
  intros HPQ. induction p as [a| |c|X e k IH]; simpl; auto.
  intros [He Hk]. split; [auto|]. intros x. by apply IH.
Qed.

Ltac always_steps :=
  repeat first
    [ apply always_sh
    | apply always_log
    | apply always_perform
    | apply always_orThrowB
    | apply always_orThrow
    | apply always_tryCatch
    | apply always_bind; [|intros ?] ].

Lemma localSetup_local projectName :
  always (localEffect projectName) (localSetup projectName).
Proof.
  unfold localSetup. prog_unfold.
  always_steps; try exact I;
    try (unfold localEffect, localCommands, generatorCommand;
         repeat first [left | right]; fail);
    try (cbn; auto; fail).
  - by destruct a1.
  - by destruct (patchManifest _).
Qed.

Lemma pushVariable_remote projectName name value :
  name = VITE_CONVEX_URL \/ name = CONVEX_DEPLOY_KEY ->
  always (remoteEffect projectName) (pushVariable name value envTargets).
Proof.
  intros Hname. unfold pushVariable, addVercelEnvVar. prog_unfold.
  apply always_bind; [by apply always_log|]. intros _.
  apply always_bind; [|intros []; by apply always_log].
  apply always_tryCatch; [|done].
  apply always_bind; [|done].
  apply always_forOf. intros env Henv.
  apply always_bind; [|done]. apply always_sh.
  cbn. right. right. right. by exists name, value, env.
Qed.

Lemma addEnvironmentVariables_remote projectName linked convexUrl deployKey :
  always (remoteEffect projectName)
    (addEnvironmentVariables projectName linked convexUrl deployKey).
Proof.
  unfold addEnvironmentVariables, dashboardSteps. prog_unfold.
  destruct linked; [|by always_steps].
  apply always_bind; [by apply always_log|]. intros _.
  apply always_bind.
  - destruct (truthy convexUrl); [|by apply always_log].
    apply pushVariable_remote. by left.
  - intros _. destruct (truthy deployKey); [|by always_steps].
    apply pushVariable_remote. by right.
Qed.

Lemma setUpConvex_remote projectName :
  always (remoteEffect projectName) setUpConvex.
Proof.
  unfold setUpConvex, readEnvFile. prog_unfold.
  always_steps; try exact I; try done.
  - cbn. auto.
  - match goal with |- always _ (if ?b then _ else _) => destruct b end;
      [by apply always_log|done].
Qed.

Lemma remoteSetup_remote projectName projectPath :
  always (remoteEffect projectName) (remoteSetup projectName projectPath).
Proof.
  unfold remoteSetup, linkVercel, prompt. prog_unfold.
  repeat first
    [ apply setUpConvex_remote
    | apply addEnvironmentVariables_remote
    | apply always_sh
    | apply always_log
    | apply always_perform
    | apply always_tryCatch
    | apply always_bind; [|intros ?] ];
    try exact I; try done;
    try (match goal with
         | |- always _ (match ?o with Some _ => _ | None => _ end) =>
             by destruct o
         end);
    cbn; auto.
Qed.

(** ** Programs that return *)

Lemma returns_bind {A B} (p : Prog A) (f : A -> Prog B) :
  returns p -> (forall a, returns (f a)) -> returns (bind p f).
Proof. induction p; simpl; auto; done. Qed.

Lemma returns_log msg : returns (log msg).
Proof. by unfold log, perform. Qed.

Lemma exitFree_log msg : exitFree (log msg).
Proof. by unfold log, perform. Qed.

Lemma returns_exitFree {A} (p : Prog A) : returns p -> exitFree p.
Proof. induction p; simpl; auto. Qed.

Lemma exitFree_forOf {A} (l : list A) (body : A -> Prog unit) :
  (forall x, exitFree (body x)) -> exitFree (forOf l body).
Proof.
  intros H. induction l as [|x l IH]; simpl; [done|].
  by apply exitFree_bind.
Qed.

Lemma addVercelEnvVar_returns name value environments :
  returns (addVercelEnvVar name value environments).
Proof.
  unfold addVercelEnvVar. prog_unfold.
  apply returns_tryCatch; [|done].
  apply exitFree_bind; [|done].
  apply exitFree_forOf. intros env.
  apply exitFree_bind; [apply exitFree_sh|done].
Qed.

Lemma pushVariable_returns name value environments :
  returns (pushVariable name value environments).
Proof.
  unfold pushVariable. prog_unfold.
  apply returns_bind; [apply returns_log|]. intros _.
  apply returns_bind; [apply addVercelEnvVar_returns|].
  intros []; apply returns_log.
Qed.

Lemma addEnvironmentVariables_returns projectName linked convexUrl deployKey :
  returns (addEnvironmentVariables projectName linked convexUrl deployKey).
Proof.
  unfold addEnvironmentVariables, dashboardSteps. prog_unfold.
  destruct linked.
  - apply returns_bind; [apply returns_log|]. intros _.
    apply returns_bind.
    + destruct (truthy convexUrl);
        [apply pushVariable_returns|apply returns_log].
    + intros _. destruct (truthy deployKey); [apply pushVariable_returns|].
      repeat (apply returns_bind; [|intros ?]); apply returns_log.
  - repeat (apply returns_bind; [|intros ?]); apply returns_log.
Qed.

Lemma readEnvFile_returns filePath : returns (readEnvFile filePath).
Proof.
  unfold readEnvFile. prog_unfold.
  apply returns_tryCatch; [|done].
  apply exitFree_bind; [|done].
  unfold orThrow. apply exitFree_bind; [apply exitFree_perform|].
  by intros [c|].
Qed.

Lemma setUpConvex_returns : returns setUpConvex.
Proof.
  unfold setUpConvex. prog_unfold.
  apply returns_bind; [apply returns_log|]. intros _.
  apply returns_bind; [apply returns_log|]. intros _.
  apply returns_tryCatch.
  - apply exitFree_bind; [apply exitFree_sh|]. intros _.
    apply exitFree_bind; [apply exitFree_log|]. intros _.
    apply exitFree_bind;
      [apply returns_exitFree, readEnvFile_returns|].
    intros envVars.
    apply exitFree_bind; [|done].
    match goal with |- exitFree (if ?b then _ else _) => destruct b end;
      [apply exitFree_log|done].
  - apply returns_bind; [apply returns_log|done].
Qed.

Lemma linkVercel_returns : returns linkVercel.
Proof.
  unfold linkVercel. prog_unfold.
  apply returns_bind; [apply returns_log|]. intros _.
  apply returns_bind; [apply returns_log|]. intros _.
  apply returns_tryCatch.
  - apply exitFree_bind; [apply exitFree_sh|]. intros _.
    apply exitFree_bind; [apply exitFree_log|done].
  - apply returns_bind; [apply returns_log|done].
Qed.

Lemma prompt_settles : settles keyQuestion (prompt keyQuestion).
Proof.
  unfold prompt, perform. prog_unfold. simpl.
  intros [text|]; [by right|by left].
Qed.

(** ** Programs that return after a last line *)

Section ClosesFacts.
Context {W : Type} (h : handler W).

Lemma returns_settles {A} q (p : Prog A) : returns p -> settles q p.
Proof.
  induction p as [a| |c|X e k IH]; simpl; try done.
  intros Hk x. right. by apply IH.
Qed.

Lemma closes_log msg q : closes msg q (log msg).
Proof. unfold log, perform. simpl. intros []. left. eauto. Qed.

Lemma closes_bind {A B} msg q (p : Prog A) (f : A -> Prog B) :
  settles q p -> (forall a, closes msg q (f a)) -> closes msg q (bind p f).
Proof.
  induction p as [a| |c|X e k IH]; simpl; try done.
  intros Hk Hf x. destruct (Hk x) as [[Hcall Hx]|Hx].
  - right. left. by rewrite Hx.
  - right. right. by apply IH.
Qed.

Lemma closes_run {A} msg q (p : Prog A) (w : W) :
  closes msg q p ->
  ((exists a, outcomeOf (run h p w) = Returned a)
   /\ last (logs (traceOf (run h p w))) = Some msg)
  \/ (outcomeOf (run h p w) = Exited 0
      /\ last (traceOf (run h p w)) = Some (Call (Question q) None)).
Proof.
  revert w. induction p as [a| |c|X e k IH]; simpl; intros w Hp;
    try done.
  destruct (h X e w) as [x w1].
  destruct (Hp x) as [[Hlog [a Ha]]|[[Hcall Hx]|Hk]].
  - left. rewrite Ha. cbn [run]. unfold outcomeOf, traceOf, logs.
    cbn [fst snd]. split; [by exists a|]. cbn [omap list_omap].
    unfold logOf. by rewrite Hlog.
  - right. rewrite Hx. cbn [run]. unfold outcomeOf, traceOf.
    cbn [fst snd]. by rewrite Hcall.
  - destruct (IH x w1 Hk) as [[[a Ha] Hlast]|[Hexit Hlast]];
      destruct (run h (k x) w1) as [[t o] w2];
      unfold outcomeOf, traceOf, logs in *; cbn [fst snd] in *.
    + left. split; [by exists a|]. cbn [omap list_omap].
      destruct (logOf (Call e x)); [|done].
      by rewrite last_cons, Hlast.
    + right. split; [done|]. by rewrite last_cons, Hlast.
Qed.

Lemma exitsOnly_bind {A B} code (p : Prog A) (f : A -> Prog B) :
  exitsOnly code p -> (forall a, exitsOnly code (f a)) ->
  exitsOnly code (bind p f).
Proof. induction p; simpl; auto. Qed.

Lemma exitFree_exitsOnly {A} code (p : Prog A) :
  exitFree p -> exitsOnly code p.
Proof. induction p; simpl; auto; done. Qed.

Lemma exitsOnly_run {A} code (p : Prog A) (w : W) c :
  exitsOnly code p -> outcomeOf (run h p w) = Exited c -> c = code.
Proof.
  revert w. induction p as [a| |c'|X e k IH]; simpl; intros w Hp;
    try done.
  - unfold outcomeOf. cbn [fst snd]. by intros [= <-].
  - destruct (h X e w) as [x w1]. specialize (IH x w1 (Hp x)).
    by destruct (run h (k x) w1) as [[t o] w2].
Qed.
End ClosesFacts.

Lemma remoteSetup_closes projectName projectPath :
  closes (c_success (js "Happy coding!")) keyQuestion
    (remoteSetup projectName projectPath).
Proof.
  unfold remoteSetup. prog_unfold.
  repeat (apply closes_bind;
          [first [ apply prompt_settles
                 | apply returns_settles;
                   first [ apply returns_log | apply setUpConvex_returns
                         | apply linkVercel_returns
                         | apply addEnvironmentVariables_returns | idtac ] ]
          |intros ?]).
  2: apply closes_log.
  apply returns_tryCatch.
  - apply exitFree_bind; [apply exitFree_sh|]. intros _. apply exitFree_log.
  - apply returns_bind; [apply returns_log|]. intros _. apply returns_log.
Qed.

(** The local part ends the process with status 1 only. *)
Lemma localSetup_exits projectName : exitsOnly 1 (localSetup projectName).
Proof.
  unfold localSetup, updatePackageScripts, orThrowB, orThrow, sh, log.
  prog_unfold.
  repeat first
    [ apply exitFree_exitsOnly, exitFree_perform
    | apply exitsOnly_bind; [|intros ?] ];
    try done.
  all: match goal with
       | |- exitsOnly _ (if ?b then _ else _) => by destruct b
       | |- exitsOnly _ (match ?o with Some _ => _ | None => _ end) =>
           by destruct o
       end.
Qed.

Section PipelineFacts.
Context {W : Type} (h : handler W).

Lemma run_sh mode (cmd : pipeline) (w : W) :
  run h (sh mode cmd) w
  = ([Call (Shell mode cmd) (fst (h _ (Shell mode cmd) w))],
     match fst (h _ (Shell mode cmd) w) with
     | Some out => Returned out
     | None => Thrown
     end,
     snd (h _ (Shell mode cmd) w)).
Proof.
  unfold sh, orThrow, perform. simpl.
  by destruct (h _ (Shell mode cmd) w) as [[out|] w1].
Qed.

(** X19.  A run of [createProject] ends in one of three ways.  It
    returns, the last line printed being the closing [Happy coding!].  Or
    the input ended at the question for the deploy key: that question is
    the last thing the run did and the process ends with status 0.  Or it
    failed in the local part, with an exception or with status 1, and
    every effect of the run is one of the local part: no repository,
    backend or hosting command was run.  So a failing repository, backend,
    link or push command never ends the run. *)
Theorem createProject_fails_only_locally (projectName : jsstring) (w : W) :
  let r := run h (createProject projectName) w in
  (outcomeOf r = Returned tt
   /\ last (logs (traceOf r)) = Some (c_success (js "Happy coding!")))
  \/ (outcomeOf r = Exited 0
      /\ last (traceOf r) = Some (Call (Question keyQuestion) None))
  \/ ((outcomeOf r = Thrown \/ outcomeOf r = Exited 1)
      /\ Forall (callSatisfies (localEffect projectName)) (traceOf r)).
Proof.
  cbv zeta. rewrite run_createProject_split, run_bind.
  pose proof (always_run h _ _ w (localSetup_local projectName)) as Hlocal.
  pose proof (fun c => exitsOnly_run h 1 _ w c (localSetup_exits projectName))
    as Hcode.
  destruct (run h (localSetup projectName) w) as [[t [path| |c]] w1];
    unfold outcomeOf, traceOf in *; cbn [fst snd] in *.
  - destruct (closes_run h _ _ _ w1 (remoteSetup_closes projectName path))
      as [[[[] Hret] Hlast]|[Hexit Hlast]];
      destruct (run h (remoteSetup projectName path) w1) as [[t2 o] w2];
      unfold outcomeOf, traceOf in *; cbn [fst snd] in *.
    + left. split; [done|].
      unfold logs in *. by rewrite omap_app, last_app, Hlast.
    + right. left. split; [done|]. by rewrite last_app, Hlast.
  - right. right. split; [by left|done].
  - right. right. rewrite (Hcode c eq_refl). split; [by right|done].
Qed.

Lemma writes_satisfy (P : forall X, Eff X -> Prop)
    (Q : jsstring * jsstring -> Prop) (t : list call) :
  (forall path content, P _ (BunWrite path content) -> Q (path, content)) ->
  Forall (callSatisfies P) t -> Forall Q (writes t).
Proof.
  intros HPQ. unfold writes.
  induction 1 as [|[X e x] t He _ IH]; [done|].
  destruct e; cbn in He |- *; try done. constructor; auto.
Qed.

Lemma shells_satisfy (P : forall X, Eff X -> Prop)
    (Q : pipeline -> Prop) (t : list call) :
  (forall mode cmd, P _ (Shell mode cmd) -> Q cmd) ->
  Forall (callSatisfies P) t -> Forall (fun c => Q (fst c)) (shells t).
Proof.
  intros HPQ. unfold shells.
  induction 1 as [|[X e x] t He _ IH]; [done|].
  destruct e; cbn in He |- *; try done. constructor; [|done].
  cbn. eauto.
Qed.

Lemma createProject_effects (projectName : jsstring) (w : W) :
  Forall (callSatisfies
            (fun X e => localEffect projectName X e
                        \/ remoteEffect projectName X e))
    (traceOf (run h (createProject projectName) w)).
Proof.
  rewrite run_createProject_split, run_bind.
  pose proof (always_run h _ _ w (localSetup_local projectName)) as Hlocal.
  assert (Forall (callSatisfies
            (fun X e => localEffect projectName X e
                        \/ remoteEffect projectName X e))
            (traceOf (run h (localSetup projectName) w))) as Hl.
  { eapply Forall_impl; [exact Hlocal|]. intros [X e x]. cbn. auto. }
  clear Hlocal.
  destruct (run h (localSetup projectName) w) as [[t [path| |c]] w1];
    unfold traceOf in *; cbn [fst snd] in *; [|done..].
  pose proof (always_run h _ _ w1 (remoteSetup_remote projectName path))
    as Hremote.
  destruct (run h (remoteSetup projectName path) w1) as [[t2 o] w2].
  unfold traceOf in *. cbn [fst snd] in *.
  apply Forall_app. split; [done|].
  eapply Forall_impl; [exact Hremote|]. intros [X e x]. cbn. auto.
Qed.

(** X20.  The only files [createProject] writes are [vite.config.ts] and
    [vercel.json], each with its fixed content, and [package.json]; and
    it never runs a command outside its six local commands, the
    repository, backend and link commands, and pushes of the two
    variables to the three environments. *)
Theorem createProject_writes_and_commands (projectName : jsstring) (w : W) :
  let t := traceOf (run h (createProject projectName) w) in
  Forall (fun wr => wr = (js "vite.config.ts", VITE_CONFIG)
                    \/ wr = (js "vercel.json", VERCEL_JSON)
                    \/ fst wr = js "package.json") (writes t)
  /\ Forall (fun c =>
       fst c ∈ localCommands projectName
       \/ fst c ∈ [[repoCreateCommand projectName];
                   [[js "bunx"; js "convex"; js "dev"; js "--once"]];
                   [[js "bunx"; js "vercel"; js "link"; js "--yes"]]]
       \/ exists name value env,
            fst c = pushCommand name value env
            /\ name ∈ [VITE_CONVEX_URL; CONVEX_DEPLOY_KEY]
            /\ env ∈ envTargets) (shells t).
Proof.
  cbv zeta. pose proof (createProject_effects projectName w) as Hall.
  split.
  - eapply writes_satisfy; [|exact Hall]. cbn.
    intros path content [[[-> ->]|[[-> ->]| ->]]|[]]; auto.
  - apply (shells_satisfy
             (fun X e => localEffect projectName X e
                         \/ remoteEffect projectName X e)
             (fun cmd =>
                cmd ∈ localCommands projectName
                \/ cmd ∈ [[repoCreateCommand projectName];
                          [[js "bunx"; js "convex"; js "dev"; js "--once"]];
                          [[js "bunx"; js "vercel"; js "link"; js "--yes"]]]
                \/ exists name value env,
                     cmd = pushCommand name value env
                     /\ name ∈ [VITE_CONVEX_URL; CONVEX_DEPLOY_KEY]
                     /\ env ∈ envTargets)); [|exact Hall]. cbn.
    intros _ cmd [Hl|[->|[->|[->|(name & value & env & -> & Hn & He)]]]];
      [by left|right; left..|right; right].
    + left.
    + right. left.
    + right. right. left.
    + exists name, value, env. split; [done|]. split; [|done].
      destruct Hn as [->| ->]; [left|right; left].
Qed.
(** X21.  When the template generator fails, [createProject] throws at
    once: the generator is the only command run, nothing is written and
    the working directory is not changed. *)
Theorem createProject_generator_failure (projectName : jsstring) (w : W) :
  let r := run h (createProject projectName) w in
  head (shells (traceOf r)) = Some (generatorCommand projectName, false) ->
  outcomeOf r = Thrown
  /\ shells (traceOf r) = [(generatorCommand projectName, false)]
  /\ logs (traceOf r)
     = [c_header (js "Creating Project from Template");
        c_info (js "Running create-convex with tanstack-start template...")]
  /\ writes (traceOf r) = []
  /\ chdirs (traceOf r) = [].
Proof.
  cbv zeta. rewrite run_createProject_split, run_bind.
  unfold localSetup. prog_unfold.
  rewrite run_bind, run_perform.
  destruct (h _ ProcessCwd w) as [cwd w1]. cbn [fst snd].
  rewrite run_bind, run_perform.
  destruct (h _ (PathResolve [cwd; projectName]) w1) as [path w2].
  cbn [fst snd].
  rewrite run_bind, run_perform.
  destruct (h _ (ExistsSync path) w2) as [[] w3]; cbn [fst snd].
  { rewrite run_bind, run_bind, run_log. by cbn. }
  rewrite run_bind. cbn [run]. rewrite run_bind, run_log, run_bind, run_log.
  rewrite run_bind, run_sh.
  change [[js "bunx"; js "create-convex@latest"; projectName; js "-t";
           js "tanstack-start"]] with (generatorCommand projectName).
  destruct (h _ (Shell Inherit (generatorCommand projectName)) _)
    as [[out|] w4]; cbn [fst snd].
  - destruct (run h _ w4) as [[t [p| |c]] w5]; [|by cbn..].
    by destruct (run h (remoteSetup projectName p) w5) as [[t2 o] w6].
  - by cbn.
Qed.

(** X22.  Step 9 never fails.  When the backend command fails,
    [.env.local] is not read and the URL is empty; when it succeeds,
    [.env.local] is read once and the URL is its [VITE_CONVEX_URL], empty
    when the file is unreadable or does not set it, and a line reports
    the URL exactly when it is not empty. *)
Theorem setUpConvex_cases (w : W) :
  let r := run h setUpConvex w in
  let t := traceOf r in
  let opening := [c_header (js "Setting Up Convex");
                  c_info (js "Creating Convex project...")] in
  (shells t = [(convexDevCommand, false)]
   /\ textReads t = []
   /\ outcomeOf r = Returned []
   /\ logs t
      = opening
        ++ [c_warning
              (js "Could not initialize Convex automatically. Run: bunx convex dev"
               ++ [LF])])
  \/ (exists content,
        shells t = [(convexDevCommand, true)]
        /\ textReads t = [(js ".env.local", content)]
        /\ outcomeOf r = Returned (convexUrlOf content)
        /\ logs t
           = opening ++ [c_success (js "Convex project initialized")]
             ++ (if truthy (convexUrlOf content)
                 then [c_success (js "Found VITE_CONVEX_URL: "
                                  ++ convexUrlOf content)]
                 else [])).
Proof.
  cbv zeta. unfold setUpConvex. prog_unfold.
  rewrite run_bind, run_log, run_bind, run_log, run_tryCatch.
  rewrite run_bind, run_sh.
  change [[js "bunx"; js "convex"; js "dev"; js "--once"]]
    with convexDevCommand.
  destruct (h _ (Shell Inherit convexDevCommand) _) as [[out|] w1];
    cbn [fst snd].
  - right. rewrite run_bind, run_log, run_bind, run_readEnvFile.
    destruct (h _ (FileText (js ".env.local")) _) as [content w2].
    exists content.
    assert (forall env : gmap (list N) (list N),
              (let found := default [] (env !! VITE_CONVEX_URL) in
               if truthy found then found else [])
              = default [] (env !! VITE_CONVEX_URL)) as Hurl.
    { intros env. cbv zeta. by destruct (default [] (env !! VITE_CONVEX_URL)). }
    rewrite Hurl.
    replace (default [] (match content with
                         | Some c => parseEnv c
                         | None => ∅
                         end !! VITE_CONVEX_URL))
      with (convexUrlOf content) by (by destruct content).
    rewrite run_bind.
    destruct (truthy (convexUrlOf content)) eqn:Htruthy.
    + rewrite run_log. by cbn.
    + by cbn.
  - left. rewrite run_bind, run_log. by cbn.
Qed.
End PipelineFacts.

(** With the input closed the run stops at the question, after the
    repository and backend commands, with status 0. *)
Example createProject_input_ended :
  let r := run Simulated.closedInput (createProject (js "myapp"))
             (Simulated.withManifest (js "package.json")
                (JObject [(js "scripts", oldScripts)])) in
  outcomeOf r = Exited 0
  /\ last (traceOf r) = Some (Call (Question keyQuestion) None)
  /\ shells (traceOf r)
     = map (fun cmd => (cmd, true)) (localCommands (js "myapp"))
       ++ [([repoCreateCommand (js "myapp")], true);
           (convexDevCommand, true)].
Proof. cbv zeta. split; [by vm_compute|]. split; by vm_compute. Qed.

Lemma bootstrap_stops_on_failed_checks_witness :
  outcomeOf (run Simulated.handle checkAllPrerequisites
               (Simulated.withFailing [[js "bun"; js "--version"]]))
  = Returned false
  /\ outcomeOf (run Simulated.handle (bootstrap false (js "myapp"))
                  (Simulated.withFailing [[js "bun"; js "--version"]]))
     = Exited 1
  /\ writes (traceOf (run Simulated.handle (bootstrap false (js "myapp"))
                        (Simulated.withFailing [[js "bun"; js "--version"]])))
     = [].
Proof.
  pose proof (bootstrap_stops_on_failed_checks Simulated.handle
                (Simulated.withFailing [[js "bun"; js "--version"]])
                (js "myapp") ltac:(by vm_compute)) as (Hout & _ & Hw & _).
  split; [by vm_compute|]. by split.
Defined.

Lemma createProject_generator_failure_witness :
  head (shells (traceOf
    (run Simulated.handle (createProject (js "myapp"))
       (Simulated.withFailing
          [[js "bunx"; js "create-convex@latest"; js "myapp"; js "-t";
            js "tanstack-start"]]))))
  = Some (generatorCommand (js "myapp"), false)
  /\ outcomeOf
       (run Simulated.handle (createProject (js "myapp"))
          (Simulated.withFailing
             [[js "bunx"; js "create-convex@latest"; js "myapp"; js "-t";
               js "tanstack-start"]]))
     = Thrown.
Proof.
  pose proof (createProject_generator_failure Simulated.handle (js "myapp")
                (Simulated.withFailing
                   [[js "bunx"; js "create-convex@latest"; js "myapp";
                     js "-t"; js "tanstack-start"]])
                ltac:(by vm_compute)) as (Hout & _).
  split; [by vm_compute|]. done.
Defined.

Section CompletedFacts.
Context {W : Type} (h : handler W).

Ltac run_step :=
  first [rewrite run_log | rewrite run_sh | rewrite run_perform
        | rewrite run_readEnvFile | rewrite run_tryCatch | rewrite run_bind];
  repeat match goal with
         | |- context [h ?X ?e ?w] => destruct (h X e w) as [? ?]
         end.

Ltac run_case :=
  match goal with
  | |- context [run h (bind (if ?b then _ else _) _) _] => destruct b
  | |- context [run h (if ?b then _ else _) _] => destruct b
  | |- context [run h (match ?o with Some _ => _ | None => _ end) _] =>
      destruct o eqn:?
  | |- context [match ?o with Some _ => Returned _ | None => Thrown end] =>
      is_var o; destruct o
  end.

Ltac run_steps :=
  repeat (first [run_case | run_step]; cbn [fst snd run]; try exact I).

(** A completed run of the local part: what it ran, read and wrote. *)
Lemma run_localSetup (projectName : jsstring) (w : W) :
  match run h (localSetup projectName) w with
  | (t, Returned path, _) =>
      chdirs t = [path]
      /\ shells t = map (fun cmd => (cmd, true)) (localCommands projectName)
      /\ exists pkg patched,
           jsonReads t = [(js "package.json", Some pkg)]
           /\ patchManifest pkg = Some patched
           /\ writes t = [(js "vite.config.ts", VITE_CONFIG);
                          (js "vercel.json", VERCEL_JSON);
                          (js "package.json", manifestText patched)]
  | _ => True
  end.
Proof.
  unfold localSetup, updatePackageScripts, orThrowB, orThrow. prog_unfold.
  run_steps. split; [done|]. split; [done|]. by eexists _, _.
Qed.

Lemma remote_changes_nothing projectName (t : list call) :
  Forall (callSatisfies (remoteEffect projectName)) t ->
  writes t = [] /\ chdirs t = [] /\ jsonReads t = [].
Proof.
  unfold writes, chdirs, jsonReads.
  induction 1 as [|[X e x] t He _ IH]; [done|].
  destruct e; cbn in He |- *; done.
Qed.

Lemma run_addEnvironmentVariables projectName linked convexUrl deployKey
    (w : W) :
  exists t w',
    run h (addEnvironmentVariables projectName linked convexUrl deployKey) w
    = (t, Returned tt, w')
    /\ writes t = [] /\ chdirs t = [] /\ jsonReads t = []
    /\ (linked = false -> shells t = []).
Proof.
  pose proof (run_returns h _ w
                (addEnvironmentVariables_returns projectName linked
                   convexUrl deployKey)) as [[] Hret].
  pose proof (always_run h _ _ w
                (addEnvironmentVariables_remote projectName linked
                   convexUrl deployKey)) as Hremote.
  apply remote_changes_nothing in Hremote as (Hw & Hc & Hj).
  assert (linked = false ->
          shells (traceOf (run h (addEnvironmentVariables projectName linked
                                    convexUrl deployKey) w)) = []) as Hs.
  { intros ->. unfold addEnvironmentVariables, dashboardSteps. prog_unfold.
    run_steps. done. }
  destruct (run h _ w) as [[t o] w'].
  unfold outcomeOf, traceOf in *. cbn [fst snd] in *. subst o.
  by exists t, w'.
Qed.

(** A completed run of the remote part: what it ran, and that it wrote
    nothing. *)
Lemma run_remoteSetup (projectName projectPath : jsstring) (w : W) :
  match run h (remoteSetup projectName projectPath) w with
  | (t, Returned _, _) =>
      exists ok1 ok2 ok3 w0 convexUrl deployKey,
        shells t
        = [([repoCreateCommand projectName], ok1);
           (convexDevCommand, ok2);
           ([[js "bunx"; js "vercel"; js "link"; js "--yes"]], ok3)]
          ++ shells (traceOf (run h (addEnvironmentVariables projectName ok3
                                       convexUrl deployKey) w0))
        /\ writes t = [] /\ chdirs t = [] /\ jsonReads t = []
  | _ => True
  end.
Proof.
  unfold remoteSetup, setUpConvex, linkVercel, prompt.
  remember (addEnvironmentVariables projectName) as stage eqn:Hstage.
  prog_unfold. run_steps.
  all: subst stage.
  all: match goal with
       | |- context [run h (addEnvironmentVariables ?n ?l ?u ?k) ?w] =>
           destruct (run_addEnvironmentVariables n l u k w)
             as (t & w' & Heq & Hw & Hc & Hj & _);
           pose proof (f_equal traceOf Heq) as Htrace;
           rewrite Heq; cbn [fst snd]; run_steps;
           eexists _, _, l, w, u, k; rewrite Htrace
       end.
  all: unfold traceOf, shells, writes, chdirs, jsonReads in *.
  all: cbn [fst snd app omap list_omap shellOf writeOf chdirOf jsonReadOf].
  all: rewrite !omap_app, ?Hw, ?Hc, ?Hj.
  all: cbn [fst snd app omap list_omap shellOf writeOf chdirOf jsonReadOf].
  all: rewrite app_nil_r.
  all: by repeat split.
Qed.

(** X23.  What a completed run of [createProject] has done: it entered
    the project directory once, read [package.json] once and wrote three
    files, the two configuration files and the patched manifest; and it
    ran, in this order, its six local commands, all with success, then
    the repository, backend and link commands, each of which may have
    failed, then what the environment-variable stage ran, which is
    nothing when linking failed. *)
Theorem createProject_completed (projectName : jsstring) (w : W) :
  let r := run h (createProject projectName) w in
  let t := traceOf r in
  outcomeOf r = Returned tt ->
  exists path pkg patched ok1 ok2 ok3 pushes,
    chdirs t = [path]
    /\ jsonReads t = [(js "package.json", Some pkg)]
    /\ patchManifest pkg = Some patched
    /\ writes t = [(js "vite.config.ts", VITE_CONFIG);
                   (js "vercel.json", VERCEL_JSON);
                   (js "package.json", manifestText patched)]
    /\ shells t
       = map (fun cmd => (cmd, true)) (localCommands projectName)
         ++ [([repoCreateCommand projectName], ok1);
             (convexDevCommand, ok2);
             ([[js "bunx"; js "vercel"; js "link"; js "--yes"]], ok3)]
         ++ pushes
    /\ (ok3 = false -> pushes = [])
    /\ exists w0 convexUrl deployKey,
         pushes
         = shells (traceOf (run h (addEnvironmentVariables projectName ok3
                                     convexUrl deployKey) w0)).
Proof.
  cbv zeta. rewrite run_createProject_split, run_bind.
  pose proof (run_localSetup projectName w) as Hlocal.
  destruct (run h (localSetup projectName) w) as [[t1 [path| |c]] w1];
    [|done..].
  destruct Hlocal as (Hc1 & Hs1 & pkg & patched & Hj1 & Hpatch & Hw1).
  pose proof (run_remoteSetup projectName path w1) as Hremote.
  destruct (run h (remoteSetup projectName path) w1) as [[t2 [[]| |c]] w2];
    [|done..].
  destruct Hremote
    as (ok1 & ok2 & ok3 & w0 & convexUrl & deployKey
        & Hs2 & Hw2 & Hc2 & Hj2).
  intros _. unfold traceOf. cbn [fst snd].
  exists path, pkg, patched, ok1, ok2, ok3,
    (shells (traceOf (run h (addEnvironmentVariables projectName ok3
                               convexUrl deployKey) w0))).
  unfold chdirs, jsonReads, writes, shells in *. rewrite !omap_app.
  rewrite Hc1, Hc2, Hj1, Hj2, Hw1, Hw2, Hs1, Hs2, !app_nil_r.
  repeat (split; [done|]). split; [|by eexists _, _, _].
  intros ->.
  destruct (run_addEnvironmentVariables projectName false convexUrl
              deployKey w0) as (t & w' & -> & _ & _ & _ & Hnone).
  by apply Hnone.
Qed.
End CompletedFacts.

Lemma createProject_completed_witness :
  outcomeOf (run Simulated.handle (createProject (js "myapp"))
               (Simulated.withManifest (js "package.json")
                  (JObject [(js "scripts", oldScripts)])))
  = Returned tt
  /\ chdirs (traceOf (run Simulated.handle (createProject (js "myapp"))
                        (Simulated.withManifest (js "package.json")
                           (JObject [(js "scripts", oldScripts)]))))
     = [js "/work/myapp"].
Proof.
  split; [by vm_compute|].
  destruct (createProject_completed Simulated.handle (js "myapp")
              (Simulated.withManifest (js "package.json")
                 (JObject [(js "scripts", oldScripts)]))
              ltac:(by vm_compute))
    as (path & pkg & patched & ok1 & ok2 & ok3 & pushes & Hc & _).
  by vm_compute.
Defined.

Section BootstrapFacts.
Context {W : Type} (h : handler W).

(** X24.  How [main] reaches [createProject].  With [--skip-checks] no
    probe is run: [createProject] starts right after the two heading
    lines.  Without it, [createProject] starts once the checks have
    returned [true], in the surroundings they left.  In both cases the
    run ends as [createProject] ends. *)
Theorem bootstrap_proceeds (projectName : jsstring) (w : W) :
  let heading := c_header (js "Bootstrap: Convex + TanStack Start + Vercel") in
  let project := js "  Project: " ++ projectName ++ [LF] in
  let w1 := snd (h _ (ConsoleLog project) (snd (h _ (ConsoleLog heading) w))) in
  let checks := run h checkAllPrerequisites w1 in
  (let r := run h (bootstrap true projectName) w in
   let created := run h (createProject projectName) w1 in
   traceOf r = said heading :: said project :: traceOf created
   /\ outcomeOf r = outcomeOf created)
  /\ (outcomeOf checks = Returned true ->
      let r := run h (bootstrap false projectName) w in
      let created := run h (createProject projectName) (worldOf checks) in
      traceOf r
      = said heading :: said project :: traceOf checks ++ traceOf created
      /\ outcomeOf r = outcomeOf created).
Proof.
  cbv zeta. unfold bootstrap. cbn [negb]. prog_unfold. split.
  - rewrite run_bind, run_log, run_bind, run_log, run_bind. cbn [run].
    by destruct (run h (createProject projectName) _) as [[t o] w2].
  - intros Hchecks.
    rewrite run_bind, run_log, run_bind, run_log, run_bind, run_bind.
    destruct (run h checkAllPrerequisites _) as [[t o] w2].
    unfold outcomeOf, traceOf, worldOf in *. cbn [fst snd] in *. subst o.
    cbn [run]. rewrite app_nil_r.
    by destruct (run h (createProject projectName) w2) as [[t2 o2] w3].
Qed.

(** X25.  [checkBun] runs [bun --version] once and reports [ok] exactly
    when it succeeded, with the trimmed output as the version; a failing
    command gives [ok: false], not an exception. *)
Theorem checkBun_cases (w : W) :
  let r := run h checkBun w in
  exists answer : option jsstring,
    traceOf r = [Call (Shell Text [[js "bun"; js "--version"]]) answer]
    /\ outcomeOf r
       = Returned (match answer with
                   | Some version => mkCheck true (Some (trim version))
                   | None => mkCheck false None
                   end).
Proof.
  cbv zeta. unfold checkBun. prog_unfold.
  rewrite run_tryCatch, run_bind, run_sh.
  destruct (h _ (Shell Text _) w) as [[version|] w1]; cbn [fst snd run].
  - by exists (Some version).
  - by exists None.
Qed.
End BootstrapFacts.

Lemma bootstrap_proceeds_witness :
  let w :=
    Simulated.mkState ∅
      {[js "/home/dev/.convex/config.json"
          := JObject [(js "accessToken", JString (js "token"))];
        js "package.json" := JObject [(js "scripts", oldScripts)]]}
      [js "/home/dev/.convex/config.json"] [] [] [] []
      {[js "HOME" := js "/home/dev"]} (js "/work") in
  outcomeOf (run Simulated.handle checkAllPrerequisites w) = Returned true
  /\ outcomeOf (run Simulated.handle (bootstrap false (js "myapp")) w)
     = Returned tt.
Proof.
  cbv zeta. split; [by vm_compute|].
  destruct (bootstrap_proceeds Simulated.handle (js "myapp")
              (Simulated.mkState ∅
                 {[js "/home/dev/.convex/config.json"
                     := JObject [(js "accessToken", JString (js "token"))];
                   js "package.json" := JObject [(js "scripts", oldScripts)]]}
                 [js "/home/dev/.convex/config.json"] [] [] [] []
                 {[js "HOME" := js "/home/dev"]} (js "/work")))
    as [_ Hchecked].
  destruct (Hchecked ltac:(by vm_compute)) as [_ ->]. by vm_compute.
Defined.
